(** * webdriver-manager: artifact reconciliation and server supervision

    A shallow embedding of the [webdriver-manager] script (the file under
    [src/unnamed/part_000]): the registry of binaries, the scan of the output
    directory, [httpGetFile], [downloadIfNew], the install callbacks of the
    [update] command and the event handlers of the [start] command.

    The script is event driven.  Its synchronous part is written in a small
    state-and-exception monad over a [World]; what the Node runtime delivers
    afterwards (network events of the pending requests, the exit of the child,
    data on standard input, SIGINT) is an [Event], handled by [step].

    What the model takes from the platform:
    - the world holds one directory, the one [argv.out_dir] names, which
      exists and holds regular files (so the [mkdirSync] at the head of the
      script has nothing to do); a path is a directory and a name in it;
    - names are bound to inodes as in a POSIX directory;
    - the asynchronous calls [fs.createWriteStream] and [fs.unlink] take
      effect at the call;
    - an exception that nobody catches ends the process;
    - [step] is the dispatch of an event to the handler the script has
      registered for it, and [run] the script followed by such events; the
      whole event loop is [session]: its inputs are these events, the two
      ['error'] events the script has no listener for (that of the shutdown
      request of the start command and that of the child) and the signals
      that end a process, and the process ends by itself, with status 0, when
      nothing is left to wait for;
    - a new file gets the mode asked for less the bits of [process.umask()];
    - [path_str] writes a path as [path.join] does on a POSIX host for a
      directory in normal form; the statements about the arguments of the
      child do not depend on the separator;
    - [config.json], [os], [process.env] and the decoding of archives by
      adm-zip are parameters. *)

From stdpp Require Import base gmap strings pretty list.
From Stdlib Require Import ZArith String Ascii.

Open Scope string_scope.

(** ** Strings as JavaScript uses them *)

(** [file.indexOf(sub) != -1] *)
Definition contains (s sub : string) : bool :=
  match String.index 0 sub s with
  | Some _ => true
  | None => false
  end.

(** [s.lastIndexOf(c)] for a one-character [c], counting from [i]; -1 when
    [c] does not occur. *)
Fixpoint lastIndexOf_from (c : ascii) (s : string) (i : Z) : Z :=
  match s with
  | EmptyString => (-1)%Z
  | String a s' =>
      let r := lastIndexOf_from c s' (i + 1) in
      if (0 <=? r)%Z then r
      else if Ascii.eqb a c then i else (-1)%Z
  end.

Definition lastIndexOf (s : string) (c : ascii) : Z := lastIndexOf_from c s 0.

(** [s.slice(0, e)]: a negative [e] counts from the end of [s]. *)
Definition slice0 (s : string) (e : Z) : string :=
  let len := Z.of_nat (String.length s) in
  let e' := if (e <? 0)%Z then Z.max 0 (len + e) else Z.min e len in
  String.substring 0 (Z.to_nat e') s.

(** [args.push(x1, ..., xn)] *)
Definition push {A} (args items : list A) : list A := app args items.

(** A JavaScript value that is either [undefined] or a string is truthy when
    it is a non-empty string; [a || b] is [a] when [a] is truthy, else [b]. *)
Definition truthy (v : option string) : bool :=
  match v with
  | Some s => negb (String.eqb s "")
  | None => false
  end.

Definition js_or (a b : option string) : option string :=
  if truthy a then a else b.

(** [url.parse(fileUrl).protocol]: the scheme with its colon. *)
Definition url_protocol (fileUrl : string) : option string :=
  match String.index 0 ":" fileUrl with
  | Some i => Some (String.substring 0 (S i) fileUrl)
  | None => None
  end.

(** [path.join(dir, file)].  The pair is kept, so that file operations can
    use the file's name inside the directory; [path_str] is the text the
    script prints and passes on. *)
Definition Path : Type := string * string.
Definition path_join (d f : string) : Path := (d, f).
Definition path_str (p : Path) : string := p.1 ++ "/" ++ p.2.

(** ** Configuration read by the script *)

(** [require('../config.json').webdriverVersions] *)
Record Versions := mkVersions {
  selenium : string;
  chromedriver : string;
  iedriver : string
}.

(** What [os], [process] and [child_process] report on the host. *)
Record Host := mkHost {
  os_type : string;                  (* os.type() *)
  os_arch : string;                  (* os.arch() *)
  process_platform : string;         (* process.platform *)
  env_HTTPS_PROXY : option string;   (* process.env.HTTPS_PROXY *)
  env_https_proxy : option string;
  env_HTTP_PROXY : option string;
  env_http_proxy : option string;
  child_pid : Z;                     (* pid of the process spawn creates *)
  umask : N                          (* process.umask() *)
}.

(** [argv] as optimist parses it. *)
Record Argv := mkArgv {
  arg_command : string;              (* argv._[0] *)
  out_dir : string;
  seleniumPort : option Z;
  ignore_ssl : bool;
  proxy : option string;
  arg_standalone : bool;             (* argv.standalone *)
  arg_chrome : bool;                 (* argv.chrome *)
  arg_ie : bool                      (* argv.ie *)
}.

(** The keys of [binaries], in the order of the object literal. *)
Inductive BinName := standalone | chrome | ie.

Global Instance BinName_eq_dec : EqDecision BinName.
Proof. solve_decision. Defined.

(** An entry of [binaries].  [bin_url] is the result of calling [url()] on
    this host, [None] for [undefined].  [bin_exists] and
    [bin_outOfDateExists] are the fields [exists] and [outOfDateExists] the
    setup loop assigns. *)
Record Binary := mkBinary {
  bin_name : string;
  bin_isDefault : bool;
  bin_prefix : string;
  bin_filename : string;
  bin_url : option string;
  bin_exists : bool;
  bin_outOfDateExists : bool
}.

(** ** The world the script runs in *)

Record File := mkFile {
  data : string;
  mode : N
}.

(** The function literals handed over as callbacks. *)
Inductive Installer :=
  | chromeInstall     (* the callback of the chrome case of update *)
  | ieInstall.        (* the callback of the ie case of update *)

(** The callback [downloadIfNew] passes to [httpGetFile]; it closes over
    [opt_callback]. *)
Inductive Callback :=
  | afterDownload (opt_callback : option Installer).

(** A request in flight, with what its four handlers close over. *)
Record Download := mkDownload {
  d_url : string;
  d_fileName : string;
  d_filePath : Path;
  d_file : nat;                      (* the inode behind the write stream *)
  d_callback : option Callback
}.

Inductive Effect :=
  | ConsoleLog (msg : string)
  | ConsoleError (msg : string)
  | ShowHelp
  | Unlink (p : Path)
  | CreateFile (p : Path)
  | Request (url : string) (strictSSL : bool) (proxy : option string)
  | WriteFile (p : Path)
  | Chmod (p : Path) (m : N)
  | Spawn (command : string) (args : list string)
  | HttpGet (url : string).

Inductive Status :=
  | Running
  | Exited (code : Z)                (* process.exit(code) *)
  | Crashed (err : string)           (* an exception nobody caught *)
  | Killed (signal : string).        (* default action of a signal *)

Global Instance Status_eq_dec : EqDecision Status.
Proof. solve_decision. Defined.

(** The output directory is [dir]: names bound to inodes, as in a POSIX
    directory, so that a write stream keeps writing to its inode after the
    name was unlinked.  [pending] holds the requests whose handlers are
    registered; [supervising] says that the handlers of the start command are
    registered; [trace] lists the effects in the order they happened. *)
Record World := mkWorld {
  dir : gmap string nat;
  inodes : gmap nat File;
  next_ino : nat;
  pending : gmap nat Download;
  next_req : nat;
  supervising : bool;
  status : Status;
  trace : list Effect
}.

Definition set_fs (d : gmap string nat) (i : gmap nat File) (n : nat)
    (w : World) : World :=
  mkWorld d i n (pending w) (next_req w) (supervising w) (status w) (trace w).

Definition set_dir (d : gmap string nat) (w : World) : World :=
  set_fs d (inodes w) (next_ino w) w.

Definition set_inodes (i : gmap nat File) (w : World) : World :=
  set_fs (dir w) i (next_ino w) w.

Definition set_pending (p : gmap nat Download) (n : nat) (w : World) : World :=
  mkWorld (dir w) (inodes w) (next_ino w) p n (supervising w) (status w)
          (trace w).

Definition set_supervising (b : bool) (w : World) : World :=
  mkWorld (dir w) (inodes w) (next_ino w) (pending w) (next_req w) b
          (status w) (trace w).

Definition set_status (s : Status) (w : World) : World :=
  mkWorld (dir w) (inodes w) (next_ino w) (pending w) (next_req w)
          (supervising w) s (trace w).

Definition add_effect (e : Effect) (w : World) : World :=
  mkWorld (dir w) (inodes w) (next_ino w) (pending w) (next_req w)
          (supervising w) (status w) (trace w ++ [e])%list.

(** A fresh process that finds the files [d] (with contents [i]) in the
    output directory. *)
Definition boot (d : gmap string nat) (i : gmap nat File) (n : nat) : World :=
  mkWorld d i n ∅ 0 false Running [].

(** ** Synchronous code: state and exceptions *)

(** [Ret a w]: the code ran to its end.  [Stop w]: it was cut short, by an
    exception or by [process.exit]; the status of [w] says which. *)
Inductive Outcome (A : Type) :=
  | Ret (a : A) (w : World)
  | Stop (w : World).
Arguments Ret {A} a w.
Arguments Stop {A} w.

Definition M (A : Type) : Type := World → Outcome A.

Global Instance M_ret : MRet M := λ A a w, Ret a w.
Global Instance M_bind : MBind M := λ A B f m w,
  match m w with
  | Ret a w' => f a w'
  | Stop w' => Stop w'
  end.

Definition world_of {A} (o : Outcome A) : World :=
  match o with
  | Ret _ w => w
  | Stop w => w
  end.

Definition emit (e : Effect) : M unit := λ w, Ret () (add_effect e w).
Definition console_log (msg : string) : M unit := emit (ConsoleLog msg).
Definition console_error (msg : string) : M unit := emit (ConsoleError msg).

Definition throw {A} (err : string) : M A :=
  λ w, Stop (set_status (Crashed err) w).

(** [process.exit(code)] *)
Definition process_exit {A} (code : Z) : M A :=
  λ w, Stop (set_status (Exited code) w).

(** [list.forEach(f)] *)
Fixpoint forEach {A} (l : list A) (f : A → M unit) : M unit :=
  match l with
  | [] => mret ()
  | x :: l' => f x;; forEach l' f
  end.

(** ** The file system calls *)

Definition existsSync (p : Path) : M bool :=
  λ w, Ret (bool_decide (is_Some (dir w !! p.2))) w.

Definition readdirSync : M (list string) :=
  λ w, Ret (elements (dom (dir w))) w.

(** [fs.unlinkSync(p)] throws when there is no such file. *)
Definition unlinkSync (p : Path) : M unit :=
  λ w, match dir w !! p.2 with
       | Some _ => Ret () (add_effect (Unlink p) (set_dir (delete p.2 (dir w)) w))
       | None => Stop (set_status (Crashed ("ENOENT: " ++ path_str p)) w)
       end.

(** [fs.unlink(p)] without a callback: the name is removed; whether the call
    failed is never looked at. *)
Definition unlink (p : Path) : M unit :=
  λ w, Ret () (add_effect (Unlink p) (set_dir (delete p.2 (dir w)) w)).

(** [fs.createWriteStream(p)], flags ['w']: an existing file is truncated, a
    missing one is created with mode 0666 (438) less the bits of the umask of
    the process.  The result is the inode
    the stream writes to. *)
Definition createWriteStream (host : Host) (p : Path) : M nat :=
  λ w, match dir w !! p.2 with
       | Some i =>
           Ret i (add_effect (CreateFile p)
                    (set_inodes (alter (λ f, mkFile "" (mode f)) i (inodes w)) w))
       | None =>
           let i := next_ino w in
           Ret i (add_effect (CreateFile p)
                    (set_fs (<[p.2 := i]> (dir w)) (<[i := mkFile "" (N.ldiff 438 (umask host))]> (inodes w)) (S i) w))
       end.

(** [file.write(chunk)] on the stream of inode [i]. *)
Definition stream_write (i : nat) (chunk : string) : M unit :=
  λ w, Ret () (set_inodes (alter (λ f, mkFile (data f ++ chunk) (mode f)) i (inodes w)) w).

(** [fs.chmodSync(p, m)] throws when there is no such file. *)
Definition chmodSync (p : Path) (m : N) : M unit :=
  λ w, match dir w !! p.2 with
       | Some i => Ret () (add_effect (Chmod p m)
                     (set_inodes (alter (λ f, mkFile (data f) m) i (inodes w)) w))
       | None => Stop (set_status (Crashed ("ENOENT: " ++ path_str p)) w)
       end.

Definition readFile (p : Path) (w : World) : option string :=
  i ← dir w !! p.2; f ← inodes w !! i; Some (data f).

(** ** What the runtime delivers after the synchronous code *)

(** The events of a request: ['response'], ['error'], ['data'], ['end']. *)
Inductive NetEvent :=
  | Response (statusCode : Z)
  | Error (err : string)
  | Data (chunk : string)
  | End.

(** [ChildExit code]: the ['exit'] event of the child; [code] is [None]
    (null) when a signal ended the child. *)
Inductive Event :=
  | Net (id : nat) (e : NetEvent)
  | ChildExit (code : option Z)
  | StdinData (chunk : string)
  | SIGINT.

Global Instance NetEvent_eq_dec : EqDecision NetEvent.
Proof. solve_decision. Defined.

Global Instance Event_eq_dec : EqDecision Event.
Proof. solve_decision. Defined.

Section WebdriverManager.

(** The globals of the script. *)
Variable versions : Versions.
Variable host : Host.
Variable argv : Argv.

(** What adm-zip reads from the bytes of an archive: the names and contents
    of its entries, or nothing when the bytes are no archive. *)
Variable unzip : string → option (list (string * string)).

(** ** The registry *)

Definition shortVersion (version : string) : string :=
  slice0 version (lastIndexOf version ".").

Definition standalone_url : option string :=
  Some ("https://selenium-release.storage.googleapis.com/" ++
        shortVersion (selenium versions) ++ "/" ++
        "selenium-server-standalone-" ++ selenium versions ++ ".jar").

Definition chrome_url : option string :=
  let urlPrefix := "https://chromedriver.storage.googleapis.com/" ++
                   chromedriver versions ++ "/chromedriver_" in
  if String.eqb (os_type host) "Darwin" then Some (urlPrefix ++ "mac32.zip")
  else if String.eqb (os_type host) "Linux" then
    if String.eqb (os_arch host) "x64" then Some (urlPrefix ++ "linux64.zip")
    else Some (urlPrefix ++ "linux32.zip")
  else if String.eqb (os_type host) "Windows_NT" then
    Some (urlPrefix ++ "win32.zip")
  else None.

Definition ie_url : option string :=
  let urlPrefix := "https://selenium-release.storage.googleapis.com/" ++
                   shortVersion (iedriver versions) ++ "/IEDriverServer" in
  if String.eqb (os_type host) "Windows_NT" then
    if String.eqb (os_arch host) "x64" then
      Some (urlPrefix ++ "_x64_" ++ iedriver versions ++ ".zip")
    else Some (urlPrefix ++ "_Win32_" ++ iedriver versions ++ ".zip")
  else None.

Definition binaries (n : BinName) : Binary :=
  match n with
  | standalone =>
      {| bin_name := "selenium standalone";
         bin_isDefault := true;
         bin_prefix := "selenium-server-standalone";
         bin_filename := "selenium-server-standalone-" ++ selenium versions ++ ".jar";
         bin_url := standalone_url;
         bin_exists := false;
         bin_outOfDateExists := false |}
  | chrome =>
      {| bin_name := "chromedriver";
         bin_isDefault := true;
         bin_prefix := "chromedriver_";
         bin_filename := "chromedriver_" ++ chromedriver versions ++ ".zip";
         bin_url := chrome_url;
         bin_exists := false;
         bin_outOfDateExists := false |}
  | ie =>
      {| bin_name := "IEDriver";
         bin_isDefault := false;
         bin_prefix := "IEDriverServer";
         bin_filename := "IEDriverServer_" ++ iedriver versions ++ ".zip";
         bin_url := ie_url;
         bin_exists := false;
         bin_outOfDateExists := false |}
  end.

(** ** Downloading *)

Definition resolveProxy (fileUrl : string) : option string :=
  let protocol := url_protocol fileUrl in
  if truthy (proxy argv) then proxy argv
  else if bool_decide (protocol = Some "https:") then
    js_or (js_or (js_or (env_HTTPS_PROXY host) (env_https_proxy host))
                 (env_HTTP_PROXY host)) (env_http_proxy host)
  else if bool_decide (protocol = Some "http:") then
    js_or (env_HTTP_PROXY host) (env_http_proxy host)
  else None.

(** [request(options)] with its four handlers registered: the request is
    sent and its closure is kept until the stream ends. *)
Definition request (url : string) (strictSSL : bool) (prox : option string)
    (d : Download) : M unit :=
  λ w, Ret () (add_effect (Request url strictSSL prox)
                 (set_pending (<[next_req w := d]> (pending w)) (S (next_req w)) w)).

Definition httpGetFile (fileUrl fileName outputDir : string)
    (callback : option Callback) : M unit :=
  console_log ("downloading " ++ fileUrl ++ "...");;
  let filePath := path_join outputDir fileName in
  file ← createWriteStream host filePath;
  let ignoreSSL := ignore_ssl argv in
  (if ignoreSSL then console_log "Ignoring SSL certificate" else mret ());;
  request fileUrl (negb ignoreSSL) (resolveProxy fileUrl)
          (mkDownload fileUrl fileName filePath file callback).

(** ** Installing *)

(** [new AdmZip(filename)]: throws when the file is missing or is no
    archive. *)
Definition AdmZip (filename : Path) : M (list (string * string)) :=
  λ w, match readFile filename w with
       | None => Stop (set_status (Crashed "Invalid filename") w)
       | Some bytes =>
           match unzip bytes with
           | Some entries => Ret entries w
           | None => Stop (set_status (Crashed "Invalid or unsupported zip format") w)
           end
       end.

(** adm-zip writes an entry to [p]: an existing file is replaced only when
    [overwrite] is set, and is left as it is otherwise. *)
Definition writeFileTo (p : Path) (content : string) (overwrite : bool) : M unit :=
  λ w, match dir w !! p.2 with
       | Some i =>
           if overwrite
           then Ret () (add_effect (WriteFile p)
                          (set_inodes (<[i := mkFile content 438]> (inodes w)) w))
           else Ret () w
       | None =>
           let i := next_ino w in
           Ret () (add_effect (WriteFile p)
                     (set_fs (<[p.2 := i]> (dir w)) (<[i := mkFile content 438]> (inodes w)) (S i) w))
       end.

(** [zip.extractAllTo(targetPath, overwrite)]; [overwrite] is false when the
    argument is left out. *)
Definition extractAllTo (zip : list (string * string)) (targetPath : string)
    (overwrite : bool) : M unit :=
  forEach zip (λ entry, writeFileTo (path_join targetPath entry.1) entry.2 overwrite).

(** The two callbacks of the update command. *)
Definition run_installer (i : Installer) (filename : Path) : M unit :=
  match i with
  | chromeInstall =>
      zip ← AdmZip filename;
      extractAllTo zip (out_dir argv) true;;
      if negb (String.eqb (os_type host) "Windows_NT")
      then chmodSync (path_join (out_dir argv) "chromedriver") 493   (* 0755 *)
      else mret ()
  | ieInstall =>
      zip ← AdmZip filename;
      extractAllTo zip (out_dir argv) false
  end.

Definition run_callback (cb : Callback) (downloaded : Path) : M unit :=
  match cb with
  | afterDownload opt_callback =>
      match opt_callback with
      | Some f => run_installer f downloaded
      | None => mret ()
      end
  end.

(** The handlers [httpGetFile] registers on the request. *)
Definition on_response (d : Download) (statusCode : Z) : M unit :=
  if bool_decide (statusCode ≠ 200%Z) then
    unlink (d_filePath d);;
    console_error ("Error: Got code " ++ pretty statusCode ++ " from " ++ d_url d)
  else mret ().

Definition on_error (d : Download) (err : string) : M unit :=
  unlink (d_filePath d);;
  console_error ("Error: Got error " ++ err ++ " from " ++ d_url d).

Definition on_data (d : Download) (chunk : string) : M unit :=
  stream_write (d_file d) chunk.

Definition on_end (d : Download) : M unit :=
  console_log (d_fileName d ++ " downloaded to " ++ path_str (d_filePath d));;
  match d_callback d with
  | Some cb => run_callback cb (d_filePath d)
  | None => mret ()
  end.

(** ** Reconciling one binary *)

Definition downloadIfNew (bin : Binary) (outputDir : string)
    (existingFiles : list string) (opt_callback : option Installer) : M unit :=
  if negb (bin_exists bin) then
    forEach existingFiles (λ file,
      if contains file (bin_prefix bin)
      then unlinkSync (path_join outputDir file)
      else mret ());;
    console_log ("Updating " ++ bin_name bin);;
    match bin_url bin with
    | None => console_error (bin_name bin ++ " is not available for your system.")
    | Some url =>
        httpGetFile url (bin_filename bin) outputDir
                    (Some (afterDownload opt_callback))
    end
  else console_log (bin_name bin ++ " is up to date.").

Definition executableName (file : string) : string :=
  if String.eqb (os_type host) "Windows_NT" then file ++ ".exe" else file.

Definition spawnCommand (command : string) (args : list string) : M Z :=
  let win32 := String.eqb (process_platform host) "win32" in
  let winCommand := if win32 then "cmd" else command in
  let finalArgs := if win32 then "/c" :: command :: args else args in
  emit (Spawn winCommand finalArgs);;
  mret (child_pid host).

(** ** Setup before any command *)

Definition scan (existingFiles : list string) (bin : Binary) : M Binary :=
  exists_ ← existsSync (path_join (out_dir argv) (bin_filename bin));
  let outOfDateExists :=
    existsb (λ file, contains file (bin_prefix bin) &&
                     negb (String.eqb file (bin_filename bin))) existingFiles in
  mret {| bin_name := bin_name bin;
          bin_isDefault := bin_isDefault bin;
          bin_prefix := bin_prefix bin;
          bin_filename := bin_filename bin;
          bin_url := bin_url bin;
          bin_exists := exists_;
          bin_outOfDateExists := outOfDateExists |}.

(** ** The commands *)

Definition report (bin : Binary) : M unit :=
  if bin_exists bin then console_log (bin_name bin ++ " is up to date")
  else if bin_outOfDateExists bin
       then console_log ("**" ++ bin_name bin ++ " needs to be updated")
       else console_log (bin_name bin ++ " is not present").

Definition show_port (p : Z) : string := pretty p.

(** [seleniumProcess.on('exit', ...)], [process.stdin.on('data', ...)] and
    [process.on('SIGINT', ...)]: from here on the three handlers of the
    start command are in place. *)
Definition register_start_handlers : M unit :=
  λ w, Ret () (set_supervising true w).

Definition start (b_standalone b_chrome b_ie : Binary) : M unit :=
  (if negb (bin_exists b_standalone) then
     console_error ("Selenium Standalone is not present. Install with " ++
                    "webdriver-manager update --standalone");;
     process_exit 1
   else mret ());;
  let args := ["-jar"; path_str (path_join (out_dir argv) (bin_filename b_standalone))] in
  let args := match seleniumPort argv with
              | Some p => if bool_decide (p ≠ 0%Z)
                          then push args ["-port"; show_port p] else args
              | None => args
              end in
  let args := if bin_exists b_chrome
              then push args ["-Dwebdriver.chrome.driver=" ++
                              path_str (path_join (out_dir argv) (executableName "chromedriver"))]
              else args in
  let args := if bin_exists b_ie
              then push args ["-Dwebdriver.ie.driver=" ++
                              path_str (path_join (out_dir argv) (executableName "IEDriverServer"))]
              else args in
  pid ← spawnCommand "java" args;
  console_log ("seleniumProcess.pid: " ++ pretty pid);;
  register_start_handlers.

Definition update (existingFiles : list string)
    (b_standalone b_chrome b_ie : Binary) : M unit :=
  (if arg_standalone argv
   then downloadIfNew b_standalone (out_dir argv) existingFiles None
   else mret ());;
  (if arg_chrome argv
   then downloadIfNew b_chrome (out_dir argv) existingFiles (Some chromeInstall)
   else mret ());;
  (if arg_ie argv
   then downloadIfNew b_ie (out_dir argv) existingFiles (Some ieInstall)
   else mret ()).

(** The script from the setup on. *)
Definition main : M unit :=
  existingFiles ← readdirSync;
  b_standalone ← scan existingFiles (binaries standalone);
  b_chrome ← scan existingFiles (binaries chrome);
  b_ie ← scan existingFiles (binaries ie);
  if String.eqb (arg_command argv) "start" then
    start b_standalone b_chrome b_ie
  else if String.eqb (arg_command argv) "status" then
    report b_standalone;; report b_chrome;; report b_ie
  else if String.eqb (arg_command argv) "update" then
    update existingFiles b_standalone b_chrome b_ie
  else
    console_error "Invalid command";; emit ShowHelp.

(** ** The handlers of the start command *)

Definition show_code (code : option Z) : string :=
  match code with
  | Some c => pretty c
  | None => "null"
  end.

(** [process.exit(code)] with a null code exits with 0. *)
Definition on_child_exit (code : option Z) : M unit :=
  console_log ("Selenium Standalone has exited with code " ++ show_code code);;
  process_exit (default 0%Z code).

Definition on_stdin_data (chunk : string) : M unit :=
  console_log "Attempting to shut down selenium nicely";;
  emit (HttpGet "http://localhost:4444/selenium-server/driver/?cmd=shutDownSeleniumServer").

Definition on_SIGINT : M unit :=
  console_log "Staying alive until the Selenium Standalone process exits".

(** ** The event loop *)

(** One event.  A process that has ended handles nothing.  A network event
    goes to the handlers of its request; the stream of a request ends once.
    The three events of the start command have handlers only after [start]
    registered them; without a handler SIGINT ends the process. *)
Definition step (w : World) (ev : Event) : World :=
  match status w with
  | Running =>
      match ev with
      | Net id e =>
          match pending w !! id with
          | Some d =>
              match e with
              | Response statusCode => world_of (on_response d statusCode w)
              | Error err => world_of (on_error d err w)
              | Data chunk => world_of (on_data d chunk w)
              | End => world_of (on_end d (set_pending (delete id (pending w)) (next_req w) w))
              end
          | None => w
          end
      | ChildExit code =>
          if supervising w then world_of (on_child_exit code w) else w
      | StdinData chunk =>
          if supervising w then world_of (on_stdin_data chunk w) else w
      | SIGINT =>
          if supervising w then world_of (on_SIGINT w)
          else set_status (Killed "SIGINT") w
      end
  | _ => w
  end.

Definition run_events (w : World) (evs : list Event) : World :=
  fold_left step evs w.

(** A whole run: the script on a fresh process, then the events. *)
Definition run (d : gmap string nat) (i : gmap nat File) (n : nat)
    (evs : list Event) : World :=
  run_events (world_of (main (boot d i n))) evs.

End WebdriverManager.

(** ** Vocabulary of the statements *)

(** [argv[name]], the flag that selects a binary for update. *)
Definition selected (argv : Argv) (b : BinName) : bool :=
  match b with
  | standalone => arg_standalone argv
  | chrome => arg_chrome argv
  | ie => arg_ie argv
  end.

(** The file [name] is in the output directory. *)
Definition present (w : World) (name : string) : Prop := is_Some (dir w !! name).

(** The effect reaches the network. *)
Definition is_network (e : Effect) : bool :=
  match e with
  | Request _ _ _ | HttpGet _ => true
  | _ => false
  end.

(** The file [name] was created or written by an effect of [t]: opened by a
    write stream or extracted from an archive. *)
Definition written (t : list Effect) (name : string) : Prop :=
  ∃ d, CreateFile (d, name) ∈ t ∨ WriteFile (d, name) ∈ t.

(** What [t] sent to the network. *)
Definition network (t : list Effect) : list Effect := List.filter is_network t.

(** The event belongs to request [id]. *)
Definition of_request (id : nat) (ev : Event) : Prop := ∃ e, ev = Net id e.

(** An event that reports the failure of request [id]. *)
Definition fails (id : nat) (ev : Event) : Prop :=
  match ev with
  | Net id' (Response statusCode) => id' = id ∧ statusCode ≠ 200%Z
  | Net id' (Error _) => id' = id
  | _ => False
  end.

Definition failure (ev : Event) : Prop := ∃ id, fails id ev.

(** The event is the exit of the child. *)
Definition is_child_exit (ev : Event) : Prop :=
  match ev with
  | ChildExit _ => True
  | _ => False
  end.

(** [respects R m]: running [m] takes every world to one related by [R],
    whether [m] returns or is cut short. *)
Definition respects (R : relation World) {A} (m : M A) : Prop :=
  ∀ w, R w (world_of (m w)).

(** [ext w w']: [w'] continues the trace of [w], and every file of [w'] was
    already in the directory of [w] or was written on the way. *)
Definition ext (w w' : World) : Prop :=
  (∃ t, trace w' = (trace w ++ t)%list) ∧
  (∀ name, present w' name → present w name ∨ written (trace w') name).

(** [grows w w']: no file of [w] has lost its name in [w']. *)
Definition grows (w w' : World) : Prop :=
  ∀ name, present w name → present w' name.

(** The file [name] was extracted from an archive by an effect of [t]. *)
Definition extracted (t : list Effect) (name : string) : Prop :=
  ∃ d, WriteFile (d, name) ∈ t.

(** [opens P w w']: every write stream opened from [w] to [w'] is on a file
    whose name satisfies [P]. *)
Definition opens (P : string → Prop) (w w' : World) : Prop :=
  ∀ p, CreateFile p ∈ trace w' → CreateFile p ∈ trace w ∨ P p.2.

(** [same_pending w w']: the requests in flight are the same. *)
Definition same_pending (w w' : World) : Prop := pending w' = pending w.

(** Every listed file that is still there is from the scan or was written
    since. *)
Definition from_scan (files : list string) (w : World) : Prop :=
  ∀ name, present w name → name ∈ files ∨ written (trace w) name.

(** Every file whose name contains [prefix] was written in this run. *)
Definition no_leftover (prefix : string) (w : World) : Prop :=
  ∀ name, present w name → contains name prefix = true → written (trace w) name.

(** The loop at the head of [downloadIfNew]. *)
Definition sweep (prefix outputDir : string) (existingFiles : list string) : M unit :=
  forEach existingFiles (λ file,
    if contains file prefix
    then unlinkSync (path_join outputDir file)
    else mret ()).

(** The directory holds the expected file of binary [b] and no other file
    whose name contains the prefix of [b]. *)
Definition only_current (versions : Versions) (host : Host) (b : BinName)
    (w : World) : Prop :=
  present w (bin_filename (binaries versions host b)) ∧
  ∀ name, present w name →
          contains name (bin_prefix (binaries versions host b)) = true →
          name = bin_filename (binaries versions host b).

(** The directory holds as many files as binaries are selected. *)
Definition one_file_per_selected (argv : Argv) (w : World) : Prop :=
  size (dir w) = List.length (List.filter (selected argv) [standalone; chrome; ie]).

(** The callback the update command passes for a binary. *)
Definition installer_of (b : BinName) : option Installer :=
  match b with
  | standalone => None
  | chrome => Some chromeInstall
  | ie => Some ieInstall
  end.

(** The requests in flight are downloads of expected files that the scan
    did not find; their destinations are in the directory. *)
Definition fetching (versions : Versions) (host : Host) (files : list string)
    (w : World) : Prop :=
  ∀ id dl, pending w !! id = Some dl →
    present w (d_fileName dl) ∧ (d_fileName dl ∉ files) ∧
    ∃ b, d_fileName dl = bin_filename (binaries versions host b) ∧
         d_callback dl = Some (afterDownload (installer_of b)).

(** One case of the update command. *)
Definition stage (host : Host) (argv : Argv) (flag : bool) (bin : Binary)
    (existingFiles : list string) (opt_callback : option Installer) : M unit :=
  if flag
  then downloadIfNew host argv bin (out_dir argv) existingFiles opt_callback
  else mret ().

(** The names the loop unlinks. *)
Definition stale (prefix : string) (existingFiles : list string) : list string :=
  List.filter (λ file, contains file prefix) existingFiles.

(** An entry of the registry after the setup loop ran over directory [d]. *)
Definition scanned (versions : Versions) (host : Host) (d : gmap string nat)
    (b : BinName) : Binary :=
  let bin := binaries versions host b in
  {| bin_name := bin_name bin;
     bin_isDefault := bin_isDefault bin;
     bin_prefix := bin_prefix bin;
     bin_filename := bin_filename bin;
     bin_url := bin_url bin;
     bin_exists := bool_decide (is_Some (d !! bin_filename bin));
     bin_outOfDateExists :=
       existsb (λ file, contains file (bin_prefix bin) &&
                        negb (String.eqb file (bin_filename bin)))
               (elements (dom d)) |}.

(** No expected filename carries the prefix of another binary. *)
Definition distinct_prefixes (versions : Versions) (host : Host) : Prop :=
  ∀ b b', contains (bin_filename (binaries versions host b))
                   (bin_prefix (binaries versions host b')) = true → b = b'.

(** [argv] with the flag of binary [b] switched off. *)
Definition deselect (b : BinName) (argv : Argv) : Argv :=
  mkArgv (arg_command argv) (out_dir argv) (seleniumPort argv) (ignore_ssl argv)
         (proxy argv)
         (match b with standalone => false | _ => arg_standalone argv end)
         (match b with chrome => false | _ => arg_chrome argv end)
         (match b with ie => false | _ => arg_ie argv end).

(** [skipped prefix files w0 w1]: [w1] is [w0] without the listed files that
    carry [prefix]; the requests, what was sent and the contents of the files
    are the same. *)
Definition skipped (prefix : string) (files : list string) (w0 w1 : World) : Prop :=
  pending w1 = pending w0 ∧ next_req w1 = next_req w0 ∧
  inodes w1 = inodes w0 ∧ next_ino w1 = next_ino w0 ∧
  status w1 = status w0 ∧ supervising w1 = supervising w0 ∧
  network (trace w1) = network (trace w0) ∧
  ∀ name, dir w1 !! name = if decide (name ∈ stale prefix files) then None
                           else dir w0 !! name.

(** ** Events without a listener, and the end of the event loop *)

(** What the runtime delivers to the process: an event for which the script
    has registered a handler; one of the two ['error'] events for which it
    registers none, that of the shutdown request the stdin handler sends and
    that of the child process; or a signal other than SIGINT whose default
    action is to end the process (SIGTERM, SIGHUP and the like). *)
Inductive Input :=
  | Handled (ev : Event)
  | ShutdownError (err : string)
  | SpawnError (err : string)
  | Kill (signal : string).

Global Instance Input_eq_dec : EqDecision Input.
Proof. solve_decision. Defined.

(** The effect is a shutdown request. *)
Definition is_get (e : Effect) : bool :=
  match e with
  | HttpGet _ => true
  | _ => false
  end.

(** One input.  An ['error'] event without a listener is thrown by its
    emitter and nobody catches it: the error of a shutdown request, once one
    was sent, and the error of the child, once it was spawned, end the
    process.  So does a signal the script has no handler for. *)
Definition deliver (host : Host) (argv : Argv)
    (unzip : string → option (list (string * string)))
    (w : World) (inp : Input) : World :=
  match inp with
  | Handled ev => step host argv unzip w ev
  | ShutdownError err =>
      match status w with
      | Running =>
          if existsb is_get (trace w) then set_status (Crashed err) w else w
      | _ => w
      end
  | SpawnError err =>
      match status w with
      | Running => if supervising w then set_status (Crashed err) w else w
      | _ => w
      end
  | Kill signal =>
      match status w with
      | Running => set_status (Killed signal) w
      | _ => w
      end
  end.

(** Node ends a process with status 0 when nothing is left to wait for: no
    request in flight and, the handlers of the start command not being
    registered, no child and no open standard input. *)
Definition settle (w : World) : World :=
  match status w with
  | Running =>
      if bool_decide (pending w = ∅) && negb (supervising w)
      then set_status (Exited 0) w else w
  | _ => w
  end.

Definition session_from (host : Host) (argv : Argv)
    (unzip : string → option (list (string * string)))
    (w : World) (inputs : list Input) : World :=
  fold_left (λ w inp, settle (deliver host argv unzip w inp)) inputs w.

(** A whole run of the process: the script, then the inputs, the process
    ending by itself as soon as nothing is left to wait for. *)
Definition session (versions : Versions) (host : Host) (argv : Argv)
    (unzip : string → option (list (string * string)))
    (d : gmap string nat) (i : gmap nat File) (n : nat)
    (inputs : list Input) : World :=
  session_from host argv unzip
    (settle (world_of (main versions host argv (boot d i n)))) inputs.



(** The supervisor waits: it runs, its handlers are registered and no
    request is in flight. *)
Definition waiting (w : World) : Prop :=
  status w = Running ∧ supervising w = true ∧ pending w = ∅.

(** ** Sample data *)

Definition v245 : Versions := mkVersions "2.45.0" "2.14" "2.45.0".

Definition linux64 : Host := mkHost "Linux" "x64" "linux" None None None None 4711 18.
Definition win64 : Host := mkHost "Windows_NT" "x64" "win32" None None None None 4711 0.

(** A decoder that knows two archives, with the contents the comments of
    the update command expect. *)
Definition sample_unzip (bytes : string) : option (list (string * string)) :=
  if String.eqb bytes "PK-chromedriver" then Some [("chromedriver", "ELF")]
  else if String.eqb bytes "PK-IEDriverServer" then Some [("IEDriverServer.exe", "MZ")]
  else None.

(** A third archive: the driver and a text file beside it. *)
Definition sample_unzip_notes (bytes : string) : option (list (string * string)) :=
  if String.eqb bytes "PK-IEDriverServer-notes"
  then Some [("IEDriverServer.exe", "MZ"); ("README.txt", "notes of 2.45.0")]
  else sample_unzip bytes.

Definition update_all : Argv := mkArgv "update" "selenium" None false None true true true.
Definition update_default : Argv := mkArgv "update" "selenium" None false None true true false.
Definition update_chrome : Argv := mkArgv "update" "selenium" None false None false true false.
Definition update_ie : Argv := mkArgv "update" "selenium" None false None false false true.
Definition start_default : Argv := mkArgv "start" "selenium" None false None true true false.

(** Directories to start from. *)

(** Everything is current; an old chromedriver archive is lying around. *)
Definition dir_current : gmap string nat :=
  {[ "selenium-server-standalone-2.45.0.jar" := 0;
     "chromedriver_2.14.zip" := 1;
     "chromedriver" := 2;
     "chromedriver_2.13.zip" := 3 ]}.

Definition inodes_current : gmap nat File :=
  {[ 0 := mkFile "JAR" 438; 1 := mkFile "PK-chromedriver" 438;
     2 := mkFile "ELF" 493; 3 := mkFile "PK-old" 438 ]}.

(** The IE driver of the version before. *)
Definition dir_ie_old : gmap string nat := {[ "IEDriverServer_2.44.0.zip" := 0 ]}.
Definition inodes_ie_old : gmap nat File := {[ 0 := mkFile "PK-old" 438 ]}.

(** An old chromedriver archive and its driver. *)
Definition dir_chrome_old : gmap string nat :=
  {[ "chromedriver_2.13.zip" := 0; "chromedriver" := 1 ]}.
Definition inodes_chrome_old : gmap nat File :=
  {[ 0 := mkFile "PK-old" 438; 1 := mkFile "ELF-old" 493 ]}.

(** A text file and nothing else. *)
Definition dir_notes : gmap string nat := {[ "README.txt" := 0 ]}.
Definition inodes_notes : gmap nat File := {[ 0 := mkFile "notes of 2.44.0" 438 ]}.

(** The downloaded IE archive next to a driver that is already there. *)
Definition world_ie_installed : World :=
  boot {[ "IEDriverServer_2.45.0.zip" := 0; "IEDriverServer.exe" := 1 ]}
       {[ 0 := mkFile "PK-IEDriverServer" 438; 1 := mkFile "MZ-old" 438 ]} 2.

(** The downloaded chromedriver archive next to a driver that is already
    there. *)
Definition world_chrome_installed : World :=
  boot {[ "chromedriver_2.14.zip" := 0; "chromedriver" := 1 ]}
       {[ 0 := mkFile "PK-chromedriver" 438; 1 := mkFile "ELF-old" 493 ]} 2.

(** The request the update command makes for chromedriver on [linux64],
    into an empty directory. *)
Definition chrome_download : Download :=
  mkDownload "https://chromedriver.storage.googleapis.com/2.14/chromedriver_linux64.zip"
             "chromedriver_2.14.zip" ("selenium", "chromedriver_2.14.zip") 0
             (Some (afterDownload (Some chromeInstall))).

(** A successful fetch of request [id] whose body is [body]. *)
Definition fetched (id : nat) (body : string) : list Event :=
  [Net id (Response 200); Net id (Data body); Net id End].

(** ** Vocabulary of the further properties *)

(** The first truthy value of a chain [a || b || ...], the last value when
    none is truthy. *)
Fixpoint first_truthy (vs : list (option string)) : option string :=
  match vs with
  | [] => None
  | [v] => v
  | v :: vs' => if truthy v then v else first_truthy vs'
  end.

(** [adds q w w']: every effect that [w'] has and [w] has not satisfies
    [q]. *)
Definition adds (q : Effect → bool) (w w' : World) : Prop :=
  ∀ e, e ∈ trace w' → e ∈ trace w ∨ q e = true.

(** [untouched w w']: the directory, the contents of the files and the
    requests in flight are the same. *)
Definition untouched (w w' : World) : Prop :=
  dir w' = dir w ∧ inodes w' = inodes w ∧ next_ino w' = next_ino w ∧
  pending w' = pending w.

(** An effect on the console, or the spawning of the child. *)
Definition is_console_or_spawn (e : Effect) : bool :=
  match e with
  | ConsoleLog _ | ConsoleError _ | ShowHelp | Spawn _ _ => true
  | _ => false
  end.

(** An effect on the console, or the shutdown request. *)
Definition is_console_or_get (e : Effect) : bool :=
  match e with
  | ConsoleLog _ | ConsoleError _ | ShowHelp | Spawn _ _ | HttpGet _ => true
  | _ => false
  end.

(** A request for the download of a selected binary, with the certificate
    check and the proxy that [argv] and the environment ask for; any effect
    that is no request. *)
Definition request_as_configured (versions : Versions) (host : Host)
    (argv : Argv) (e : Effect) : bool :=
  match e with
  | Request url strictSSL prox =>
      bool_decide (strictSSL = negb (ignore_ssl argv) ∧
                   prox = resolveProxy host argv url ∧
                   Exists (λ b, selected argv b = true ∧
                                bin_url (binaries versions host b) = Some url)
                          [standalone; chrome; ie])
  | _ => true
  end.

(** The line the status command prints for binary [b] over directory [d]. *)
Definition status_line (versions : Versions) (host : Host) (d : gmap string nat)
    (b : BinName) : string :=
  let bin := scanned versions host d b in
  if bin_exists bin then bin_name bin ++ " is up to date"
  else if bin_outOfDateExists bin
       then "**" ++ bin_name bin ++ " needs to be updated"
       else bin_name bin ++ " is not present".

(** [s] ends with [suffix]. *)
Definition ends_with (s suffix : string) : Prop := ∃ front, s = front ++ suffix.

(** Any effect but a request for a download. *)
Definition no_request (e : Effect) : bool :=
  match e with
  | Request _ _ _ => false
  | _ => true
  end.

(** The shutdown request of the start command. *)
Definition shutdown_url : string :=
  "http://localhost:4444/selenium-server/driver/?cmd=shutDownSeleniumServer".

(** The chunks of a stream, one after the other. *)
Definition joined (chunks : list string) : string :=
  foldr String.append "" chunks.

(** The file the directory of [w] has under [name]. *)
Definition file_at (w : World) (name : string) : option File :=
  i ← dir w !! name; inodes w !! i.

(** A file system as the calls of the script leave it: every name leads to a
    file, numbered below the next free number, and no two names lead to the
    same file. *)
Definition fs_wf (w : World) : Prop :=
  (∀ name i, dir w !! name = Some i → i < next_ino w ∧ is_Some (inodes w !! i)) ∧
  (∀ name name' i, dir w !! name = Some i → dir w !! name' = Some i → name = name').

(** The content of the last entry of [zip] named [name]. *)
Fixpoint last_entry (zip : list (string * string)) (name : string) : option string :=
  match zip with
  | [] => None
  | entry :: zip' =>
      match last_entry zip' name with
      | Some c => Some c
      | None => if String.eqb entry.1 name then Some entry.2 else None
      end
  end.

(** The content of the first entry of [zip] named [name]. *)
Fixpoint first_entry (zip : list (string * string)) (name : string) : option string :=
  match zip with
  | [] => None
  | entry :: zip' =>
      if String.eqb entry.1 name then Some entry.2 else first_entry zip' name
  end.

(** An effect of [t] wrote the file [name] from an archive or changed its
    mode. *)
Definition touched (t : list Effect) (name : string) : Prop :=
  ∃ p, p.2 = name ∧ (WriteFile p ∈ t ∨ ∃ m, Chmod p m ∈ t).

(** The file [j] is still under [name], and under no other name; no stream
    of a request in flight writes to it or is named like it; and it holds
    [f0] unless an effect touched it. *)
Definition spared (name : string) (j : nat) (f0 : option File) (w : World) : Prop :=
  dir w !! name = Some j ∧
  (∀ name' j', dir w !! name' = Some j' →
               j' < next_ino w ∧ (j' = j → name' = name)) ∧
  (∀ id dl, pending w !! id = Some dl →
            d_file dl ≠ j ∧ (d_filePath dl).2 ≠ name) ∧
  (inodes w !! j = f0 ∨ touched (trace w) name).

(** [sparing name j f0 w w']: from [w] to [w'] the file stays spared. *)
Definition sparing (name : string) (j : nat) (f0 : option File)
    (w w' : World) : Prop :=
  spared name j f0 w → spared name j f0 w'.

(** [same_handlers w w']: the handlers of the start command are registered
    in [w'] exactly when they are in [w]. *)
Definition same_handlers (w w' : World) : Prop := supervising w' = supervising w.

(** More sample data: a proxy on the command line and one in the
    environment, the other commands, and a word that is no command. *)
Definition update_via_proxy : Argv :=
  mkArgv "update" "selenium" None false (Some "http://proxy.example:3128") true true false.
Definition linux64_proxied : Host :=
  mkHost "Linux" "x64" "linux" None (Some "http://env.example:3128") None None 4711 18.
Definition status_default : Argv := mkArgv "status" "selenium" None false None true true false.
Definition start_on_port : Argv :=
  mkArgv "start" "selenium" (Some 4445%Z) false None true true false.
Definition no_command : Argv := mkArgv "upgrade" "selenium" None false None true true false.

(** ** The string functions *)

Lemma substring_skip l t n :
  String.substring (String.length l) n (l ++ t) = String.substring 0 n t.
Proof. induction l as [|a l IH]; [done|]. simpl. apply IH. Qed.

Lemma substring_prefix sub r :
  String.substring 0 (String.length sub) (sub ++ r) = sub.
Proof.
  induction sub as [|a sub IH]; simpl.
  - by destruct r.
  - by rewrite IH.
Qed.

Lemma substring_0_split n s t :
  String.substring 0 n s = t → String.length t = n → ∃ r, s = t ++ r.
Proof.
  revert s t. induction n as [|n IH]; intros s t Hs Hl.
  - destruct t; [|done]. by exists s.
  - destruct s as [|a s]; simpl in Hs; subst t; [done|].
    simpl in Hl. injection Hl as Hl.
    destruct (IH s _ eq_refl Hl) as [r Hr]. exists r. exact (f_equal (String a) Hr).
Qed.

Lemma substring_split m n s t :
  String.substring m n s = t → String.length t = n → ∃ l r, s = l ++ t ++ r.
Proof.
  revert s. induction m as [|m IH]; intros s Hs Hl.
  - destruct (substring_0_split n s t Hs Hl) as [r ->]. by exists "", r.
  - destruct s as [|a s]; simpl in Hs.
    + subst t. destruct n; [|done]. by exists "", "".
    + destruct (IH s Hs Hl) as (l & r & ->). by exists (String a l), r.
Qed.

(** [contains s sub] says that [sub] occurs in [s]. *)
Lemma contains_spec s sub :
  contains s sub = true ↔ ∃ l r, s = l ++ sub ++ r.
Proof.
  unfold contains. split.
  - destruct (String.index 0 sub s) as [m|] eqn:Hi; [intros _|done].
    apply index_correct1 in Hi. by eapply substring_split.
  - intros (l & r & ->). destruct (String.index 0 sub (l ++ sub ++ r)) eqn:Hi; [done|].
    exfalso. destruct (decide (sub = "")) as [->|Hne].
    + apply index_correct4 in Hi. lia.
    + apply (index_correct3 0 (String.length l) _ _ Hi Hne); [lia|].
      by rewrite substring_skip, substring_prefix.
Qed.

(** The registry on the sample configuration. *)
Example registry_urls :
  shortVersion "2.45.0" = "2.45" ∧
  bin_url (binaries v245 linux64 standalone) =
    Some "https://selenium-release.storage.googleapis.com/2.45/selenium-server-standalone-2.45.0.jar" ∧
  bin_url (binaries v245 linux64 chrome) =
    Some "https://chromedriver.storage.googleapis.com/2.14/chromedriver_linux64.zip" ∧
  bin_url (binaries v245 linux64 ie) = None ∧
  bin_url (binaries v245 win64 ie) =
    Some "https://selenium-release.storage.googleapis.com/2.45/IEDriverServer_x64_2.45.0.zip" ∧
  bin_filename (binaries v245 win64 ie) = "IEDriverServer_2.45.0.zip".
Proof. by vm_compute. Qed.

(** A version without a dot loses its last character, as [slice(0, -1)]
    does. *)
Example shortVersion_no_dot : shortVersion "245" = "24" ∧ shortVersion "" = "".
Proof. by vm_compute. Qed.

(** ** Lemmas on the primitives *)

Lemma bind_eq {A B} (m : M A) (f : A → M B) w :
  (m ≫= f) w = match m w with Ret a w' => f a w' | Stop w' => Stop w' end.
Proof. reflexivity. Qed.

Lemma run_events_app host argv unzip w evs evs' :
  run_events host argv unzip w (evs ++ evs') =
  run_events host argv unzip (run_events host argv unzip w evs) evs'.
Proof. apply fold_left_app. Qed.

Lemma run_events_cons host argv unzip w ev evs :
  run_events host argv unzip w (ev :: evs) =
  run_events host argv unzip (step host argv unzip w ev) evs.
Proof. reflexivity. Qed.

Lemma world_of_bind {A B} (m : M A) (f : A → M B) w :
  world_of ((m ≫= f) w) =
  match m w with Ret a w' => world_of (f a w') | Stop w' => w' end.
Proof. rewrite bind_eq. by destruct (m w). Qed.

Section Reconcile.

Variable versions : Versions.
Variable host : Host.
Variable argv : Argv.
Variable unzip : string → option (list (string * string)).

Lemma downloadIfNew_present bin outputDir existingFiles opt_callback w :
  bin_exists bin = true →
  downloadIfNew host argv bin outputDir existingFiles opt_callback w =
  Ret () (add_effect (ConsoleLog (bin_name bin ++ " is up to date.")) w).
Proof. intros H. unfold downloadIfNew. by rewrite H. Qed.

Lemma main_update d i n :
  arg_command argv = "update" →
  main versions host argv (boot d i n) =
  update host argv (elements (dom d)) (scanned versions host d standalone)
         (scanned versions host d chrome) (scanned versions host d ie)
         (boot d i n).
Proof.
  intros H. unfold main. rewrite H. reflexivity.
Qed.

(** A world with no request in flight and no handler of the start command
    ignores every event but SIGINT, which ends it; its files and its trace
    stay as they are. *)
Lemma idle_run w evs :
  pending w = ∅ → supervising w = false →
  let w' := run_events host argv unzip w evs in
  dir w' = dir w ∧ inodes w' = inodes w ∧ trace w' = trace w ∧
  pending w' = ∅.
Proof.
  revert w. induction evs as [|ev evs IH]; intros w Hp Hs; simpl.
  - done.
  - assert (Hstep : dir (step host argv unzip w ev) = dir w ∧
                    inodes (step host argv unzip w ev) = inodes w ∧
                    trace (step host argv unzip w ev) = trace w ∧
                    pending (step host argv unzip w ev) = ∅ ∧
                    supervising (step host argv unzip w ev) = false).
    { unfold step. destruct (status w); try done.
      destruct ev as [id e| | |]; rewrite ?Hs; try done.
      rewrite Hp, lookup_empty. done. }
    destruct Hstep as (Hd & Hi & Ht & Hp' & Hs').
    destruct (IH _ Hp' Hs') as (? & ? & ? & ?).
    repeat split; congruence.
Qed.

(** An update that finds the expected file of every selected binary prints
    one line for each of them and does nothing else; no event changes that. *)
Lemma update_when_current d i n evs :
  arg_command argv = "update" →
  (∀ b, selected argv b = true →
        is_Some (d !! bin_filename (binaries versions host b))) →
  let w := run versions host argv unzip d i n evs in
  dir w = d ∧ inodes w = i ∧ pending w = ∅ ∧
  trace w = map (λ b, ConsoleLog (bin_name (binaries versions host b) ++
                                  " is up to date."))
                (List.filter (selected argv) [standalone; chrome; ie]) ∧
  (∀ e, e ∈ trace w → is_network e = false).
Proof.
  intros Hcmd Hsel w.
  set (w1 := world_of (main versions host argv (boot d i n))).
  assert (H1 : dir w1 = d ∧ inodes w1 = i ∧ pending w1 = ∅ ∧
               supervising w1 = false ∧
               trace w1 = map (λ b, ConsoleLog (bin_name (binaries versions host b) ++
                                                " is up to date."))
                              (List.filter (selected argv) [standalone; chrome; ie])).
  { subst w1. rewrite main_update by done. unfold update.
    pose proof (Hsel standalone) as Hs.
    pose proof (Hsel chrome) as Hc.
    pose proof (Hsel ie) as Hi.
    simpl in Hs, Hc, Hi. simpl List.filter.
    destruct (arg_standalone argv), (arg_chrome argv), (arg_ie argv);
      repeat (first [ rewrite bind_eq
                    | rewrite downloadIfNew_present
                        by (simpl; apply bool_decide_eq_true_2; auto) ];
              simpl);
      done. }
  destruct H1 as (Hd & Hi & Hp & Hs & Ht).
  destruct (idle_run w1 evs Hp Hs) as (Hd' & Hi' & Ht' & Hp').
  subst w. unfold run. fold w1.
  split_and!; try congruence.
  intros e He. rewrite Ht', Ht in He.
  apply list_elem_of_fmap in He as (b & -> & _). done.
Qed.

End Reconcile.

(** *** Relations kept by the synchronous code *)

Section Respects.

Context (R : relation World) `{!Reflexive R, !Transitive R}.

Lemma respects_ret {A} (a : A) : respects R (mret a).
Proof. intros w. simpl. reflexivity. Qed.

Lemma respects_bind {A B} (m : M A) (f : A → M B) :
  respects R m → (∀ a, respects R (f a)) → respects R (m ≫= f).
Proof.
  intros Hm Hf w. rewrite world_of_bind. specialize (Hm w).
  destruct (m w) as [a w'|w']; simpl in Hm; [|done].
  etrans; [exact Hm|apply Hf].
Qed.

Lemma respects_forEach {A} (l : list A) (f : A → M unit) :
  (∀ x, respects R (f x)) → respects R (forEach l f).
Proof.
  intros Hf. induction l as [|x l IH]; simpl.
  - apply respects_ret.
  - apply respects_bind; [apply Hf|intros _; apply IH].
Qed.

End Respects.

Global Instance ext_refl : Reflexive ext.
Proof.
  intros w. split; [exists []; by rewrite app_nil_r|]. intros name H. by left.
Qed.

Lemma written_app t t' name : written t name → written (t ++ t') name.
Proof. intros [d H]. exists d. rewrite !elem_of_app. tauto. Qed.

Global Instance ext_trans : Transitive ext.
Proof.
  intros w1 w2 w3 [[t Ht] H12] [[t' Ht'] H23]. split.
  - exists (t ++ t')%list. by rewrite Ht', Ht, app_assoc.
  - intros name H3. destruct (H23 name H3) as [H2|Hw]; [|by right].
    destruct (H12 name H2) as [H1|Hw]; [by left|right].
    rewrite Ht'. by apply written_app.
Qed.

Global Instance grows_refl : Reflexive grows.
Proof. by intros w name. Qed.

Global Instance grows_trans : Transitive grows.
Proof. intros w1 w2 w3 H12 H23 name H. by apply H23, H12. Qed.

(** The primitives under [ext]. *)

Lemma ext_same_dir w w' t :
  dir w' = dir w → trace w' = (trace w ++ t)%list → ext w w'.
Proof.
  intros Hd Ht. split; [by exists t|]. intros name H. left.
  unfold present in *. by rewrite <- Hd.
Qed.

Lemma ext_emit e : respects ext (emit e).
Proof. intros w. by apply (ext_same_dir _ _ [e]). Qed.

Lemma ext_throw {A} err : respects ext (@throw A err).
Proof. intros w. apply (ext_same_dir _ _ []); simpl; by rewrite ?app_nil_r. Qed.

Lemma ext_process_exit {A} code : respects ext (@process_exit A code).
Proof. intros w. apply (ext_same_dir _ _ []); simpl; by rewrite ?app_nil_r. Qed.

Lemma ext_existsSync p : respects ext (existsSync p).
Proof. intros w. reflexivity. Qed.

Lemma ext_readdirSync : respects ext readdirSync.
Proof. intros w. reflexivity. Qed.

Lemma ext_unlink p : respects ext (unlink p).
Proof.
  intros w. split; [by exists [Unlink p]|]. intros name H. left.
  unfold present in *. simpl in H.
  destruct (decide (p.2 = name)) as [<-|Hne].
  - rewrite lookup_delete_eq in H. by destruct H.
  - by rewrite lookup_delete_ne in H.
Qed.

Lemma ext_unlinkSync p : respects ext (unlinkSync p).
Proof.
  intros w. unfold unlinkSync. destruct (dir w !! p.2) eqn:Hp.
  - apply (ext_unlink p w).
  - apply (ext_same_dir _ _ []); simpl; by rewrite ?app_nil_r.
Qed.

Lemma ext_createWriteStream host p : respects ext (createWriteStream host p).
Proof.
  intros w. unfold createWriteStream. destruct (dir w !! p.2) eqn:Hp.
  - by apply (ext_same_dir _ _ [CreateFile p]).
  - split; [by exists [CreateFile p]|]. intros name H.
    unfold present in *. simpl in *.
    destruct (decide (p.2 = name)) as [<-|Hne].
    + right. exists p.1. left. destruct p. set_solver.
    + left. by rewrite lookup_insert_ne in H.
Qed.

Lemma ext_stream_write i chunk : respects ext (stream_write i chunk).
Proof. intros w. apply (ext_same_dir _ _ []); simpl; by rewrite ?app_nil_r. Qed.

Lemma ext_chmodSync p m : respects ext (chmodSync p m).
Proof.
  intros w. unfold chmodSync. destruct (dir w !! p.2).
  - by apply (ext_same_dir _ _ [Chmod p m]).
  - apply (ext_same_dir _ _ []); simpl; by rewrite ?app_nil_r.
Qed.

Lemma ext_writeFileTo p content overwrite : respects ext (writeFileTo p content overwrite).
Proof.
  intros w. unfold writeFileTo. destruct (dir w !! p.2) eqn:Hp.
  - destruct overwrite; [by apply (ext_same_dir _ _ [WriteFile p])|reflexivity].
  - split; [by exists [WriteFile p]|]. intros name H.
    unfold present in *. simpl in *.
    destruct (decide (p.2 = name)) as [<-|Hne].
    + right. exists p.1. right. destruct p. set_solver.
    + left. by rewrite lookup_insert_ne in H.
Qed.

Lemma ext_request url strictSSL prox d : respects ext (request url strictSSL prox d).
Proof. intros w. by apply (ext_same_dir _ _ [Request url strictSSL prox]). Qed.

Lemma ext_register : respects ext register_start_handlers.
Proof. intros w. apply (ext_same_dir _ _ []); simpl; by rewrite ?app_nil_r. Qed.

Lemma ext_AdmZip unzip p : respects ext (AdmZip unzip p).
Proof.
  intros w. unfold AdmZip. destruct (readFile p w) as [bytes|].
  - destruct (unzip bytes); [reflexivity|].
    apply (ext_same_dir _ _ []); simpl; by rewrite ?app_nil_r.
  - apply (ext_same_dir _ _ []); simpl; by rewrite ?app_nil_r.
Qed.

Create HintDb respects discriminated.

#[export] Hint Resolve ext_emit ext_throw ext_process_exit ext_existsSync
  ext_readdirSync ext_unlink ext_unlinkSync ext_createWriteStream
  ext_stream_write ext_chmodSync ext_writeFileTo ext_request ext_register
  ext_AdmZip : respects.

(** Goes through the binds, loops and branches of a piece of synchronous
    code and closes the leaves with the lemmas on the primitives. *)
Ltac respects_steps :=
  repeat first
    [ apply respects_ret
    | apply respects_bind
    | apply respects_forEach
    | match goal with
      | |- Reflexive _ => apply _
      | |- Transitive _ => apply _
      | |- ∀ _, _ => intros ?
      | |- respects _ (if ?b then _ else _) => destruct b
      | |- respects _ (match ?x with _ => _ end) => destruct x
      end
    | solve [eauto with respects] ].

(** *** The loop that removes the old versions *)

Lemma sweep_cons prefix outputDir file files :
  sweep prefix outputDir (file :: files) =
  ((if contains file prefix then unlinkSync (path_join outputDir file) else mret ());;
   sweep prefix outputDir files).
Proof. reflexivity. Qed.

(** Run on files that are all still there, the loop unlinks the listed names
    that contain the prefix, one after the other, and nothing else changes. *)
Lemma sweep_ok prefix outputDir files w :
  NoDup files →
  (∀ f, f ∈ files → contains f prefix = true → present w f) →
  ∃ w', sweep prefix outputDir files w = Ret () w' ∧
        (∀ f, dir w' !! f = if decide (f ∈ stale prefix files) then None
                            else dir w !! f) ∧
        inodes w' = inodes w ∧ next_ino w' = next_ino w ∧
        pending w' = pending w ∧ next_req w' = next_req w ∧
        supervising w' = supervising w ∧ status w' = status w ∧
        trace w' = (trace w ++ map (λ f, Unlink (path_join outputDir f))
                                   (stale prefix files))%list.
Proof.
  intros Hnd. revert w. induction Hnd as [|file files Hnin Hnd IH]; intros w Hall.
  - exists w. simpl. split_and!; try done. by rewrite app_nil_r.
  - rewrite sweep_cons, bind_eq. unfold stale. simpl.
    destruct (contains file prefix) eqn:Hc.
    + destruct (Hall file) as [i Hi]; [by apply elem_of_cons; left|done|].
      unfold unlinkSync. simpl. rewrite Hi.
      set (w1 := add_effect _ _).
      destruct (IH w1) as (w' & Hrun & Hdir & ? & ? & ? & ? & ? & ? & Ht).
      { intros f Hf Hcf. unfold present. subst w1. simpl.
        rewrite lookup_delete_ne by (by intros <-).
        apply Hall; [by apply elem_of_cons; right|done]. }
      exists w'. split_and!; try done.
      * intros f. rewrite Hdir. fold (stale prefix files). subst w1. simpl.
        destruct (decide (f = file)) as [->|Hne].
        -- rewrite lookup_delete_eq.
           rewrite (decide_True (P := file ∈ file :: _))
             by (by apply elem_of_cons; left).
           by case_decide.
        -- rewrite lookup_delete_ne by done.
           pose proof (elem_of_cons (stale prefix files) f file) as Hcons.
           repeat case_decide; try done; exfalso; tauto.
      * rewrite Ht. subst w1. simpl. by rewrite <- app_assoc.
    + simpl. apply IH. intros f Hf Hcf.
      apply Hall; [by apply elem_of_cons; right|done].
Qed.

(** However the loop ends, it touches no name outside the listing and none
    without the prefix, and brings no name back. *)
Lemma sweep_frame prefix outputDir files w f :
  f ∉ files ∨ contains f prefix = false →
  dir (world_of (sweep prefix outputDir files w)) !! f = dir w !! f.
Proof.
  revert w. induction files as [|file files IH]; intros w Hf; [done|].
  rewrite sweep_cons, world_of_bind.
  assert (Hf' : f ∉ files ∨ contains f prefix = false).
  { destruct Hf as [Hf|Hf]; [left|by right].
    by apply not_elem_of_cons in Hf as [_ Hf]. }
  destruct (contains file prefix) eqn:Hc; simpl.
  - unfold unlinkSync. destruct (dir w !! (path_join outputDir file).2) eqn:Hl;
      [|done].
    rewrite IH by done. simpl. apply lookup_delete_ne.
    intros <-. destruct Hf as [Hf|Hf]; [|congruence].
    by apply not_elem_of_cons in Hf as [Hf _].
  - by apply IH.
Qed.

Lemma sweep_shrinks prefix outputDir files w f :
  dir w !! f = None →
  dir (world_of (sweep prefix outputDir files w)) !! f = None.
Proof.
  revert w. induction files as [|file files IH]; intros w Hf; [done|].
  rewrite sweep_cons, world_of_bind.
  destruct (contains file prefix); simpl; [|by apply IH].
  unfold unlinkSync. destruct (dir w !! (path_join outputDir file).2); [|done].
  apply IH. simpl. by apply lookup_delete_None; right.
Qed.

(** When the loop returns, every listed name with the prefix is gone. *)
Lemma sweep_ret_gone prefix outputDir files w w' f :
  sweep prefix outputDir files w = Ret () w' →
  f ∈ files → contains f prefix = true → dir w' !! f = None.
Proof.
  revert w. induction files as [|file files IH]; intros w Hrun Hf Hc;
    [by apply elem_of_nil in Hf|].
  rewrite sweep_cons, bind_eq in Hrun.
  destruct (decide (f = file)) as [->|Hne].
  - rewrite Hc in Hrun. unfold unlinkSync in Hrun. simpl in Hrun.
    destruct (dir w !! file); [|done].
    replace w' with (world_of (sweep prefix outputDir files
      (add_effect (Unlink (path_join outputDir file))
         (set_dir (delete file (dir w)) w)))) by (by rewrite Hrun).
    apply sweep_shrinks. simpl. apply lookup_delete_eq.
  - assert (Hf' : f ∈ files) by (by apply elem_of_cons in Hf as [?|?]).
    destruct (contains file prefix); simpl in Hrun.
    + unfold unlinkSync in Hrun. simpl in Hrun.
      destruct (dir w !! file); [|done]. by eapply IH.
    + by eapply IH.
Qed.

(** What the loop leaves alone. *)
Lemma sweep_rest prefix outputDir files w :
  let w' := world_of (sweep prefix outputDir files w) in
  inodes w' = inodes w ∧ next_ino w' = next_ino w ∧ pending w' = pending w ∧
  next_req w' = next_req w ∧ supervising w' = supervising w.
Proof.
  revert w. induction files as [|file files IH]; intros w; [done|].
  rewrite sweep_cons, world_of_bind.
  destruct (contains file prefix); simpl; [|apply IH].
  unfold unlinkSync. destruct (dir w !! (path_join outputDir file).2); [|done].
  destruct (IH (add_effect (Unlink (path_join outputDir file))
                  (set_dir (delete (path_join outputDir file).2 (dir w)) w)))
    as (? & ? & ? & ? & ?). done.
Qed.

(** *** The primitives under [grows] and [same_pending] *)

Global Instance same_pending_refl : Reflexive same_pending.
Proof. by intros w. Qed.

Global Instance same_pending_trans : Transitive same_pending.
Proof. intros w1 w2 w3 H12 H23. unfold same_pending in *. congruence. Qed.

Lemma grows_same_dir w w' : dir w' = dir w → grows w w'.
Proof. intros H name. unfold present. by rewrite H. Qed.

Lemma grows_insert w w' name i :
  dir w' = <[name := i]> (dir w) → grows w w'.
Proof.
  intros H f. unfold present. rewrite H, lookup_insert_is_Some. intros Hf.
  destruct (decide (name = f)); auto.
Qed.

Lemma grows_emit e : respects grows (emit e).
Proof. intros w. by apply grows_same_dir. Qed.

Lemma grows_throw {A} err : respects grows (@throw A err).
Proof. intros w. by apply grows_same_dir. Qed.

Lemma grows_process_exit {A} code : respects grows (@process_exit A code).
Proof. intros w. by apply grows_same_dir. Qed.

Lemma grows_createWriteStream host p : respects grows (createWriteStream host p).
Proof.
  intros w. unfold createWriteStream. destruct (dir w !! p.2).
  - by apply grows_same_dir.
  - by eapply grows_insert.
Qed.

Lemma grows_stream_write i chunk : respects grows (stream_write i chunk).
Proof. intros w. by apply grows_same_dir. Qed.

Lemma grows_chmodSync p m : respects grows (chmodSync p m).
Proof.
  intros w. unfold chmodSync. destruct (dir w !! p.2); by apply grows_same_dir.
Qed.

Lemma grows_writeFileTo p content overwrite :
  respects grows (writeFileTo p content overwrite).
Proof.
  intros w. unfold writeFileTo. destruct (dir w !! p.2).
  - destruct overwrite; by apply grows_same_dir.
  - by eapply grows_insert.
Qed.

Lemma grows_request url strictSSL prox d : respects grows (request url strictSSL prox d).
Proof. intros w. by apply grows_same_dir. Qed.

Lemma grows_AdmZip unzip p : respects grows (AdmZip unzip p).
Proof.
  intros w. unfold AdmZip. destruct (readFile p w) as [bytes|];
    [destruct (unzip bytes)|]; by apply grows_same_dir.
Qed.

Lemma same_pending_emit e : respects same_pending (emit e).
Proof. by intros w. Qed.

Lemma same_pending_throw {A} err : respects same_pending (@throw A err).
Proof. by intros w. Qed.

Lemma same_pending_process_exit {A} code : respects same_pending (@process_exit A code).
Proof. by intros w. Qed.

Lemma same_pending_unlink p : respects same_pending (unlink p).
Proof. by intros w. Qed.

Lemma same_pending_unlinkSync p : respects same_pending (unlinkSync p).
Proof. intros w. unfold unlinkSync. by destruct (dir w !! p.2). Qed.

Lemma same_pending_stream_write i chunk : respects same_pending (stream_write i chunk).
Proof. by intros w. Qed.

Lemma same_pending_chmodSync p m : respects same_pending (chmodSync p m).
Proof. intros w. unfold chmodSync. by destruct (dir w !! p.2). Qed.

Lemma same_pending_writeFileTo p content overwrite :
  respects same_pending (writeFileTo p content overwrite).
Proof.
  intros w. unfold writeFileTo. destruct (dir w !! p.2); [by destruct overwrite|done].
Qed.

Lemma same_pending_AdmZip unzip p : respects same_pending (AdmZip unzip p).
Proof.
  intros w. unfold AdmZip. destruct (readFile p w) as [bytes|];
    [by destruct (unzip bytes)|done].
Qed.

#[export] Hint Resolve grows_emit grows_throw grows_process_exit
  grows_createWriteStream grows_stream_write grows_chmodSync grows_writeFileTo
  grows_request grows_AdmZip same_pending_emit same_pending_throw
  same_pending_process_exit same_pending_unlink same_pending_unlinkSync
  same_pending_stream_write same_pending_chmodSync same_pending_writeFileTo
  same_pending_AdmZip : respects.

(** *** The primitives under [opens] *)

Section Opens.

Variable P : string → Prop.

Global Instance opens_refl : Reflexive (opens P).
Proof. intros w p H. by left. Qed.

Global Instance opens_trans : Transitive (opens P).
Proof.
  intros w1 w2 w3 H12 H23 p H3. destruct (H23 p H3) as [H2|?]; [|by right].
  by apply H12.
Qed.

Lemma opens_same_trace w w' : trace w' = trace w → opens P w w'.
Proof. intros H p. rewrite H. by left. Qed.

Lemma opens_snoc w w' e :
  trace w' = (trace w ++ [e])%list → (∀ p, e = CreateFile p → P p.2) →
  opens P w w'.
Proof.
  intros H He p. rewrite H, elem_of_app, list_elem_of_singleton.
  intros [?|Hp]; [by left|right]. by apply He.
Qed.

Lemma opens_emit e : (∀ p, e ≠ CreateFile p) → respects (opens P) (emit e).
Proof.
  intros He w. apply (opens_snoc _ _ e); [done|]. intros p Hp. by destruct (He p).
Qed.

Lemma opens_throw {A} err : respects (opens P) (@throw A err).
Proof. intros w. by apply opens_same_trace. Qed.

Lemma opens_process_exit {A} code : respects (opens P) (@process_exit A code).
Proof. intros w. by apply opens_same_trace. Qed.

Lemma opens_unlink p : respects (opens P) (unlink p).
Proof. intros w. by apply (opens_snoc _ _ (Unlink p)). Qed.

Lemma opens_unlinkSync p : respects (opens P) (unlinkSync p).
Proof.
  intros w. unfold unlinkSync. destruct (dir w !! p.2).
  - by apply (opens_snoc _ _ (Unlink p)).
  - by apply opens_same_trace.
Qed.

Lemma opens_createWriteStream host p : P p.2 → respects (opens P) (createWriteStream host p).
Proof.
  intros Hp w. unfold createWriteStream.
  destruct (dir w !! p.2); apply (opens_snoc _ _ (CreateFile p)); try done;
    by intros ? [= <-].
Qed.

Lemma opens_stream_write i chunk : respects (opens P) (stream_write i chunk).
Proof. intros w. by apply opens_same_trace. Qed.

Lemma opens_chmodSync p m : respects (opens P) (chmodSync p m).
Proof.
  intros w. unfold chmodSync. destruct (dir w !! p.2).
  - by apply (opens_snoc _ _ (Chmod p m)).
  - by apply opens_same_trace.
Qed.

Lemma opens_writeFileTo p content overwrite :
  respects (opens P) (writeFileTo p content overwrite).
Proof.
  intros w. unfold writeFileTo. destruct (dir w !! p.2); [destruct overwrite|].
  - by apply (opens_snoc _ _ (WriteFile p)).
  - reflexivity.
  - by apply (opens_snoc _ _ (WriteFile p)).
Qed.

Lemma opens_request url strictSSL prox d :
  respects (opens P) (request url strictSSL prox d).
Proof. intros w. by apply (opens_snoc _ _ (Request url strictSSL prox)). Qed.

Lemma opens_AdmZip unzip p : respects (opens P) (AdmZip unzip p).
Proof.
  intros w. unfold AdmZip. destruct (readFile p w) as [bytes|];
    [destruct (unzip bytes)|]; by apply opens_same_trace.
Qed.

Lemma opens_console_log msg : respects (opens P) (console_log msg).
Proof. by apply opens_emit. Qed.

Lemma opens_console_error msg : respects (opens P) (console_error msg).
Proof. by apply opens_emit. Qed.

End Opens.

#[export] Hint Resolve opens_throw opens_process_exit opens_unlink
  opens_unlinkSync opens_createWriteStream opens_stream_write opens_chmodSync
  opens_writeFileTo opens_request opens_AdmZip opens_console_log
  opens_console_error : respects.

Section OpensCode.

Variable P : string → Prop.
Variable host : Host.
Variable argv : Argv.
Variable unzip : string → option (list (string * string)).

Lemma opens_sweep prefix outputDir files :
  respects (opens P) (sweep prefix outputDir files).
Proof. unfold sweep. respects_steps. Qed.

Lemma opens_httpGetFile fileUrl fileName outputDir callback :
  P fileName →
  respects (opens P) (httpGetFile host argv fileUrl fileName outputDir callback).
Proof. intros HP. unfold httpGetFile. respects_steps. Qed.

Lemma opens_stage flag bin files cb :
  P (bin_filename bin) → respects (opens P) (stage host argv flag bin files cb).
Proof.
  intros HP. unfold stage, downloadIfNew.
  pose proof (opens_httpGetFile) as Hget. respects_steps.
Qed.

Lemma opens_extractAllTo zip targetPath overwrite :
  respects (opens P) (extractAllTo zip targetPath overwrite).
Proof. unfold extractAllTo. respects_steps. Qed.

Lemma opens_on_end d : respects (opens P) (on_end host argv unzip d).
Proof.
  unfold on_end, run_callback, run_installer. pose proof opens_extractAllTo.
  respects_steps.
Qed.

(** No event opens a write stream. *)
Lemma opens_step w ev : opens P w (step host argv unzip w ev).
Proof.
  unfold step. destruct (status w); try reflexivity.
  destruct ev as [id e|code|chunk|].
  - destruct (pending w !! id) as [d|]; [|reflexivity].
    destruct e as [c|err|chunk|].
    + assert (H : respects (opens P) (on_response d c))
        by (unfold on_response; respects_steps). apply H.
    + assert (H : respects (opens P) (on_error d err))
        by (unfold on_error; respects_steps). apply H.
    + by apply opens_same_trace.
    + etrans; [|apply opens_on_end]. by apply opens_same_trace.
  - destruct (supervising w); [|reflexivity].
    assert (H : respects (opens P) (on_child_exit code))
      by (unfold on_child_exit; respects_steps). apply H.
  - destruct (supervising w); [|reflexivity].
    assert (H : respects (opens P) (on_stdin_data chunk)).
    { unfold on_stdin_data. pose proof (opens_emit P). respects_steps. }
    apply H.
  - destruct (supervising w); [apply opens_console_log|by apply opens_same_trace].
Qed.

Lemma opens_run_events w evs : opens P w (run_events host argv unzip w evs).
Proof.
  revert w. induction evs as [|ev evs IH]; intros w; [reflexivity|].
  rewrite run_events_cons. etrans; [apply opens_step|apply IH].
Qed.

End OpensCode.

Section Extends.

Variable versions : Versions.
Variable host : Host.
Variable argv : Argv.
Variable unzip : string → option (list (string * string)).

Lemma ext_console_log msg : respects ext (console_log msg).
Proof. apply ext_emit. Qed.

Lemma ext_console_error msg : respects ext (console_error msg).
Proof. apply ext_emit. Qed.

Hint Resolve ext_console_log ext_console_error : respects.

Lemma ext_sweep prefix outputDir existingFiles :
  respects ext (sweep prefix outputDir existingFiles).
Proof. unfold sweep. respects_steps. Qed.

Lemma ext_httpGetFile fileUrl fileName outputDir callback :
  respects ext (httpGetFile host argv fileUrl fileName outputDir callback).
Proof. unfold httpGetFile. respects_steps. Qed.

Lemma ext_downloadIfNew bin outputDir existingFiles opt_callback :
  respects ext (downloadIfNew host argv bin outputDir existingFiles opt_callback).
Proof.
  unfold downloadIfNew. pose proof ext_httpGetFile. respects_steps.
Qed.

Lemma ext_update existingFiles b1 b2 b3 :
  respects ext (update host argv existingFiles b1 b2 b3).
Proof. unfold update. pose proof ext_downloadIfNew. respects_steps. Qed.

Lemma ext_extractAllTo zip targetPath overwrite :
  respects ext (extractAllTo zip targetPath overwrite).
Proof. unfold extractAllTo. respects_steps. Qed.

Lemma ext_run_installer f filename :
  respects ext (run_installer host argv unzip f filename).
Proof.
  unfold run_installer. pose proof ext_extractAllTo. respects_steps.
Qed.

Lemma ext_run_callback cb downloaded :
  respects ext (run_callback host argv unzip cb downloaded).
Proof. unfold run_callback. pose proof ext_run_installer. respects_steps. Qed.

Lemma ext_on_end d : respects ext (on_end host argv unzip d).
Proof. unfold on_end. pose proof ext_run_callback. respects_steps. Qed.

Lemma ext_on_response d statusCode : respects ext (on_response d statusCode).
Proof. unfold on_response. respects_steps. Qed.

Lemma ext_on_error d err : respects ext (on_error d err).
Proof. unfold on_error. respects_steps. Qed.

Lemma ext_on_data d chunk : respects ext (on_data d chunk).
Proof. unfold on_data. respects_steps. Qed.

Lemma ext_set_pending p n w : ext w (set_pending p n w).
Proof. apply (ext_same_dir _ _ []); simpl; by rewrite ?app_nil_r. Qed.

Lemma ext_set_status s w : ext w (set_status s w).
Proof. apply (ext_same_dir _ _ []); simpl; by rewrite ?app_nil_r. Qed.

Lemma ext_step w ev : ext w (step host argv unzip w ev).
Proof.
  unfold step. destruct (status w); try reflexivity.
  destruct ev as [id e|code|chunk|].
  - destruct (pending w !! id) as [d|]; [|reflexivity].
    destruct e.
    + apply ext_on_response.
    + apply ext_on_error.
    + apply ext_on_data.
    + etrans; [apply (ext_set_pending (delete id (pending w)) (next_req w))|].
      apply ext_on_end.
  - destruct (supervising w); [|reflexivity].
    assert (H : respects ext (on_child_exit code))
      by (unfold on_child_exit; respects_steps).
    apply H.
  - destruct (supervising w); [|reflexivity].
    assert (H : respects ext (on_stdin_data chunk))
      by (unfold on_stdin_data; respects_steps).
    apply H.
  - destruct (supervising w); [apply ext_emit|apply ext_set_status].
Qed.

Lemma ext_run_events w evs : ext w (run_events host argv unzip w evs).
Proof.
  revert w. induction evs as [|ev evs IH]; intros w; [reflexivity|].
  rewrite run_events_cons. etrans; [apply ext_step|apply IH].
Qed.

End Extends.

Section Fetch.

Variable host : Host.
Variable argv : Argv.
Variable unzip : string → option (list (string * string)).

Lemma network_snoc t e :
  network (t ++ [e]) = if is_network e then (network t ++ [e])%list else network t.
Proof.
  unfold network. rewrite List.filter_app. simpl.
  destruct (is_network e); [done|]. by rewrite app_nil_r.
Qed.

Lemma readFile_missing p w : dir w !! p.2 = None → readFile p w = None.
Proof. intros H. unfold readFile. by rewrite H. Qed.

Lemma step_response_failed w id d statusCode :
  status w = Running → pending w !! id = Some d → statusCode ≠ 200%Z →
  step host argv unzip w (Net id (Response statusCode)) =
  add_effect (ConsoleError ("Error: Got code " ++ pretty statusCode ++
                            " from " ++ d_url d))
    (add_effect (Unlink (d_filePath d))
       (set_dir (delete (d_filePath d).2 (dir w)) w)).
Proof.
  intros Hst Hp Hc. unfold step. rewrite Hst, Hp. unfold on_response.
  by rewrite bool_decide_eq_true_2.
Qed.

Lemma step_response_ok w id d :
  status w = Running → pending w !! id = Some d →
  step host argv unzip w (Net id (Response 200)) = w.
Proof. intros Hst Hp. unfold step. by rewrite Hst, Hp. Qed.

Lemma step_error w id d err :
  status w = Running → pending w !! id = Some d →
  step host argv unzip w (Net id (Error err)) =
  add_effect (ConsoleError ("Error: Got error " ++ err ++ " from " ++ d_url d))
    (add_effect (Unlink (d_filePath d))
       (set_dir (delete (d_filePath d).2 (dir w)) w)).
Proof. intros Hst Hp. unfold step. by rewrite Hst, Hp. Qed.

Lemma step_data w id d chunk :
  status w = Running → pending w !! id = Some d →
  step host argv unzip w (Net id (Data chunk)) =
  set_inodes (alter (λ f, mkFile (data f ++ chunk) (mode f)) (d_file d) (inodes w)) w.
Proof. intros Hst Hp. unfold step. by rewrite Hst, Hp. Qed.

Lemma step_end w id d :
  status w = Running → pending w !! id = Some d →
  step host argv unzip w (Net id End) =
  world_of (on_end host argv unzip d
              (set_pending (delete id (pending w)) (next_req w) w)).
Proof. intros Hst Hp. unfold step. by rewrite Hst, Hp. Qed.

(** The end of the stream of a request whose destination has no name in the
    directory: the line is printed, and an installer, when there is one,
    throws on opening the archive. *)
Lemma on_end_missing d w :
  dir w !! (d_filePath d).2 = None →
  let w' := world_of (on_end host argv unzip d w) in
  dir w' = dir w ∧ pending w' = pending w ∧
  trace w' = (trace w ++ [ConsoleLog (d_fileName d ++ " downloaded to " ++
                                      path_str (d_filePath d))])%list ∧
  (∀ f, d_callback d = Some (afterDownload (Some f)) →
        status w' = Crashed "Invalid filename").
Proof.
  intros Hd. unfold on_end. rewrite world_of_bind. simpl.
  destruct (d_callback d) as [[[f|]]|]; simpl; [|by split_and!..].
  assert (Hr : ∀ w0 : World, dir w0 = dir w →
               readFile (d_filePath d) w0 = None).
  { intros w0 Hw0. apply readFile_missing. by rewrite Hw0. }
  destruct f; unfold run_installer; rewrite world_of_bind;
    unfold AdmZip; rewrite Hr by done; simpl; by split_and!.
Qed.

(** Once the destination of a request has no name in the directory, the
    further events of that request do not bring it back and send nothing to
    the network. *)
Lemma own_events_keep_absent w id d evs :
  (∀ d', pending w !! id = Some d' → d' = d) →
  dir w !! (d_filePath d).2 = None →
  Forall (of_request id) evs →
  let w' := run_events host argv unzip w evs in
  dir w' !! (d_filePath d).2 = None ∧ network (trace w') = network (trace w).
Proof.
  intros Hp Hd Hevs. revert w Hp Hd.
  induction Hevs as [|ev evs [e ->] _ IH]; intros w Hp Hd; [done|].
  rewrite run_events_cons.
  assert (Hstep : let w1 := step host argv unzip w (Net id e) in
            (∀ d', pending w1 !! id = Some d' → d' = d) ∧
            dir w1 !! (d_filePath d).2 = None ∧
            network (trace w1) = network (trace w)).
  { destruct (decide (status w = Running)) as [Hst|Hst];
      [|by (unfold step; destruct (status w))].
    destruct (pending w !! id) as [d'|] eqn:Hpid;
      [|by (unfold step; rewrite Hst, Hpid; cbv zeta; rewrite Hpid)].
    rewrite (Hp d' eq_refl) in Hpid. cbv zeta.
    assert (Hsame : ∀ d0, pending w !! id = Some d0 → d0 = d)
      by (intros d0; rewrite Hpid; congruence).
    destruct e as [c|err|chunk|].
    - destruct (decide (c = 200%Z)) as [->|Hc].
      + by rewrite (step_response_ok w id d).
      + rewrite (step_response_failed w id d) by done. simpl.
        rewrite !network_snoc. simpl. rewrite lookup_delete_eq. done.
    - rewrite (step_error w id d) by done. simpl.
      rewrite !network_snoc. simpl. rewrite lookup_delete_eq. done.
    - rewrite (step_data w id d) by done. simpl. done.
    - rewrite (step_end w id d) by done.
      destruct (on_end_missing d (set_pending (delete id (pending w)) (next_req w) w))
        as (Hd' & Hp' & Ht' & _); [done|].
      rewrite Hd', Hp', Ht', network_snoc. simpl.
      rewrite lookup_delete_eq. by split_and!. }
  destruct Hstep as (Hp1 & Hd1 & Hn1).
  destruct (IH _ Hp1 Hd1) as (? & ?). split; [done|congruence].
Qed.

(** C5. A response whose status is not 200 makes the fetcher unlink the
    destination and print an error with that status; no request is sent in
    return, and the request stays as it was.  From then on the destination has
    no name in the directory: no later event of this request (more data, an
    error, the end of the stream and the callback it triggers) brings the file
    back or sends anything to the network. *)
Theorem non_200_removes_partial_file w id d statusCode evs :
  status w = Running → pending w !! id = Some d → statusCode ≠ 200%Z →
  Forall (of_request id) evs →
  let w1 := step host argv unzip w (Net id (Response statusCode)) in
  let w2 := run_events host argv unzip w1 evs in
  trace w1 = (trace w ++ [Unlink (d_filePath d);
                          ConsoleError ("Error: Got code " ++ pretty statusCode ++
                                        " from " ++ d_url d)])%list ∧
  pending w1 = pending w ∧
  dir w1 = delete (d_filePath d).2 (dir w) ∧
  dir w1 !! (d_filePath d).2 = None ∧
  dir w2 !! (d_filePath d).2 = None ∧
  network (trace w2) = network (trace w).
Proof.
  intros Hst Hp Hc Hevs w1 w2. subst w2 w1.
  rewrite (step_response_failed w id d) by done.
  set (w1 := add_effect _ _).
  assert (Hd1 : dir w1 !! (d_filePath d).2 = None) by apply lookup_delete_eq.
  destruct (own_events_keep_absent w1 id d evs) as (Hd2 & Hn2); [|done..|].
  { subst w1. simpl. intros d'. rewrite Hp. congruence. }
  split_and!; try done.
  - subst w1. simpl. by rewrite <- app_assoc.
  - rewrite Hn2. subst w1. simpl. by rewrite !network_snoc.
Qed.

(** Data events only fill the inode of the stream. *)
Lemma data_run w id d chunks :
  status w = Running → pending w !! id = Some d →
  let w' := run_events host argv unzip w (map (λ c, Net id (Data c)) chunks) in
  status w' = Running ∧ pending w' = pending w ∧ dir w' = dir w ∧
  trace w' = trace w.
Proof.
  revert w. induction chunks as [|c chunks IH]; intros w Hst Hp; [done|].
  simpl map. rewrite run_events_cons, (step_data w id d) by done.
  destruct (IH (set_inodes (alter (λ f, mkFile (data f ++ c) (mode f)) (d_file d)
                                  (inodes w)) w)) as (? & ? & ? & ?); done.
Qed.

(** C10. The handler of the end of the stream does not look at what came
    before.  Whatever response arrived (any status) or whichever transport
    error was reported, and whatever data followed, the request is still
    registered; at the end of the stream the line that the file was downloaded
    is printed and the callback is run on the destination path.  After a
    failure the destination is gone, so an installer is run on a path with no
    file and its opening of the archive throws. *)
Theorem end_calls_back_after_failure w id d e chunks :
  status w = Running → pending w !! id = Some d →
  (∃ statusCode, e = Response statusCode) ∨ (∃ err, e = Error err) →
  let w1 := run_events host argv unzip w
              (Net id e :: map (λ c, Net id (Data c)) chunks) in
  let w2 := step host argv unzip w1 (Net id End) in
  status w1 = Running ∧ pending w1 !! id = Some d ∧
  w2 = world_of
         ((console_log (d_fileName d ++ " downloaded to " ++ path_str (d_filePath d));;
           match d_callback d with
           | Some cb => run_callback host argv unzip cb (d_filePath d)
           | None => mret ()
           end)
          (set_pending (delete id (pending w1)) (next_req w1) w1)) ∧
  (∃ t, trace w2 = (trace w1 ++
                    ConsoleLog (d_fileName d ++ " downloaded to " ++
                                path_str (d_filePath d)) :: t)%list) ∧
  (∀ f, d_callback d = Some (afterDownload (Some f)) → fails id (Net id e) →
        dir w1 !! (d_filePath d).2 = None ∧
        status w2 = Crashed "Invalid filename").
Proof.
  intros Hst Hp He w1 w2. subst w2 w1. rewrite run_events_cons.
  set (w0 := step host argv unzip w (Net id e)).
  assert (H0 : status w0 = Running ∧ pending w0 = pending w ∧
               (fails id (Net id e) → dir w0 !! (d_filePath d).2 = None)).
  { subst w0. destruct He as [[c ->]|[err ->]].
    - destruct (decide (c = 200%Z)) as [->|Hc].
      + rewrite (step_response_ok w id d) by done.
        split_and!; [done..|]. intros [_ ?]. done.
      + rewrite (step_response_failed w id d) by done. simpl.
        split_and!; [done..|]. intros _. apply lookup_delete_eq.
    - rewrite (step_error w id d) by done. simpl.
      split_and!; [done..|]. intros _. apply lookup_delete_eq. }
  destruct H0 as (Hst0 & Hp0 & Hd0).
  assert (Hp0' : pending w0 !! id = Some d) by (by rewrite Hp0).
  destruct (data_run w0 id d chunks Hst0 Hp0') as (Hst1 & Hp1 & Hd1 & Ht1).
  set (w1 := run_events host argv unzip w0 _) in *.
  assert (Hp1' : pending w1 !! id = Some d) by (by rewrite Hp1).
  rewrite (step_end w1 id d) by done.
  split_and!; [done..| |].
  - unfold on_end. rewrite world_of_bind. simpl.
    set (w1' := add_effect _ _).
    assert (Hcb : ext w1' (world_of
              (match d_callback d with
               | Some cb => run_callback host argv unzip cb (d_filePath d)
               | None => mret ()
               end w1'))).
    { destruct (d_callback d); [apply ext_run_callback|reflexivity]. }
    destruct Hcb as [[t Ht] _]. exists t. rewrite Ht. subst w1'. simpl.
    by rewrite <- app_assoc.
  - intros f Hf Hfail.
    assert (Hgone : dir w1 !! (d_filePath d).2 = None)
      by (rewrite Hd1; auto).
    split; [done|].
    by destruct (on_end_missing d (set_pending (delete id (pending w1)) (next_req w1) w1)
                   Hgone) as (_ & _ & _ & Hcr); apply (Hcr f).
Qed.

End Fetch.

Section Events.

Variable host : Host.
Variable argv : Argv.
Variable unzip : string → option (list (string * string)).

Lemma grows_httpGetFile fileUrl fileName outputDir callback :
  respects grows (httpGetFile host argv fileUrl fileName outputDir callback).
Proof. unfold httpGetFile, console_log. respects_steps. Qed.

Lemma grows_extractAllTo zip targetPath overwrite :
  respects grows (extractAllTo zip targetPath overwrite).
Proof. unfold extractAllTo. respects_steps. Qed.

Lemma grows_run_installer f filename :
  respects grows (run_installer host argv unzip f filename).
Proof.
  unfold run_installer. pose proof grows_extractAllTo. respects_steps.
Qed.

Lemma grows_on_end d : respects grows (on_end host argv unzip d).
Proof.
  unfold on_end, run_callback, console_log. pose proof grows_run_installer.
  respects_steps.
Qed.

Lemma same_pending_extractAllTo zip targetPath overwrite :
  respects same_pending (extractAllTo zip targetPath overwrite).
Proof. unfold extractAllTo. respects_steps. Qed.

Lemma same_pending_run_installer f filename :
  respects same_pending (run_installer host argv unzip f filename).
Proof.
  unfold run_installer. pose proof same_pending_extractAllTo. respects_steps.
Qed.

Lemma same_pending_on_end d : respects same_pending (on_end host argv unzip d).
Proof.
  unfold on_end, run_callback, console_log. pose proof same_pending_run_installer.
  respects_steps.
Qed.

Lemma same_pending_on_response d statusCode :
  respects same_pending (on_response d statusCode).
Proof. unfold on_response, console_error. respects_steps. Qed.

Lemma same_pending_on_error d err : respects same_pending (on_error d err).
Proof. unfold on_error, console_error. respects_steps. Qed.

(** An event that reports no failure takes no name out of the directory. *)
Lemma grows_step w ev : ¬ failure ev → grows w (step host argv unzip w ev).
Proof.
  intros Hev. unfold step. destruct (status w); try reflexivity.
  destruct ev as [id e|code|chunk|].
  - destruct (pending w !! id) as [d|]; [|reflexivity].
    destruct e as [c|err|chunk|].
    + unfold on_response. case_bool_decide as Hc; [|reflexivity].
      destruct Hev. exists id. by split.
    + destruct Hev. by exists id.
    + by apply grows_same_dir.
    + etrans; [|apply grows_on_end]. by apply grows_same_dir.
  - destruct (supervising w); by apply grows_same_dir.
  - destruct (supervising w); by apply grows_same_dir.
  - destruct (supervising w); by apply grows_same_dir.
Qed.

Lemma grows_run_events w evs :
  Forall (λ ev, ¬ failure ev) evs → grows w (run_events host argv unzip w evs).
Proof.
  intros Hevs. revert w. induction Hevs as [|ev evs Hev _ IH]; intros w;
    [reflexivity|].
  rewrite run_events_cons. etrans; [by apply grows_step|apply IH].
Qed.

(** A request stays registered until its own stream ends. *)
Lemma step_keeps_request w ev id :
  ev ≠ Net id End →
  pending (step host argv unzip w ev) !! id = pending w !! id.
Proof.
  intros Hev. unfold step. destruct (status w); try done.
  destruct ev as [id' e|code|chunk|].
  - destruct (pending w !! id') as [d|] eqn:Hd; [|done].
    destruct e as [c|err|chunk|].
    + by rewrite (same_pending_on_response d c w).
    + by rewrite (same_pending_on_error d err w).
    + done.
    + rewrite (same_pending_on_end d _). simpl.
      apply lookup_delete_ne. congruence.
  - by destruct (supervising w).
  - by destruct (supervising w).
  - by destruct (supervising w).
Qed.

Lemma run_keeps_request w evs id :
  Net id End ∉ evs →
  pending (run_events host argv unzip w evs) !! id = pending w !! id.
Proof.
  revert w. induction evs as [|ev evs IH]; intros w Hevs; [done|].
  rewrite run_events_cons, IH by (rewrite not_elem_of_cons in Hevs; tauto).
  apply step_keeps_request. rewrite not_elem_of_cons in Hevs. intros ->. tauto.
Qed.

Lemma not_running_step w ev :
  status w ≠ Running → step host argv unzip w ev = w.
Proof. intros H. unfold step. by destruct (status w). Qed.

Lemma not_running_run w evs :
  status w ≠ Running → run_events host argv unzip w evs = w.
Proof.
  intros H. induction evs as [|ev evs IH]; [done|].
  by rewrite run_events_cons, not_running_step.
Qed.

(** A process that runs after the events ran before them. *)
Lemma running_before w evs :
  status (run_events host argv unzip w evs) = Running → status w = Running.
Proof.
  intros H. destruct (decide (status w = Running)) as [|Hn]; [done|].
  by rewrite not_running_run in H.
Qed.

(** adm-zip's extraction always returns, and leaves the status alone. *)
Lemma extractAllTo_returns zip targetPath overwrite w :
  ∃ w', extractAllTo zip targetPath overwrite w = Ret () w' ∧
        status w' = status w.
Proof.
  unfold extractAllTo. revert w. induction zip as [|entry zip IH]; intros w.
  - by exists w.
  - simpl. rewrite bind_eq.
    assert (H : ∃ w1, writeFileTo (path_join targetPath entry.1) entry.2 overwrite w
                      = Ret () w1 ∧ status w1 = status w).
    { unfold writeFileTo. destruct (dir w !! _); [destruct overwrite|]; eauto. }
    destruct H as (w1 & -> & Hs1). destruct (IH w1) as (w' & -> & Hs').
    exists w'. split; [done|congruence].
Qed.

(** When the chrome callback has run without an exception on a host that is
    not Windows, there is a file named chromedriver. *)
Lemma chromeInstall_leaves_driver filename w :
  os_type host ≠ "Windows_NT" →
  let w' := world_of (run_installer host argv unzip chromeInstall filename w) in
  status w = Running → status w' = Running → present w' "chromedriver".
Proof.
  intros Hos w' Hst Hst'. subst w'. unfold run_installer in *.
  rewrite world_of_bind in *. unfold AdmZip in *.
  destruct (readFile filename w) as [bytes|]; [|done].
  destruct (unzip bytes) as [zip|]; [|done].
  rewrite world_of_bind in *.
  destruct (extractAllTo_returns zip (out_dir argv) true w) as (w1 & Hex & Hs1).
  rewrite Hex in *.
  apply String.eqb_neq in Hos. rewrite Hos in *. simpl in *.
  unfold chmodSync in *. simpl in *. unfold present.
  destruct (dir w1 !! "chromedriver") eqn:Hl; simpl in *; [|done].
  rewrite Hl. eauto.
Qed.

(** Extraction without the overwrite flag changes no file that is already
    there, whatever the archive holds under its name. *)
Lemma extract_keeps_existing zip targetPath w name i :
  dir w !! name = Some i → i < next_ino w →
  let w' := world_of (extractAllTo zip targetPath false w) in
  dir w' !! name = Some i ∧ inodes w' !! i = inodes w !! i.
Proof.
  unfold extractAllTo. revert w.
  induction zip as [|entry zip IH]; intros w Hd Hi; [done|].
  simpl forEach. rewrite world_of_bind.
  destruct (dir w !! entry.1) as [j|] eqn:Hj.
  - assert (writeFileTo (path_join targetPath entry.1) entry.2 false w = Ret () w)
      as -> by (unfold writeFileTo; simpl; by rewrite Hj).
    by apply IH.
  - assert (writeFileTo (path_join targetPath entry.1) entry.2 false w =
            Ret () (add_effect (WriteFile (path_join targetPath entry.1))
                      (set_fs (<[entry.1 := next_ino w]> (dir w))
                              (<[next_ino w := mkFile entry.2 438]> (inodes w))
                              (S (next_ino w)) w)))
      as -> by (unfold writeFileTo; simpl; by rewrite Hj).
    set (w1 := add_effect _ _).
    destruct (IH w1) as [Hd' Hi'].
    + subst w1. simpl. rewrite lookup_insert_ne; [done|]. congruence.
    + subst w1. simpl. lia.
    + split; [done|]. rewrite Hi'. subst w1. simpl.
      apply lookup_insert_ne. lia.
Qed.

Lemma ieInstall_keeps_existing filename w name i :
  dir w !! name = Some i → i < next_ino w →
  let w' := world_of (run_installer host argv unzip ieInstall filename w) in
  dir w' !! name = Some i ∧ inodes w' !! i = inodes w !! i.
Proof.
  intros Hd Hi. unfold run_installer. rewrite world_of_bind. unfold AdmZip.
  destruct (readFile filename w) as [bytes|]; [|done].
  destruct (unzip bytes) as [zip|]; [|done].
  by apply extract_keeps_existing.
Qed.

End Events.

Section Update.

Variable versions : Versions.
Variable host : Host.
Variable argv : Argv.
Variable unzip : string → option (list (string * string)).

Lemma bind_ret_inv {A B} (m : M A) (f : A → M B) w b w' :
  (m ≫= f) w = Ret b w' → ∃ a w1, m w = Ret a w1 ∧ f a w1 = Ret b w'.
Proof. rewrite bind_eq. destruct (m w) as [a w1|]; [eauto|done]. Qed.

Lemma update_stages files b1 b2 b3 :
  update host argv files b1 b2 b3 =
  (stage host argv (arg_standalone argv) b1 files None;;
   stage host argv (arg_chrome argv) b2 files (Some chromeInstall);;
   stage host argv (arg_ie argv) b3 files (Some ieInstall)).
Proof. reflexivity. Qed.

Lemma downloadIfNew_absent bin outputDir files cb :
  bin_exists bin = false →
  downloadIfNew host argv bin outputDir files cb =
  (sweep (bin_prefix bin) outputDir files;;
   console_log ("Updating " ++ bin_name bin);;
   match bin_url bin with
   | None => console_error (bin_name bin ++ " is not available for your system.")
   | Some url => httpGetFile host argv url (bin_filename bin) outputDir
                             (Some (afterDownload cb))
   end).
Proof. intros H. unfold downloadIfNew. by rewrite H. Qed.

(** [httpGetFile] always returns; the destination is then in the directory
    and the request is registered under a fresh number. *)
Lemma httpGetFile_returns fileUrl fileName outputDir callback w :
  ∃ w' file,
    httpGetFile host argv fileUrl fileName outputDir callback w = Ret () w' ∧
    present w' fileName ∧
    pending w' = <[next_req w := mkDownload fileUrl fileName
                                   (path_join outputDir fileName) file callback]>
                 (pending w) ∧
    next_req w' = S (next_req w) ∧ status w' = status w.
Proof.
  unfold httpGetFile.
  cbv [mbind M_bind mret M_ret console_log emit createWriteStream request].
  simpl.
  destruct (dir w !! fileName) as [i|] eqn:Hl;
    destruct (ignore_ssl argv); simpl; eexists _, _;
    (split; [reflexivity|]); unfold present; simpl;
    rewrite ?lookup_insert_eq; eauto.
Qed.

(** A case of the update command leaves in place every file that is not a
    listed file with the prefix of its binary. *)
Lemma stage_keeps flag bin files cb w name :
  present w name →
  name ∉ files ∨ contains name (bin_prefix bin) = false →
  present (world_of (stage host argv flag bin files cb w)) name.
Proof.
  intros Hp Hname. unfold stage. destruct flag; [|done].
  destruct (bin_exists bin) eqn:Hex.
  { by rewrite downloadIfNew_present. }
  rewrite downloadIfNew_absent, world_of_bind by done.
  pose proof (sweep_frame (bin_prefix bin) (out_dir argv) files w name Hname) as Hfr.
  destruct (sweep _ _ _ w) as [u w1|w1]; simpl in Hfr.
  2: { unfold present. by rewrite Hfr. }
  assert (Hs : present w1 name) by (unfold present; by rewrite Hfr).
  clear Hfr. revert Hs. generalize name.
  change (grows w1 (world_of ((console_log ("Updating " ++ bin_name bin);;
            match bin_url bin with
            | None => console_error (bin_name bin ++ " is not available for your system.")
            | Some url => httpGetFile host argv url (bin_filename bin) (out_dir argv)
                                      (Some (afterDownload cb))
            end) w1))).
  revert w1. pose proof (grows_httpGetFile host argv).
  unfold console_log, console_error. respects_steps.
Qed.

(** A case that downloads leaves the expected file in the directory. *)
Lemma stage_creates bin files cb w w' url :
  stage host argv true bin files cb w = Ret () w' →
  bin_exists bin = false → bin_url bin = Some url →
  present w' (bin_filename bin).
Proof.
  intros Hrun Hex Hurl. unfold stage in Hrun.
  rewrite downloadIfNew_absent in Hrun by done.
  apply bind_ret_inv in Hrun as ([] & w1 & _ & Hrun).
  rewrite bind_eq in Hrun. simpl in Hrun. rewrite Hurl in Hrun.
  destruct (httpGetFile_returns url (bin_filename bin) (out_dir argv)
              (Some (afterDownload cb))
              (add_effect (ConsoleLog ("Updating " ++ bin_name bin)) w1))
    as (w'' & file & Hget & Hpres & _).
  rewrite Hget in Hrun. by injection Hrun as <-.
Qed.

Lemma from_scan_ext files w w' : from_scan files w → ext w w' → from_scan files w'.
Proof.
  intros Hw [[t Ht] Hext] name Hp. destruct (Hext name Hp) as [Hp'|Hwr]; [|by right].
  destruct (Hw name Hp') as [?|Hwr]; [by left|right].
  rewrite Ht. by apply written_app.
Qed.

Lemma no_leftover_ext prefix w w' :
  no_leftover prefix w → ext w w' → no_leftover prefix w'.
Proof.
  intros Hw [[t Ht] Hext] name Hp Hc. destruct (Hext name Hp) as [Hp'|Hwr]; [|done].
  rewrite Ht. apply written_app. by apply Hw.
Qed.

(** A case that goes for a download has first removed every file of the scan
    that carries the prefix. *)
Lemma stage_clears bin files cb w w' :
  stage host argv true bin files cb w = Ret () w' →
  bin_exists bin = false → from_scan files w →
  no_leftover (bin_prefix bin) w'.
Proof.
  intros Hrun Hex Hscan. unfold stage in Hrun.
  rewrite downloadIfNew_absent in Hrun by done.
  apply bind_ret_inv in Hrun as ([] & w1 & Hsweep & Hrun).
  assert (Hws : no_leftover (bin_prefix bin) w1).
  { intros name Hp Hc.
    assert (Hext : ext w w1).
    { replace w1 with (world_of (sweep (bin_prefix bin) (out_dir argv) files w))
        by (by rewrite Hsweep). apply ext_sweep. }
    destruct (from_scan_ext files w w1 Hscan Hext name Hp) as [Hin|Hwr]; [|done].
    pose proof (sweep_ret_gone _ _ _ _ _ _ Hsweep Hin Hc) as Hgone.
    unfold present in Hp. rewrite Hgone in Hp. by destruct Hp. }
  apply (no_leftover_ext _ w1); [done|].
  replace w' with (world_of ((console_log ("Updating " ++ bin_name bin);;
            match bin_url bin with
            | None => console_error (bin_name bin ++ " is not available for your system.")
            | Some url => httpGetFile host argv url (bin_filename bin) (out_dir argv)
                                      (Some (afterDownload cb))
            end) w1)) by (by rewrite Hrun).
  clear Hsweep Hrun Hws. revert w1. pose proof (ext_httpGetFile host argv).
  unfold console_log, console_error. respects_steps.
Qed.

Lemma from_scan_boot d i n : from_scan (elements (dom d)) (boot d i n).
Proof.
  intros name Hp. left. by apply elem_of_elements, elem_of_dom.
Qed.

Lemma ext_stage flag bin files cb : respects ext (stage host argv flag bin files cb).
Proof.
  unfold stage. pose proof (ext_downloadIfNew host argv). respects_steps.
Qed.

Lemma ret_world {A} (m : M A) w a w' : m w = Ret a w' → world_of (m w) = w'.
Proof. by intros ->. Qed.

Lemma scanned_absent d b :
  d !! bin_filename (binaries versions host b) = None →
  bin_exists (scanned versions host d b) = false ∧
  bin_filename (binaries versions host b) ∉ elements (dom d).
Proof.
  intros H. split.
  - simpl. apply bool_decide_eq_false_2. rewrite H. by intros [? ?].
  - rewrite elem_of_elements. by apply not_elem_of_dom.
Qed.

(** A case of the update command keeps the requests in flight as described
    by [fetching]. *)
Lemma stage_fetching flag d b w w' :
  stage host argv flag (scanned versions host d b) (elements (dom d))
        (installer_of b) w = Ret () w' →
  fetching versions host (elements (dom d)) w →
  fetching versions host (elements (dom d)) w'.
Proof.
  intros Hrun Hw. unfold stage in Hrun. destruct flag; [|by injection Hrun as <-].
  destruct (bin_exists (scanned versions host d b)) eqn:Hex.
  { rewrite downloadIfNew_present in Hrun by done. by injection Hrun as <-. }
  assert (Habs : bin_filename (binaries versions host b) ∉ elements (dom d)).
  { simpl in Hex. apply bool_decide_eq_false_1 in Hex.
    rewrite elem_of_elements, elem_of_dom. done. }
  rewrite downloadIfNew_absent in Hrun by done.
  apply bind_ret_inv in Hrun as ([] & w1 & Hsweep & Hrun).
  assert (H1 : fetching versions host (elements (dom d)) w1).
  { intros id dl Hdl.
    pose proof (sweep_rest (bin_prefix (scanned versions host d b)) (out_dir argv)
                  (elements (dom d)) w) as (_ & _ & Hp & _).
    rewrite Hsweep in Hp. simpl in Hp. rewrite Hp in Hdl.
    destruct (Hw id dl Hdl) as (Hpres & Hnin & Hb). split_and!; [|done..].
    pose proof (sweep_frame (bin_prefix (scanned versions host d b)) (out_dir argv)
                  (elements (dom d)) w (d_fileName dl) (or_introl Hnin)) as Hfr.
    rewrite Hsweep in Hfr. simpl in Hfr. unfold present. by rewrite Hfr. }
  apply bind_ret_inv in Hrun as ([] & w2 & Hlog & Hrun).
  assert (H2 : fetching versions host (elements (dom d)) w2).
  { injection Hlog as <-. exact H1. }
  destruct (bin_url (scanned versions host d b)) as [url|].
  2: { injection Hrun as <-. exact H2. }
  destruct (httpGetFile_returns url (bin_filename (scanned versions host d b))
              (out_dir argv) (Some (afterDownload (installer_of b))) w2)
    as (w3 & file & Hget & Hpres & Hpend & _).
  rewrite Hget in Hrun. injection Hrun as <-.
  intros id dl Hdl. rewrite Hpend in Hdl.
  destruct (decide (next_req w2 = id)) as [<-|Hne].
  - rewrite lookup_insert_eq in Hdl. injection Hdl as <-. simpl.
    split_and!; [done..|]. by exists b.
  - rewrite lookup_insert_ne in Hdl by done.
    destruct (H2 id dl Hdl) as (Hp & Hnin & Hb). split_and!; [|done..].
    pose proof (grows_httpGetFile host argv url
                  (bin_filename (scanned versions host d b)) (out_dir argv)
                  (Some (afterDownload (installer_of b))) w2) as Hg.
    rewrite Hget in Hg. by apply Hg.
Qed.

(** What the update command has done when it returns: for a selected binary
    that the scan did not find, no file with its prefix is left over, and with
    a URL its expected file has been created; the requests in flight are as
    [fetching] says; a selected binary that the scan found is still there when
    no other prefix occurs in its name. *)
Lemma update_returns d i n w1 :
  update host argv (elements (dom d)) (scanned versions host d standalone)
         (scanned versions host d chrome) (scanned versions host d ie)
         (boot d i n) = Ret () w1 →
  fetching versions host (elements (dom d)) w1 ∧
  ∀ b, selected argv b = true →
    (d !! bin_filename (binaries versions host b) = None →
       no_leftover (bin_prefix (binaries versions host b)) w1 ∧
       (is_Some (bin_url (binaries versions host b)) →
        present w1 (bin_filename (binaries versions host b)))) ∧
    (is_Some (d !! bin_filename (binaries versions host b)) →
       distinct_prefixes versions host →
       present w1 (bin_filename (binaries versions host b))).
Proof.
  rewrite update_stages. intros Hrun.
  apply bind_ret_inv in Hrun as ([] & wa & Ha & Hrun).
  apply bind_ret_inv in Hrun as ([] & wb & Hb & Hc).
  set (files := elements (dom d)) in *.
  pose proof (from_scan_boot d i n) as Hs0. fold files in Hs0.
  assert (Hea : ext (boot d i n) wa).
  { rewrite <- (ret_world _ _ _ _ Ha). apply ext_stage. }
  assert (Heb : ext wa wb).
  { rewrite <- (ret_world _ _ _ _ Hb). apply ext_stage. }
  assert (Hec : ext wb w1).
  { rewrite <- (ret_world _ _ _ _ Hc). apply ext_stage. }
  assert (Hsa : from_scan files wa) by (by eapply from_scan_ext).
  assert (Hsb : from_scan files wb) by (by eapply from_scan_ext).
  split.
  { eapply (stage_fetching _ d ie); [exact Hc|].
    eapply (stage_fetching _ d chrome); [exact Hb|].
    eapply (stage_fetching _ d standalone); [exact Ha|].
    intros id dl Hdl. simpl in Hdl. by rewrite lookup_empty in Hdl. }
  assert (Hka : ∀ name b', present (boot d i n) name →
            name ∉ files ∨ contains name (bin_prefix (binaries versions host b')) = false →
            ∀ flag cb w w', stage host argv flag (scanned versions host d b') files cb w
                            = Ret () w' → present w name → present w' name).
  { intros name b' _ Hname flag cb w w' Hst Hp.
    rewrite <- (ret_world _ _ _ _ Hst). by apply stage_keeps. }
  assert (Hkeep : ∀ name b', name ∉ files ∨
              contains name (bin_prefix (binaries versions host b')) = false →
            ∀ flag cb w w', stage host argv flag (scanned versions host d b') files cb w
                            = Ret () w' → present w name → present w' name).
  { intros name b' Hname flag cb w w' Hst Hp.
    rewrite <- (ret_world _ _ _ _ Hst). by apply stage_keeps. }
  clear Hka.
  intros b Hsel. split.
  - intros Habs. destruct (scanned_absent d b Habs) as [Hex Hnin]. fold files in Hnin.
    destruct b; simpl in Hsel; rewrite Hsel in *.
    + split.
      * eapply no_leftover_ext; [|exact Hec]. eapply no_leftover_ext; [|exact Heb].
        by eapply (stage_clears (scanned versions host d standalone)); [exact Ha|..].
      * intros [url Hurl].
        eapply (Hkeep _ ie); [by left|exact Hc|].
        eapply (Hkeep _ chrome); [by left|exact Hb|].
        by eapply (stage_creates (scanned versions host d standalone)); [exact Ha|..].
    + split.
      * eapply no_leftover_ext; [|exact Hec].
        by eapply (stage_clears (scanned versions host d chrome)); [exact Hb|..].
      * intros [url Hurl].
        eapply (Hkeep _ ie); [by left|exact Hc|].
        by eapply (stage_creates (scanned versions host d chrome)); [exact Hb|..].
    + split.
      * by eapply (stage_clears (scanned versions host d ie)); [exact Hc|..].
      * intros [url Hurl]. by eapply (stage_creates (scanned versions host d ie)); [exact Hc|..].
  - intros Hpres Hdist.
    assert (Hex : bin_exists (scanned versions host d b) = true)
      by (simpl; by apply bool_decide_eq_true_2).
    assert (Hother : ∀ b', b' ≠ b →
              contains (bin_filename (binaries versions host b))
                       (bin_prefix (binaries versions host b')) = false).
    { intros b' Hne. apply not_true_is_false. intros Hc'.
      by apply Hne, eq_sym, Hdist. }
    assert (Hown : ∀ flag cb w w',
              stage host argv flag (scanned versions host d b) files cb w = Ret () w' →
              present w (bin_filename (binaries versions host b)) →
              present w' (bin_filename (binaries versions host b))).
    { intros flag cb w w' Hst Hp. unfold stage in Hst. destruct flag.
      - rewrite downloadIfNew_present in Hst by done. by injection Hst as <-.
      - by injection Hst as <-. }
    assert (H0 : present (boot d i n) (bin_filename (binaries versions host b)))
      by exact Hpres.
    destruct b.
    + eapply (Hkeep _ ie); [right; by apply Hother|exact Hc|].
      eapply (Hkeep _ chrome); [right; by apply Hother|exact Hb|].
      by eapply Hown.
    + eapply (Hkeep _ ie); [right; by apply Hother|exact Hc|].
      eapply Hown; [exact Hb|].
      by eapply (Hkeep _ standalone); [right; by apply Hother|exact Ha|].
    + eapply Hown; [exact Hc|].
      eapply (Hkeep _ chrome); [right; by apply Hother|exact Hb|].
      by eapply (Hkeep _ standalone); [right; by apply Hother|exact Ha|].
Qed.



(** The resolver of the IE driver has no URL off Windows, the one of
    chromedriver none off Darwin, Linux and Windows. *)
Lemma ie_unavailable_off_windows :
  os_type host ≠ "Windows_NT" → bin_url (binaries versions host ie) = None.
Proof.
  intros H. simpl. unfold ie_url. apply String.eqb_neq in H. by rewrite H.
Qed.

(** The write streams of an update are on expected files. *)
Lemma update_opens d i n w1 evs p :
  update host argv (elements (dom d)) (scanned versions host d standalone)
         (scanned versions host d chrome) (scanned versions host d ie)
         (boot d i n) = Ret () w1 →
  CreateFile p ∈ trace (run_events host argv unzip w1 evs) →
  ∃ b, p.2 = bin_filename (binaries versions host b).
Proof.
  rewrite update_stages. intros Hrun Hp.
  apply bind_ret_inv in Hrun as ([] & wa & Ha & Hrun).
  apply bind_ret_inv in Hrun as ([] & wb & Hb & Hc).
  set (P := λ name, ∃ b, name = bin_filename (binaries versions host b)).
  assert (Hall : opens P (boot d i n) (run_events host argv unzip w1 evs)).
  { etrans; [|apply opens_run_events].
    etrans; [|rewrite <- (ret_world _ _ _ _ Hc); apply opens_stage; by exists ie].
    etrans; [|rewrite <- (ret_world _ _ _ _ Hb); apply opens_stage; by exists chrome].
    rewrite <- (ret_world _ _ _ _ Ha). apply opens_stage. by exists standalone. }
  destruct (Hall p Hp) as [Hin|HP]; [|done].
  simpl in Hin. by apply elem_of_nil in Hin.
Qed.

(** After an update that returned and whose fetches did not fail, the
    expected file of every selected binary is in the directory, when the scan
    found it or the binary has a URL on this host. *)
Lemma update_leaves_expected d i n evs w1 b :
  arg_command argv = "update" →
  distinct_prefixes versions host →
  main versions host argv (boot d i n) = Ret () w1 →
  Forall (λ ev, ¬ failure ev) evs →
  selected argv b = true →
  is_Some (d !! bin_filename (binaries versions host b)) ∨
  is_Some (bin_url (binaries versions host b)) →
  present (run_events host argv unzip w1 evs)
          (bin_filename (binaries versions host b)).
Proof.
  intros Hcmd Hdist Hmain Hevs Hsel Hor.
  rewrite main_update in Hmain by done.
  destruct (update_returns d i n w1 Hmain) as [_ Hb].
  apply (grows_run_events host argv unzip w1 evs Hevs).
  destruct (Hb b Hsel) as [Habs Hpres].
  destruct (d !! bin_filename (binaries versions host b)) eqn:Hl.
  - apply Hpres; [by eauto|done].
  - destruct Hor as [[? ?]|Hurl]; [done|]. by apply Habs.
Qed.

(** C1. A binary whose expected file exists is left alone: [downloadIfNew]
    only prints that it is up to date, whatever the listing holds and whatever
    its URL would be: nothing is unlinked, nothing is requested.  So an update
    that finds the expected file of every selected binary prints one such
    line per selected binary, sends nothing to the network, and leaves the
    directory and the contents of its files as they were, whatever events
    follow.  That is the case of an update run straight after a successful
    one: when the first update returned, none of its fetches failed, and every
    selected binary was there or has a URL, the second run, started on the
    files the first one left, changes no file and sends nothing. *)
Theorem present_short_circuits :
  (∀ bin outputDir existingFiles opt_callback w,
     bin_exists bin = true →
     downloadIfNew host argv bin outputDir existingFiles opt_callback w =
     Ret () (add_effect (ConsoleLog (bin_name bin ++ " is up to date.")) w)) ∧
  (∀ d i n evs,
     arg_command argv = "update" →
     (∀ b, selected argv b = true →
           is_Some (d !! bin_filename (binaries versions host b))) →
     let w := run versions host argv unzip d i n evs in
     dir w = d ∧ inodes w = i ∧ pending w = ∅ ∧
     trace w = map (λ b, ConsoleLog (bin_name (binaries versions host b) ++
                                     " is up to date."))
                   (List.filter (selected argv) [standalone; chrome; ie]) ∧
     (∀ e, e ∈ trace w → is_network e = false)) ∧
  (∀ d i n evs w1 evs',
     arg_command argv = "update" →
     distinct_prefixes versions host →
     main versions host argv (boot d i n) = Ret () w1 →
     Forall (λ ev, ¬ failure ev) evs →
     (∀ b, selected argv b = true →
           is_Some (d !! bin_filename (binaries versions host b)) ∨
           is_Some (bin_url (binaries versions host b))) →
     let w2 := run_events host argv unzip w1 evs in
     let w3 := run versions host argv unzip (dir w2) (inodes w2) (next_ino w2) evs' in
     dir w3 = dir w2 ∧ inodes w3 = inodes w2 ∧ pending w3 = ∅ ∧
     (∀ e, e ∈ trace w3 → is_network e = false)).
Proof.
  split_and!.
  - apply downloadIfNew_present.
  - apply update_when_current.
  - intros d i n evs w1 evs' Hcmd Hdist Hmain Hevs Hsel w2 w3.
    destruct (update_when_current versions host argv unzip (dir w2) (inodes w2)
                (next_ino w2) evs' Hcmd) as (Hd & Hi & Hp & _ & Hn).
    { intros b Hb. apply (update_leaves_expected d i n); auto. }
    by split_and!.
Qed.

(** C2, amended. For a binary that is not there, [downloadIfNew] begins
    with the loop over the listing of the scan: every listed file whose name
    contains the prefix is unlinked (all of them, when they are all still
    there), and only then the URL is looked at and the request is made.  After
    an update that returned, whatever events follow, a file whose name
    contains the prefix of a selected binary that the scan did not find is
    the expected file of that binary or an entry extracted from an archive in
    this run (no expected filename carrying the prefix of another binary):
    nothing else with the prefix is left.  When the binary has a URL and no
    fetch failed, the expected file of the configured version is there. *)
Theorem stale_files_replaced :
  (∀ bin outputDir files opt_callback w,
     bin_exists bin = false → NoDup files →
     (∀ f, f ∈ files → contains f (bin_prefix bin) = true → present w f) →
     ∃ w1, sweep (bin_prefix bin) outputDir files w = Ret () w1 ∧
           (∀ f, f ∈ files → contains f (bin_prefix bin) = true →
                 dir w1 !! f = None) ∧
           trace w1 = (trace w ++ map (λ f, Unlink (path_join outputDir f))
                                      (stale (bin_prefix bin) files))%list ∧
           pending w1 = pending w ∧
           downloadIfNew host argv bin outputDir files opt_callback w =
           (console_log ("Updating " ++ bin_name bin);;
            match bin_url bin with
            | None => console_error (bin_name bin ++ " is not available for your system.")
            | Some url => httpGetFile host argv url (bin_filename bin) outputDir
                                      (Some (afterDownload opt_callback))
            end) w1) ∧
  (∀ d i n evs b w1,
     arg_command argv = "update" →
     distinct_prefixes versions host →
     selected argv b = true →
     d !! bin_filename (binaries versions host b) = None →
     main versions host argv (boot d i n) = Ret () w1 →
     let w2 := run_events host argv unzip w1 evs in
     (∀ name, present w2 name →
              contains name (bin_prefix (binaries versions host b)) = true →
              name = bin_filename (binaries versions host b) ∨
              extracted (trace w2) name) ∧
     (is_Some (bin_url (binaries versions host b)) →
      Forall (λ ev, ¬ failure ev) evs →
      present w2 (bin_filename (binaries versions host b)))).
Proof.
  split.
  - intros bin outputDir files cb w Hex Hnd Hall.
    destruct (sweep_ok (bin_prefix bin) outputDir files w Hnd Hall)
      as (w1 & Hsweep & Hdir & _ & _ & Hpend & _ & _ & _ & Ht).
    exists w1. split_and!; try done.
    + intros f Hf Hc. rewrite Hdir. rewrite decide_True; [done|].
      unfold stale. apply list_elem_of_In, List.filter_In. split; [|done].
      by apply list_elem_of_In.
    + rewrite downloadIfNew_absent by done. by rewrite bind_eq, Hsweep.
  - intros d i n evs b w1 Hcmd Hdist Hsel Habs Hmain w2. subst w2.
    rewrite main_update in Hmain by done.
    destruct (update_returns d i n w1 Hmain) as [_ Hb].
    destruct (Hb b Hsel) as [Hb1 _]. destruct (Hb1 Habs) as [Hclean Hnew].
    split.
    + intros name Hp Hc.
      assert (Hleft : no_leftover (bin_prefix (binaries versions host b))
                        (run_events host argv unzip w1 evs)).
      { eapply no_leftover_ext; [exact Hclean|apply ext_run_events]. }
      destruct (Hleft name Hp Hc) as [dn [Hcr|Hwr]]; [left|right; by exists dn].
      destruct (update_opens d i n w1 evs (dn, name) Hmain Hcr) as [b' Hb'].
      simpl in Hb'. rewrite Hb' in Hc |- *. by rewrite (Hdist b' b Hc).
    + intros Hurl Hevs. by apply (grows_run_events host argv unzip w1 evs Hevs), Hnew.
Qed.

End Update.

Section Supervise.

Variable versions : Versions.
Variable host : Host.
Variable argv : Argv.
Variable unzip : string → option (list (string * string)).

(** A process that has ended handles no event. *)
Lemma ended_run w evs :
  status w ≠ Running → run_events host argv unzip w evs = w.
Proof.
  intros H. induction evs as [|ev evs IH]; simpl; [done|].
  replace (step host argv unzip w ev) with w; [done|].
  unfold step. by destruct (status w).
Qed.

Lemma main_start d i n :
  arg_command argv = "start" →
  main versions host argv (boot d i n) =
  start host argv (scanned versions host d standalone)
        (scanned versions host d chrome) (scanned versions host d ie)
        (boot d i n).
Proof. intros H. unfold main. rewrite H. reflexivity. Qed.

(** With the server file in place [start] spawns the child, prints its pid
    and registers the handlers. *)
Lemma start_spawns d i n :
  arg_command argv = "start" →
  is_Some (d !! bin_filename (binaries versions host standalone)) →
  let w := world_of (main versions host argv (boot d i n)) in
  status w = Running ∧ supervising w = true ∧ pending w = ∅ ∧
  ∃ command args,
    trace w = [Spawn command args;
               ConsoleLog ("seleniumProcess.pid: " ++ pretty (child_pid host))].
Proof.
  intros Hcmd Hjar w. subst w. rewrite main_start by done.
  unfold start. rewrite bind_eq.
  change (bin_exists (scanned versions host d standalone))
    with (bool_decide (is_Some (d !! bin_filename (binaries versions host standalone)))).
  rewrite bool_decide_eq_true_2 by done. simpl.
  split_and!; try done. eauto.
Qed.

(** While the child runs, every event that is not its exit leaves the
    supervisor running with its handlers in place. *)
Lemma supervisor_waits w evs :
  status w = Running → supervising w = true → pending w = ∅ →
  Forall (λ ev, ¬ is_child_exit ev) evs →
  let w' := run_events host argv unzip w evs in
  status w' = Running ∧ supervising w' = true ∧ pending w' = ∅.
Proof.
  intros Hst Hsup Hp Hevs. revert w Hst Hsup Hp.
  induction Hevs as [|ev evs Hev _ IH]; intros w Hst Hsup Hp; simpl; [done|].
  apply IH; unfold step; rewrite Hst;
    destruct ev as [id e| | |]; simpl in *; try done;
    rewrite ?Hp, ?lookup_empty, ?Hsup; done.
Qed.

Lemma child_exit_step w code :
  status w = Running → supervising w = true →
  step host argv unzip w (ChildExit code) =
  set_status (Exited (default 0%Z code))
    (add_effect (ConsoleLog ("Selenium Standalone has exited with code " ++
                             show_code code)) w).
Proof. intros Hst Hsup. unfold step. by rewrite Hst, Hsup. Qed.

Lemma first_child_exit evs :
  Forall (λ ev, ¬ is_child_exit ev) evs ∨
  ∃ evs1 code evs2, evs = (evs1 ++ ChildExit code :: evs2)%list ∧
                    Forall (λ ev, ¬ is_child_exit ev) evs1.
Proof.
  induction evs as [|ev evs IH]; [by left|].
  destruct ev as [id e|code|chunk|].
  2: { right. exists [], code, evs. by split. }
  all: destruct IH as [IH|(evs1 & code & evs2 & -> & IH)];
    [ left; constructor; [simpl; tauto|done]
    | right; eexists (_ :: evs1), code, evs2; split; [reflexivity|];
      constructor; [simpl; tauto|done] ].
Qed.

(** C3. When the child exits with code [c] the supervisor prints that code
    and ends its own process with exactly [c]: after a start that found the
    server file, and any events that are not the child's exit, the exit event
    with code [c] adds the line with [c] to the output and sets the exit
    status to [c]; what is delivered later changes nothing. *)
Theorem child_exit_code_propagates d i n evs c evs' :
  arg_command argv = "start" →
  is_Some (d !! bin_filename (binaries versions host standalone)) →
  Forall (λ ev, ¬ is_child_exit ev) evs →
  let w := run versions host argv unzip d i n evs in
  let w' := run versions host argv unzip d i n (evs ++ ChildExit (Some c) :: evs') in
  status w = Running ∧
  status w' = Exited c ∧
  trace w' = (trace w ++ [ConsoleLog ("Selenium Standalone has exited with code " ++
                                      pretty c)])%list.
Proof.
  intros Hcmd Hjar Hevs w w'. subst w w'. unfold run.
  destruct (start_spawns d i n Hcmd Hjar) as (Hst & Hsup & Hp & _).
  set (w1 := world_of (main versions host argv (boot d i n))) in *.
  destruct (supervisor_waits w1 evs Hst Hsup Hp Hevs) as (Hst' & Hsup' & _).
  rewrite run_events_app, run_events_cons, child_exit_step by done.
  rewrite (ended_run (set_status _ _)) by (simpl; congruence). done.
Qed.

(** C4. A start that does not find the expected file of the server prints
    that it is missing and ends the process with status 1 before anything is
    spawned: the trace holds the error line alone, no handler is registered,
    and no later event adds to it. *)
Theorem start_without_server_aborts d i n evs :
  arg_command argv = "start" →
  d !! bin_filename (binaries versions host standalone) = None →
  let w := run versions host argv unzip d i n evs in
  status w = Exited 1 ∧
  trace w = [ConsoleError ("Selenium Standalone is not present. Install with " ++
                           "webdriver-manager update --standalone")] ∧
  supervising w = false ∧
  (∀ command args, Spawn command args ∉ trace w).
Proof.
  intros Hcmd Hjar w. subst w. unfold run.
  assert (H1 : world_of (main versions host argv (boot d i n)) =
               set_status (Exited 1)
                 (add_effect (ConsoleError ("Selenium Standalone is not present. Install with " ++
                                            "webdriver-manager update --standalone"))
                             (boot d i n))).
  { rewrite main_start by done. unfold start. rewrite bind_eq.
    change (bin_exists (scanned versions host d standalone))
      with (bool_decide (is_Some (d !! bin_filename (binaries versions host standalone)))).
    rewrite bool_decide_eq_false_2; [reflexivity|].
    rewrite Hjar. by intros [? ?]. }
  rewrite H1, ended_run by (simpl; congruence). simpl.
  split_and!; try done.
  intros command args Hin. apply list_elem_of_singleton in Hin. discriminate.
Qed.

End Supervise.

(** ** A binary without a URL, within the pass *)

Section Unavailable.

Variable versions : Versions.
Variable host : Host.
Variable argv : Argv.



Lemma stage_deselect b flag bin files cb :
  stage host (deselect b argv) flag bin files cb = stage host argv flag bin files cb.
Proof. reflexivity. Qed.



Lemma skipped_refl_on prefix files w :
  (∀ f, f ∈ stale prefix files → dir w !! f = None) → skipped prefix files w w.
Proof.
  intros H. unfold skipped. split_and!; try done.
  intros name. case_decide; [by apply H|done].
Qed.


End Unavailable.

(** ** What an install callback leaves *)

Section Extracted.

Variable versions : Versions.
Variable host : Host.
Variable argv : Argv.
Variable unzip : string → option (list (string * string)).

(** An entry adm-zip has come to is in the directory. *)
Lemma writeFileTo_presents p content overwrite w :
  present (world_of (writeFileTo p content overwrite w)) p.2.
Proof.
  unfold writeFileTo, present. destruct (dir w !! p.2) as [j|] eqn:Hl.
  - destruct overwrite; simpl; rewrite Hl; eauto.
  - simpl. rewrite lookup_insert_eq. eauto.
Qed.

(** After an extraction every entry of the archive is in the directory. *)
Lemma extractAllTo_presents zip targetPath overwrite w entry :
  entry ∈ zip →
  present (world_of (extractAllTo zip targetPath overwrite w)) entry.1.
Proof.
  unfold extractAllTo. revert w. induction zip as [|e zip IH]; intros w Hin.
  { by apply elem_of_nil in Hin. }
  simpl forEach. rewrite world_of_bind.
  pose proof (writeFileTo_presents (path_join targetPath e.1) e.2 overwrite w) as Hp.
  destruct (writeFileTo (path_join targetPath e.1) e.2 overwrite w) as [u w1|w1] eqn:Hw.
  2: { unfold writeFileTo in Hw. by repeat case_match. }
  simpl in Hp. apply elem_of_cons in Hin as [->|Hin]; [|by apply IH].
  by apply (grows_extractAllTo zip targetPath overwrite w1).
Qed.

(** A callback that has run without an exception has decoded the archive,
    and every entry of the archive is in the directory. *)
Lemma installer_extracts f filename w :
  status w = Running →
  status (world_of (run_installer host argv unzip f filename w)) = Running →
  ∃ bytes zip, readFile filename w = Some bytes ∧ unzip bytes = Some zip ∧
    ∀ entry, entry ∈ zip →
      present (world_of (run_installer host argv unzip f filename w)) entry.1.
Proof.
  intros Hst Hst'.
  assert (Hzip : ∃ bytes zip, readFile filename w = Some bytes ∧
                              unzip bytes = Some zip ∧
                              AdmZip unzip filename w = Ret zip w).
  { destruct (readFile filename w) as [bytes|] eqn:Hr.
    - destruct (unzip bytes) as [zip|] eqn:Hz.
      + exists bytes, zip. split_and!; [done..|]. unfold AdmZip. by rewrite Hr, Hz.
      + exfalso. revert Hst'. unfold run_installer.
        destruct f; rewrite world_of_bind; unfold AdmZip; rewrite Hr, Hz; done.
    - exfalso. revert Hst'. unfold run_installer.
      destruct f; rewrite world_of_bind; unfold AdmZip; rewrite Hr; done. }
  destruct Hzip as (bytes & zip & Hr & Hz & Hopen).
  exists bytes, zip. split; [done|]. split; [done|]. intros entry Hin.
  pose proof (extractAllTo_presents zip (out_dir argv)) as Hp.
  unfold run_installer. destruct f; rewrite world_of_bind, Hopen; simpl world_of.
  - rewrite world_of_bind. specialize (Hp true w entry Hin).
    destruct (extractAllTo zip (out_dir argv) true w) as [u w3|w3]; [|done].
    simpl in Hp |- *.
    destruct (negb (String.eqb (os_type host) "Windows_NT")); [|done].
    by apply (grows_chmodSync (path_join (out_dir argv) "chromedriver") 493 w3).
  - by apply Hp.
Qed.

(** C8, amended. After an update that returned and whose fetches did not
    fail, the directory holds the expected file of every selected binary that
    the scan found or that has a URL on this host (no expected filename
    carrying the prefix of another binary).  It holds more than one file for
    a binary that comes as an archive: when the stream of the download of such
    a binary has ended and the process still runs, the callback has decoded
    what the file held at that moment, the archive is still there under its
    expected name, and every entry of the archive is in the directory next to
    it. *)
Theorem expected_files_after_update d i n evs w1 :
  arg_command argv = "update" →
  distinct_prefixes versions host →
  main versions host argv (boot d i n) = Ret () w1 →
  Forall (λ ev, ¬ failure ev) evs →
  let w2 := run_events host argv unzip w1 evs in
  (∀ b, selected argv b = true →
        is_Some (d !! bin_filename (binaries versions host b)) ∨
        is_Some (bin_url (binaries versions host b)) →
        present w2 (bin_filename (binaries versions host b))) ∧
  (∀ id dl f, pending w1 !! id = Some dl →
        d_callback dl = Some (afterDownload (Some f)) →
        Net id End ∈ evs → status w2 = Running →
        ∃ b evs1 evs2 bytes zip,
          installer_of b = Some f ∧
          d_fileName dl = bin_filename (binaries versions host b) ∧
          evs = (evs1 ++ Net id End :: evs2)%list ∧ (Net id End ∉ evs1) ∧
          readFile (d_filePath dl) (run_events host argv unzip w1 evs1) = Some bytes ∧
          unzip bytes = Some zip ∧
          present w2 (bin_filename (binaries versions host b)) ∧
          ∀ entry, entry ∈ zip → present w2 entry.1).
Proof.
  intros Hcmd Hdist Hmain Hevs w2. subst w2.
  pose proof Hmain as Hmain'.
  rewrite main_update in Hmain by done.
  destruct (update_returns versions host argv d i n w1 Hmain) as [Hfetch Hb].
  pose proof (grows_run_events host argv unzip w1 evs Hevs) as Hgrow.
  split.
  - intros b Hsel Hor. by apply (update_leaves_expected versions host argv unzip d i n).
  - intros id dl f Hdl Hcb Hend Hst.
    destruct (Hfetch id dl Hdl) as (Hpres & _ & b & Hname & Hcb').
    assert (Hf : installer_of b = Some f) by congruence.
    apply list_elem_of_split_l in Hend as (evs1 & evs2 & -> & Hnin).
    apply Forall_app in Hevs as [_ Hevs2]. apply Forall_cons in Hevs2 as [_ Hevs2].
    rewrite run_events_app, run_events_cons in Hst |- *.
    set (we := run_events host argv unzip w1 evs1) in *.
    set (wf := step host argv unzip we (Net id End)) in *.
    assert (Hstf : status wf = Running) by (by eapply running_before).
    assert (Hste : status we = Running).
    { destruct (decide (status we = Running)) as [|Hn]; [done|].
      subst wf. by rewrite not_running_step in Hstf. }
    assert (Hpe : pending we !! id = Some dl).
    { subst we. by rewrite run_keeps_request. }
    assert (Hwf : wf = world_of (run_installer host argv unzip f (d_filePath dl)
                       (add_effect (ConsoleLog (d_fileName dl ++ " downloaded to " ++
                                                path_str (d_filePath dl)))
                          (set_pending (delete id (pending we)) (next_req we) we)))).
    { subst wf. rewrite (step_end host argv unzip we id dl) by done.
      unfold on_end. rewrite world_of_bind. simpl. by rewrite Hcb. }
    rewrite Hwf in Hstf.
    destruct (installer_extracts f (d_filePath dl)
                (add_effect _ (set_pending _ _ we)) Hste Hstf)
      as (bytes & zip & Hread & Hzip & Hentries).
    rewrite <- Hwf in Hentries.
    exists b, evs1, evs2, bytes, zip.
    split_and!; [done|done|done|done|exact Hread|done| |].
    + pose proof (Hgrow _ Hpres) as Hp.
      rewrite run_events_app, run_events_cons, Hname in Hp. exact Hp.
    + intros entry Hin.
      apply (grows_run_events host argv unzip wf evs2 Hevs2). by apply Hentries.
Qed.

End Extracted.

(** ** The whole event loop *)

Section Session.

Variable versions : Versions.
Variable host : Host.
Variable argv : Argv.
Variable unzip : string → option (list (string * string)).

Lemma session_from_cons w inp inputs :
  session_from host argv unzip w (inp :: inputs) =
  session_from host argv unzip (settle (deliver host argv unzip w inp)) inputs.
Proof. reflexivity. Qed.

Lemma session_from_app w inputs inputs' :
  session_from host argv unzip w (inputs ++ inputs') =
  session_from host argv unzip (session_from host argv unzip w inputs) inputs'.
Proof. apply fold_left_app. Qed.

Lemma settle_ended w : status w ≠ Running → settle w = w.
Proof. intros H. unfold settle. by destruct (status w). Qed.

Lemma settle_supervising w : supervising w = true → settle w = w.
Proof.
  intros H. unfold settle. rewrite H, andb_false_r. by destruct (status w).
Qed.

Lemma deliver_ended w inp :
  status w ≠ Running → deliver host argv unzip w inp = w.
Proof.
  intros H. destruct inp; simpl.
  - by apply not_running_step.
  - by destruct (status w).
  - by destruct (status w).
  - by destruct (status w).
Qed.

(** A process that has ended takes no input. *)
Lemma session_ended w inputs :
  status w ≠ Running → session_from host argv unzip w inputs = w.
Proof.
  intros H. induction inputs as [|inp inputs IH]; [done|].
  by rewrite session_from_cons, deliver_ended, settle_ended.
Qed.






(** A start that found the server file leaves the supervisor waiting. *)
Lemma start_waits d i n :
  arg_command argv = "start" →
  is_Some (d !! bin_filename (binaries versions host standalone)) →
  waiting (world_of (main versions host argv (boot d i n))) ∧
  settle (world_of (main versions host argv (boot d i n))) =
  world_of (main versions host argv (boot d i n)).
Proof.
  intros Hcmd Hjar.
  destruct (start_spawns versions host argv d i n Hcmd Hjar) as (Hst & Hsup & Hp & _).
  split; [done|]. by apply settle_supervising.
Qed.


End Session.

Section Refines.

Variable versions : Versions.
Variable host : Host.
Variable argv : Argv.
Variable unzip : string → option (list (string * string)).

Lemma settle_cases w :
  settle w = w ∨
  (status w = Running ∧ pending w = ∅ ∧ supervising w = false ∧
   settle w = set_status (Exited 0) w).
Proof.
  unfold settle. destruct (status w) eqn:Hst; try by left.
  case_bool_decide as Hp; simpl; [|by left].
  destruct (supervising w) eqn:Hs; simpl; [by left|right; done].
Qed.

(** The loop with its natural end against the handlers alone: on events that
    have a handler the two agree until nothing is left to wait for; from then
    on the process has ended with status 0, where the handlers alone would
    sit idle, with the same files, requests and output. *)
Lemma session_from_events w evs :
  let s := session_from host argv unzip (settle w) (map Handled evs) in
  let r := run_events host argv unzip w evs in
  s = r ∨
  (status s = Exited 0 ∧ dir s = dir r ∧ inodes s = inodes r ∧
   trace s = trace r ∧ pending s = ∅ ∧ pending r = ∅).
Proof.
  revert w. induction evs as [|ev evs IH]; intros w; cbv zeta.
  - simpl. destruct (settle_cases w) as [->|(Hst & Hp & Hs & ->)]; [by left|].
    right. by split_and!.
  - destruct (settle_cases w) as [->|(Hst & Hp & Hs & ->)].
    + simpl map. rewrite session_from_cons, run_events_cons. apply IH.
    + right. rewrite session_ended by done.
      destruct (idle_run host argv unzip w (ev :: evs) Hp Hs) as (Hd & Hi & Ht & Hp').
      simpl. by split_and!.
Qed.

Lemma session_refines_run d i n evs :
  let s := session versions host argv unzip d i n (map Handled evs) in
  let r := run versions host argv unzip d i n evs in
  dir s = dir r ∧ inodes s = inodes r ∧ trace s = trace r ∧
  pending s = pending r ∧ (status s = status r ∨ status s = Exited 0).
Proof.
  cbv zeta. unfold session, run.
  destruct (session_from_events (world_of (main versions host argv (boot d i n))) evs)
    as [->|(Hst & Hd & Hi & Ht & Hp & Hp')].
  - split_and!; try done. by left.
  - split_and!; try done; [congruence|by right].
Qed.

End Refines.

(** ** Concrete runs *)

Lemma no_failure_fetched id body : Forall (λ ev, ¬ failure ev) (fetched id body).
Proof.
  unfold fetched. repeat constructor; intros [id' H]; simpl in H; tauto.
Qed.

Lemma distinct_prefixes_v245 host : distinct_prefixes v245 host.
Proof. intros [] [] H; vm_compute in H; congruence. Qed.

(** C2, as stated, fails.  On Windows the IE driver of version 2.44.0 is in
    the directory and 2.45.0 is configured.  The update succeeds: the old
    archive is unlinked, the new one is fetched with status 200 and extracted.
    The directory then holds the new archive and IEDriverServer.exe, whose
    name contains the prefix IEDriverServer as well. *)
Lemma stale_replacement_counterexample :
  let w := run v245 win64 update_ie sample_unzip dir_ie_old inodes_ie_old 1
               (fetched 0 "PK-IEDriverServer") in
  status w = Running ∧ pending w = ∅ ∧
  present w "IEDriverServer.exe" ∧
  contains "IEDriverServer.exe" (bin_prefix (binaries v245 win64 ie)) = true ∧
  ¬ only_current v245 win64 ie w.
Proof.
  assert (Hexe : present (run v245 win64 update_ie sample_unzip dir_ie_old
                              inodes_ie_old 1 (fetched 0 "PK-IEDriverServer"))
                         "IEDriverServer.exe").
  { vm_compute. eexists. reflexivity. }
  cbv zeta. split_and!; [by vm_compute..|done| by vm_compute |].
  intros [_ Honly]. specialize (Honly "IEDriverServer.exe" Hexe).
  vm_compute in Honly. specialize (Honly eq_refl). discriminate.
Qed.

(** C8, as stated, fails.  On Linux chromedriver alone is selected and the
    directory is empty.  The update succeeds, and the directory holds two
    files for the one selected binary: the archive and the driver extracted
    from it. *)
Lemma one_file_counterexample :
  let w := run v245 linux64 update_chrome sample_unzip ∅ ∅ 0
               (fetched 0 "PK-chromedriver") in
  status w = Running ∧ pending w = ∅ ∧
  dom (dir w) = {[ "chromedriver_2.14.zip"; "chromedriver" ]} ∧
  ¬ one_file_per_selected update_chrome w.
Proof.
  cbv zeta. split_and!; [by vm_compute..|].
  unfold one_file_per_selected. vm_compute. discriminate.
Qed.

(** The loop over the old files reads the listing of the scan.  A file whose
    name carries the prefixes of two binaries that are both to be fetched is
    unlinked by the loop of the first; the loop of the second throws on it,
    and the process ends there, before anything is said about the second
    binary. *)
Lemma shared_prefix_file_stops_update :
  let w := run v245 linux64 update_all sample_unzip
               {[ "chromedriver_IEDriverServer" := 0 ]} {[ 0 := mkFile "" 438 ]} 1 [] in
  status w = Crashed "ENOENT: selenium/chromedriver_IEDriverServer" ∧
  ConsoleLog "Updating IEDriver" ∉ trace w.
Proof.
  cbv zeta. split; [by vm_compute|].
  intros H. apply list_elem_of_In in H. vm_compute in H.
  repeat (destruct H as [H|H]; [discriminate H|]). exact H.
Qed.

(** C7 on the code.  The callback of the ie case extracts without the
    overwrite flag that the callback of the chrome case passes.  Run on the
    downloaded archive while a driver is already in the directory, the ie
    callback writes nothing and the driver keeps its old bytes, where the
    chrome callback replaces them.  In a whole update the same shows on an
    entry of the archive whose name the loop over the old files does not
    match: the text file in the directory keeps its old contents though the
    fetched archive holds a newer one. *)
Theorem ie_install_does_not_overwrite :
  let ie_zip := path_join "selenium" "IEDriverServer_2.45.0.zip" in
  let chrome_zip := path_join "selenium" "chromedriver_2.14.zip" in
  let w_ie := world_of (run_installer win64 update_ie sample_unzip ieInstall
                                      ie_zip world_ie_installed) in
  let w_chrome := world_of (run_installer linux64 update_chrome sample_unzip
                                          chromeInstall chrome_zip
                                          world_chrome_installed) in
  let w_run := run v245 win64 update_ie sample_unzip_notes dir_notes inodes_notes 1
                   (fetched 0 "PK-IEDriverServer-notes") in
  (sample_unzip "PK-IEDriverServer" = Some [("IEDriverServer.exe", "MZ")] ∧
   readFile (path_join "selenium" "IEDriverServer.exe") world_ie_installed = Some "MZ-old" ∧
   w_ie = world_ie_installed ∧
   readFile (path_join "selenium" "IEDriverServer.exe") w_ie = Some "MZ-old") ∧
  (readFile (path_join "selenium" "chromedriver") world_chrome_installed = Some "ELF-old" ∧
   readFile (path_join "selenium" "chromedriver") w_chrome = Some "ELF") ∧
  (status w_run = Running ∧
   readFile (path_join "selenium" "IEDriverServer_2.45.0.zip") w_run
     = Some "PK-IEDriverServer-notes" ∧
   readFile (path_join "selenium" "IEDriverServer.exe") w_run = Some "MZ" ∧
   readFile (path_join "selenium" "README.txt") w_run = Some "notes of 2.44.0").
Proof. cbv zeta. split_and!; by vm_compute. Qed.

(** ** The theorems at work *)

Lemma present_short_circuits_witness :
  let w1 := world_of (main v245 linux64 update_default
                           (boot dir_chrome_old inodes_chrome_old 2)) in
  let evs := (fetched 0 "JAR" ++ fetched 1 "PK-chromedriver")%list in
  let w2 := run_events linux64 update_default sample_unzip w1 evs in
  bin_exists (scanned v245 linux64 dir_current chrome) = true ∧
  arg_command update_default = "update" ∧
  (∀ b, selected update_default b = true →
        is_Some (dir_current !! bin_filename (binaries v245 linux64 b))) ∧
  distinct_prefixes v245 linux64 ∧
  main v245 linux64 update_default (boot dir_chrome_old inodes_chrome_old 2)
    = Ret () w1 ∧
  Forall (λ ev, ¬ failure ev) evs ∧
  (∀ b, selected update_default b = true →
        is_Some (dir_chrome_old !! bin_filename (binaries v245 linux64 b)) ∨
        is_Some (bin_url (binaries v245 linux64 b))) ∧
  downloadIfNew linux64 update_default (scanned v245 linux64 dir_current chrome)
                "selenium" (elements (dom dir_current)) (Some chromeInstall)
                (boot dir_current inodes_current 4) =
  Ret () (add_effect (ConsoleLog "chromedriver is up to date.")
                     (boot dir_current inodes_current 4)) ∧
  (let w := run v245 linux64 update_default sample_unzip dir_current
                inodes_current 4 [Net 0 End; StdinData "q"] in
   dir w = dir_current ∧ inodes w = inodes_current ∧ pending w = ∅ ∧
   trace w = [ConsoleLog "selenium standalone is up to date.";
              ConsoleLog "chromedriver is up to date."]) ∧
  (let w3 := run v245 linux64 update_default sample_unzip (dir w2) (inodes w2)
                 (next_ino w2) [Net 0 End] in
   dir w3 = dir w2 ∧ inodes w3 = inodes w2 ∧ pending w3 = ∅).
Proof.
  intros w1 evs w2.
  assert (H1 : bin_exists (scanned v245 linux64 dir_current chrome) = true)
    by (vm_compute; reflexivity).
  assert (H2 : ∀ b, selected update_default b = true →
                    is_Some (dir_current !! bin_filename (binaries v245 linux64 b))).
  { intros [] H; vm_compute in H; try discriminate H;
      vm_compute; eexists; reflexivity. }
  pose proof (distinct_prefixes_v245 linux64) as H3.
  assert (H4 : main v245 linux64 update_default
                    (boot dir_chrome_old inodes_chrome_old 2) = Ret () w1)
    by (vm_compute; reflexivity).
  assert (H5 : Forall (λ ev, ¬ failure ev) evs).
  { apply Forall_app. split; apply no_failure_fetched. }
  assert (H6 : ∀ b, selected update_default b = true →
                    is_Some (dir_chrome_old !! bin_filename (binaries v245 linux64 b)) ∨
                    is_Some (bin_url (binaries v245 linux64 b))).
  { intros [] H; vm_compute in H; try discriminate H;
      right; vm_compute; eexists; reflexivity. }
  destruct (present_short_circuits v245 linux64 update_default sample_unzip)
    as (Ha & Hb & Hc).
  split_and!; [exact H1|reflexivity|exact H2|exact H3|exact H4|exact H5|exact H6| | |].
  - exact (Ha _ "selenium" (elements (dom dir_current)) (Some chromeInstall)
              (boot dir_current inodes_current 4) H1).
  - destruct (Hb dir_current inodes_current 4 [Net 0 End; StdinData "q"]
                 eq_refl H2) as (Hd & Hi & Hp & Ht & _).
    split_and!; [exact Hd|exact Hi|exact Hp|exact Ht].
  - destruct (Hc dir_chrome_old inodes_chrome_old 2 evs w1 [Net 0 End]
                 eq_refl H3 H4 H5 H6) as (Hd & Hi & Hp & _).
    split_and!; [exact Hd|exact Hi|exact Hp].
Defined.

Lemma stale_files_replaced_witness :
  let w2 := run v245 win64 update_ie sample_unzip dir_ie_old inodes_ie_old 1
                (fetched 0 "PK-IEDriverServer") in
  bin_exists (scanned v245 win64 dir_ie_old ie) = false ∧
  NoDup (elements (dom dir_ie_old)) ∧
  arg_command update_ie = "update" ∧ distinct_prefixes v245 win64 ∧
  selected update_ie ie = true ∧
  dir_ie_old !! bin_filename (binaries v245 win64 ie) = None ∧
  is_Some (bin_url (binaries v245 win64 ie)) ∧
  Forall (λ ev, ¬ failure ev) (fetched 0 "PK-IEDriverServer") ∧
  (∃ w1, sweep "IEDriverServer" "selenium" (elements (dom dir_ie_old))
               (boot dir_ie_old inodes_ie_old 1) = Ret () w1 ∧
         dir w1 !! "IEDriverServer_2.44.0.zip" = None) ∧
  (∀ name, present w2 name → contains name "IEDriverServer" = true →
           name = "IEDriverServer_2.45.0.zip" ∨ extracted (trace w2) name) ∧
  present w2 "IEDriverServer_2.45.0.zip".
Proof.
  intros w2.
  assert (H1 : bin_exists (scanned v245 win64 dir_ie_old ie) = false)
    by (vm_compute; reflexivity).
  assert (H2 : NoDup (elements (dom dir_ie_old))) by apply NoDup_elements.
  assert (H3 : dir_ie_old !! bin_filename (binaries v245 win64 ie) = None)
    by (vm_compute; reflexivity).
  assert (H4 : is_Some (bin_url (binaries v245 win64 ie)))
    by (vm_compute; eexists; reflexivity).
  pose proof (no_failure_fetched 0 "PK-IEDriverServer") as H5.
  assert (H6 : main v245 win64 update_ie (boot dir_ie_old inodes_ie_old 1) =
               Ret () (world_of (main v245 win64 update_ie
                                      (boot dir_ie_old inodes_ie_old 1))))
    by (vm_compute; reflexivity).
  pose proof (distinct_prefixes_v245 win64) as H7.
  destruct (stale_files_replaced v245 win64 update_ie sample_unzip) as [Ha Hb].
  destruct (Hb dir_ie_old inodes_ie_old 1 (fetched 0 "PK-IEDriverServer") ie _
               eq_refl H7 eq_refl H3 H6) as [Hclean Hnew].
  split_and!; [exact H1|exact H2|reflexivity|exact H7|reflexivity|exact H3|exact H4
              |exact H5| |exact Hclean|exact (Hnew H4 H5)].
  destruct (Ha (scanned v245 win64 dir_ie_old ie) "selenium"
               (elements (dom dir_ie_old)) (Some ieInstall)
               (boot dir_ie_old inodes_ie_old 1) H1 H2)
    as (w1 & Hsweep & Hgone & _).
  { intros f Hf _. apply elem_of_elements, elem_of_dom in Hf. exact Hf. }
  exists w1. split; [exact Hsweep|].
  apply Hgone; [|vm_compute; reflexivity].
  apply elem_of_elements, elem_of_dom. vm_compute. eexists. reflexivity.
Defined.

Lemma child_exit_code_propagates_witness :
  arg_command start_default = "start" ∧
  is_Some (dir_current !! bin_filename (binaries v245 linux64 standalone)) ∧
  Forall (λ ev, ¬ is_child_exit ev) [SIGINT; StdinData "q"] ∧
  status (run v245 linux64 start_default sample_unzip dir_current inodes_current 4
              ([SIGINT; StdinData "q"] ++ ChildExit (Some 3%Z) :: [SIGINT])) = Exited 3.
Proof.
  assert (H1 : is_Some (dir_current !! bin_filename (binaries v245 linux64 standalone)))
    by (vm_compute; eexists; reflexivity).
  assert (H2 : Forall (λ ev, ¬ is_child_exit ev) [SIGINT; StdinData "q"])
    by (repeat constructor; simpl; tauto).
  split_and!; [reflexivity|exact H1|exact H2|].
  exact (proj1 (proj2 (child_exit_code_propagates v245 linux64 start_default
                         sample_unzip dir_current inodes_current 4
                         [SIGINT; StdinData "q"] 3%Z [SIGINT] eq_refl H1 H2))).
Defined.

Lemma start_without_server_aborts_witness :
  arg_command start_default = "start" ∧
  dir_chrome_old !! bin_filename (binaries v245 linux64 standalone) = None ∧
  (let w := run v245 linux64 start_default sample_unzip dir_chrome_old
                inodes_chrome_old 2 [SIGINT; StdinData "q"] in
   status w = Exited 1 ∧ ∀ command args, Spawn command args ∉ trace w).
Proof.
  assert (H1 : dir_chrome_old !! bin_filename (binaries v245 linux64 standalone) = None)
    by (vm_compute; reflexivity).
  split_and!; [reflexivity|exact H1|].
  destruct (start_without_server_aborts v245 linux64 start_default sample_unzip
              dir_chrome_old inodes_chrome_old 2 [SIGINT; StdinData "q"] eq_refl H1)
    as (Hst & _ & _ & Hspawn).
  split; [exact Hst|exact Hspawn].
Defined.

Lemma non_200_removes_partial_file_witness :
  let w := world_of (main v245 linux64 update_chrome (boot ∅ ∅ 0)) in
  let evs := [Net 0 (Data "Not Found"); Net 0 End] in
  status w = Running ∧ pending w !! 0 = Some chrome_download ∧
  (404 ≠ 200)%Z ∧ Forall (of_request 0) evs ∧
  present w "chromedriver_2.14.zip" ∧
  dir (run_events linux64 update_chrome sample_unzip
         (step linux64 update_chrome sample_unzip w (Net 0 (Response 404))) evs)
    !! "chromedriver_2.14.zip" = None.
Proof.
  cbv zeta.
  set (w := world_of (main v245 linux64 update_chrome (boot ∅ ∅ 0))).
  assert (H1 : status w = Running) by (vm_compute; reflexivity).
  assert (H2 : pending w !! 0 = Some chrome_download) by (vm_compute; reflexivity).
  assert (H3 : (404 ≠ 200)%Z) by discriminate.
  assert (H4 : Forall (of_request 0) [Net 0 (Data "Not Found"); Net 0 End])
    by (repeat constructor; eexists; reflexivity).
  split_and!; [exact H1|exact H2|exact H3|exact H4|vm_compute; eexists; reflexivity|].
  exact (proj1 (proj2 (proj2 (proj2 (proj2
           (non_200_removes_partial_file linux64 update_chrome sample_unzip w 0
              chrome_download 404%Z _ H1 H2 H3 H4)))))).
Defined.

Lemma end_calls_back_after_failure_witness :
  let w := world_of (main v245 linux64 update_chrome (boot ∅ ∅ 0)) in
  let w1 := run_events linux64 update_chrome sample_unzip w
              (Net 0 (Response 404) :: map (λ c, Net 0 (Data c)) ["Not Found"]) in
  status w = Running ∧ pending w !! 0 = Some chrome_download ∧
  d_callback chrome_download = Some (afterDownload (Some chromeInstall)) ∧
  fails 0 (Net 0 (Response 404)) ∧
  pending w1 !! 0 = Some chrome_download ∧
  status (step linux64 update_chrome sample_unzip w1 (Net 0 End)) = Crashed "Invalid filename".
Proof.
  cbv zeta.
  set (w := world_of (main v245 linux64 update_chrome (boot ∅ ∅ 0))).
  assert (H1 : status w = Running) by (vm_compute; reflexivity).
  assert (H2 : pending w !! 0 = Some chrome_download) by (vm_compute; reflexivity).
  assert (H3 : fails 0 (Net 0 (Response 404))) by (simpl; split; [reflexivity|discriminate]).
  destruct (end_calls_back_after_failure linux64 update_chrome sample_unzip w 0
              chrome_download (Response 404) ["Not Found"] H1 H2
              (or_introl (ex_intro _ 404%Z eq_refl)))
    as (_ & Hp & _ & _ & Hcrash).
  split_and!; [exact H1|exact H2|reflexivity|exact H3|exact Hp|].
  exact (proj2 (Hcrash chromeInstall eq_refl H3)).
Defined.



Lemma expected_files_after_update_witness :
  let w1 := world_of (main v245 linux64 update_chrome (boot ∅ ∅ 0)) in
  let evs := fetched 0 "PK-chromedriver" in
  let w2 := run_events linux64 update_chrome sample_unzip w1 evs in
  arg_command update_chrome = "update" ∧ distinct_prefixes v245 linux64 ∧
  main v245 linux64 update_chrome (boot ∅ ∅ 0) = Ret () w1 ∧
  Forall (λ ev, ¬ failure ev) evs ∧
  pending w1 !! 0 = Some chrome_download ∧ Net 0 End ∈ evs ∧
  status w2 = Running ∧
  present w2 "chromedriver_2.14.zip" ∧
  ∃ zip, (∀ entry, entry ∈ zip → present w2 entry.1) ∧
         ∃ evs1 bytes, readFile (d_filePath chrome_download)
                         (run_events linux64 update_chrome sample_unzip w1 evs1)
                       = Some bytes ∧ sample_unzip bytes = Some zip.
Proof.
  cbv zeta.
  set (w1 := world_of (main v245 linux64 update_chrome (boot ∅ ∅ 0))).
  assert (H1 : main v245 linux64 update_chrome (boot ∅ ∅ 0) = Ret () w1)
    by (vm_compute; reflexivity).
  pose proof (distinct_prefixes_v245 linux64) as H2.
  pose proof (no_failure_fetched 0 "PK-chromedriver") as H3.
  assert (H4 : pending w1 !! 0 = Some chrome_download) by (vm_compute; reflexivity).
  assert (H5 : Net 0 End ∈ fetched 0 "PK-chromedriver").
  { unfold fetched. apply list_elem_of_In. simpl. tauto. }
  assert (H6 : status (run_events linux64 update_chrome sample_unzip w1
                         (fetched 0 "PK-chromedriver")) = Running)
    by (vm_compute; reflexivity).
  split_and!; [reflexivity|exact H2|exact H1|exact H3|exact H4|exact H5|exact H6| |].
  - destruct (expected_files_after_update v245 linux64 update_chrome sample_unzip
                ∅ ∅ 0 _ w1 eq_refl H2 H1 H3) as [Ha _].
    apply (Ha chrome eq_refl). right. vm_compute. eexists. reflexivity.
  - destruct (expected_files_after_update v245 linux64 update_chrome sample_unzip
                ∅ ∅ 0 _ w1 eq_refl H2 H1 H3) as [_ Hb].
    destruct (Hb 0 chrome_download chromeInstall H4 eq_refl H5 H6)
      as (b & evs1 & evs2 & bytes & zip & _ & _ & _ & _ & Hread & Hzip & _ & Hentries).
    exists zip. split; [exact Hentries|]. exists evs1, bytes. split; [exact Hread|exact Hzip].
Defined.



(** * Further properties of the script *)

(** ** Versions, the registry and the proxy *)

(** ** More on the registry *)

Lemma contains_cons_false a s sub :
  contains (String a s) sub = false → contains s sub = false.
Proof.
  intros H. apply not_true_is_false. intros Hs.
  apply contains_spec in Hs as (l & r & ->).
  assert (Ht : contains (String a (l ++ sub ++ r)) sub = true).
  { apply contains_spec. by exists (String a l), r. }
  congruence.
Qed.

Lemma lastIndexOf_from_absent c s i :
  contains s (String c "") = false → lastIndexOf_from c s i = (-1)%Z.
Proof.
  revert i. induction s as [|a s IH]; intros i H; [done|].
  simpl. rewrite IH by (by eapply contains_cons_false). simpl.
  destruct (Ascii.eqb a c) eqn:Hac; [|done].
  apply Ascii.eqb_eq in Hac as ->.
  assert (Ht : contains (String c s) (String c "") = true).
  { apply contains_spec. by exists "", s. }
  congruence.
Qed.

Lemma lastIndexOf_from_last c a b i :
  (0 ≤ i)%Z → contains b (String c "") = false →
  lastIndexOf_from c (a ++ String c b) i = (i + Z.of_nat (String.length a))%Z.
Proof.
  revert i. induction a as [|x a IH]; intros i Hi Hb.
  - change ("" ++ String c b) with (String c b). simpl.
    rewrite lastIndexOf_from_absent by done. simpl.
    rewrite Ascii.eqb_refl. lia.
  - change (String x a ++ String c b) with (String x (a ++ String c b)).
    simpl lastIndexOf_from. rewrite IH by (done || lia).
    rewrite (proj2 (Z.leb_le _ _)) by lia.
    simpl String.length. lia.
Qed.

Lemma string_length_app s t :
  String.length (s ++ t) = String.length s + String.length t.
Proof. induction s as [|a s IH]; [done|]. simpl. by rewrite IH. Qed.

(** X1. [shortVersion] cuts a version at its last dot. *)
Theorem shortVersion_cuts_at_last_dot (major patch : string) :
  contains patch "." = false →
  shortVersion (major ++ "." ++ patch) = major.
Proof.
  intros Hp. unfold shortVersion, lastIndexOf.
  change (major ++ "." ++ patch) with (major ++ String "." patch).
  rewrite lastIndexOf_from_last by done.
  unfold slice0. rewrite (proj2 (Z.ltb_ge _ _)) by lia.
  rewrite string_length_app. simpl String.length.
  rewrite Z.min_l by lia. rewrite Z.add_0_l, Nat2Z.id.
  apply substring_prefix.
Qed.

Lemma substring_all_but_last s c :
  String.substring 0 (String.length s) (s ++ String c "") = s.
Proof. apply substring_prefix. Qed.

(** X2. A version without a dot loses its last character: [lastIndexOf] gives
    -1 and [slice(0, -1)] drops one character. *)
Theorem shortVersion_without_dot (s : string) (c : ascii) :
  contains (s ++ String c "") "." = false →
  shortVersion (s ++ String c "") = s.
Proof.
  intros Hp. unfold shortVersion, lastIndexOf.
  rewrite lastIndexOf_from_absent by done.
  unfold slice0. change (-1 <? 0)%Z with true. cbv iota.
  rewrite string_length_app. simpl String.length.
  replace (Z.to_nat (Z.max 0 (Z.of_nat (String.length s + 1) + -1)))
    with (String.length s) by lia.
  apply substring_prefix.
Qed.

(** X3. Whatever the versions, the three expected filenames differ, so do the
    three prefixes, and each expected filename begins with the prefix of
    its binary: the test for old files matches the current file too. *)
Theorem registry_names_distinct versions host :
  (∀ b, ∃ rest, bin_filename (binaries versions host b) =
                bin_prefix (binaries versions host b) ++ rest) ∧
  (∀ b, contains (bin_filename (binaries versions host b))
                 (bin_prefix (binaries versions host b)) = true) ∧
  (∀ b b', bin_filename (binaries versions host b) =
           bin_filename (binaries versions host b') → b = b') ∧
  (∀ b b', bin_prefix (binaries versions host b) =
           bin_prefix (binaries versions host b') → b = b').
Proof.
  assert (H : ∀ b, ∃ rest, bin_filename (binaries versions host b) =
                           bin_prefix (binaries versions host b) ++ rest).
  { intros []; eexists; simpl; reflexivity. }
  split_and!; [exact H| | |].
  - intros b. destruct (H b) as [rest ->]. apply contains_spec. by exists "", rest.
  - intros [] [] Heq; try done; simpl in Heq; discriminate Heq.
  - intros [] [] Heq; try done; simpl in Heq; discriminate Heq.
Qed.

(** X4. Where the drivers can be downloaded: the server everywhere,
    chromedriver on Darwin, Linux and Windows, the IE driver on Windows
    only.  So a host that has the IE driver has chromedriver too. *)
Theorem download_availability versions host :
  is_Some (bin_url (binaries versions host standalone)) ∧
  (is_Some (bin_url (binaries versions host chrome)) ↔
   os_type host = "Darwin" ∨ os_type host = "Linux" ∨ os_type host = "Windows_NT") ∧
  (is_Some (bin_url (binaries versions host ie)) ↔ os_type host = "Windows_NT") ∧
  (is_Some (bin_url (binaries versions host ie)) →
   is_Some (bin_url (binaries versions host chrome))).
Proof.
  assert (Hc : is_Some (bin_url (binaries versions host chrome)) ↔
    os_type host = "Darwin" ∨ os_type host = "Linux" ∨ os_type host = "Windows_NT").
  { simpl. unfold chrome_url.
    destruct (String.eqb_spec (os_type host) "Darwin") as [Hd|Hd];
      [split; eauto|].
    destruct (String.eqb_spec (os_type host) "Linux") as [Hl|Hl].
    { destruct (os_arch host =? "x64")%string; split; eauto. }
    destruct (String.eqb_spec (os_type host) "Windows_NT") as [Hw|Hw];
      [split; eauto|].
    split; [by intros [? ?]|]. intros [?|[?|?]]; done. }
  assert (Hi : is_Some (bin_url (binaries versions host ie)) ↔
               os_type host = "Windows_NT").
  { simpl. unfold ie_url.
    destruct (String.eqb_spec (os_type host) "Windows_NT") as [Hw|Hw].
    { destruct (os_arch host =? "x64")%string; split; eauto. }
    split; [by intros [? ?]|done]. }
  split_and!; [by eexists|exact Hc|exact Hi|].
  intros H. apply Hc. right. right. by apply Hi.
Qed.

(** Every URL of the registry is an https URL. *)
Lemma registry_url_https versions host b url :
  bin_url (binaries versions host b) = Some url →
  url_protocol url = Some "https:".
Proof.
  destruct b; simpl; unfold standalone_url, chrome_url, ie_url;
    repeat case_match; intros [= <-]; reflexivity.
Qed.

(** X6. Without [--proxy], a download of the registry goes through the first
    non-empty of HTTPS_PROXY, https_proxy, HTTP_PROXY and http_proxy, in
    this order; when none of them is set to a non-empty value the request has
    no usable proxy. *)
Theorem registry_proxy_from_environment versions host argv b url :
  truthy (proxy argv) = false →
  bin_url (binaries versions host b) = Some url →
  let vars := [env_HTTPS_PROXY host; env_https_proxy host;
               env_HTTP_PROXY host; env_http_proxy host] in
  resolveProxy host argv url = first_truthy vars ∧
  (truthy (resolveProxy host argv url) = true ↔
   ∃ v, v ∈ vars ∧ truthy v = true) ∧
  (∀ v, v ∈ vars → truthy v = true →
        (∀ v', v' ∈ vars → truthy v' = true → v' = v) →
        resolveProxy host argv url = v).
Proof.
  intros Hp Hurl vars. subst vars.
  assert (Hr : resolveProxy host argv url =
               first_truthy [env_HTTPS_PROXY host; env_https_proxy host;
                             env_HTTP_PROXY host; env_http_proxy host]).
  { unfold resolveProxy. rewrite Hp, (registry_url_https _ _ _ _ Hurl).
    rewrite bool_decide_eq_true_2 by done. unfold js_or. simpl.
    destruct (truthy (env_HTTPS_PROXY host)) eqn:H1; simpl; rewrite ?H1; [done|].
    destruct (truthy (env_https_proxy host)) eqn:H2; simpl; rewrite ?H2; [done|].
    destruct (truthy (env_HTTP_PROXY host)) eqn:H3; simpl; rewrite ?H3; done. }
  rewrite Hr. simpl.
  split_and!; [done| |].
  - split.
    + intros Ht.
      destruct (truthy (env_HTTPS_PROXY host)) eqn:H1;
        [exists (env_HTTPS_PROXY host); split; [apply list_elem_of_In; simpl; tauto|done]|].
      destruct (truthy (env_https_proxy host)) eqn:H2;
        [exists (env_https_proxy host); split; [apply list_elem_of_In; simpl; tauto|done]|].
      destruct (truthy (env_HTTP_PROXY host)) eqn:H3;
        [exists (env_HTTP_PROXY host); split; [apply list_elem_of_In; simpl; tauto|done]|].
      exists (env_http_proxy host); split; [apply list_elem_of_In; simpl; tauto|done].
    + intros (v & Hv & Ht).
      destruct (truthy (env_HTTPS_PROXY host)) eqn:H1; [done|].
      destruct (truthy (env_https_proxy host)) eqn:H2; [done|].
      destruct (truthy (env_HTTP_PROXY host)) eqn:H3; [done|].
      repeat (apply elem_of_cons in Hv as [->|Hv]; [congruence|]).
      by apply elem_of_nil in Hv.
  - intros v Hv Ht Huniq.
    destruct (truthy (env_HTTPS_PROXY host)) eqn:H1;
      [apply Huniq; [apply list_elem_of_In; simpl; tauto|done]|].
    destruct (truthy (env_https_proxy host)) eqn:H2;
      [apply Huniq; [apply list_elem_of_In; simpl; tauto|done]|].
    destruct (truthy (env_HTTP_PROXY host)) eqn:H3;
      [apply Huniq; [apply list_elem_of_In; simpl; tauto|done]|].
    repeat (apply elem_of_cons in Hv as [->|Hv]; [congruence|]).
    by apply elem_of_nil in Hv.
Qed.

(** ** Relations on the trace and on the files *)

Global Instance adds_refl q : Reflexive (adds q).
Proof. intros w e H. by left. Qed.

Global Instance adds_trans q : Transitive (adds q).
Proof.
  intros w1 w2 w3 H12 H23 e H3. destruct (H23 e H3) as [H2|?]; [|by right].
  by apply H12.
Qed.

Global Instance untouched_refl : Reflexive untouched.
Proof. by intros w. Qed.

Global Instance untouched_trans : Transitive untouched.
Proof.
  intros w1 w2 w3 (?&?&?&?) (?&?&?&?). unfold untouched. split_and!; congruence.
Qed.

Lemma adds_same_trace q w w' : trace w' = trace w → adds q w w'.
Proof. intros H e. rewrite H. by left. Qed.

Lemma adds_snoc q w w' e :
  trace w' = (trace w ++ [e])%list → q e = true → adds q w w'.
Proof.
  intros H He e'. rewrite H, elem_of_app, list_elem_of_singleton.
  intros [?| ->]; [by left|by right].
Qed.

Lemma adds_emit q e : q e = true → respects (adds q) (emit e).
Proof. intros He w. by apply (adds_snoc _ _ _ e). Qed.

Lemma adds_console_log q msg :
  q (ConsoleLog msg) = true → respects (adds q) (console_log msg).
Proof. apply adds_emit. Qed.

Lemma adds_console_error q msg :
  q (ConsoleError msg) = true → respects (adds q) (console_error msg).
Proof. apply adds_emit. Qed.

Lemma adds_throw q {A} err : respects (adds q) (@throw A err).
Proof. intros w. by apply adds_same_trace. Qed.

Lemma adds_process_exit q {A} code : respects (adds q) (@process_exit A code).
Proof. intros w. by apply adds_same_trace. Qed.

Lemma adds_existsSync q p : respects (adds q) (existsSync p).
Proof. intros w. reflexivity. Qed.

Lemma adds_readdirSync q : respects (adds q) readdirSync.
Proof. intros w. reflexivity. Qed.

Lemma adds_register q : respects (adds q) register_start_handlers.
Proof. intros w. by apply adds_same_trace. Qed.

Lemma adds_unlink q p : q (Unlink p) = true → respects (adds q) (unlink p).
Proof. intros Hq w. by apply (adds_snoc _ _ _ (Unlink p)). Qed.

Lemma adds_unlinkSync q p : q (Unlink p) = true → respects (adds q) (unlinkSync p).
Proof.
  intros Hq w. unfold unlinkSync. destruct (dir w !! p.2).
  - by apply (adds_snoc _ _ _ (Unlink p)).
  - by apply adds_same_trace.
Qed.

Lemma adds_createWriteStream q host p :
  q (CreateFile p) = true → respects (adds q) (createWriteStream host p).
Proof.
  intros Hq w. unfold createWriteStream.
  destruct (dir w !! p.2); by apply (adds_snoc _ _ _ (CreateFile p)).
Qed.

Lemma adds_stream_write q i chunk : respects (adds q) (stream_write i chunk).
Proof. intros w. by apply adds_same_trace. Qed.

Lemma adds_chmodSync q p m : q (Chmod p m) = true → respects (adds q) (chmodSync p m).
Proof.
  intros Hq w. unfold chmodSync. destruct (dir w !! p.2).
  - by apply (adds_snoc _ _ _ (Chmod p m)).
  - by apply adds_same_trace.
Qed.

Lemma adds_writeFileTo q p content overwrite :
  q (WriteFile p) = true → respects (adds q) (writeFileTo p content overwrite).
Proof.
  intros Hq w. unfold writeFileTo. destruct (dir w !! p.2); [destruct overwrite|].
  - by apply (adds_snoc _ _ _ (WriteFile p)).
  - reflexivity.
  - by apply (adds_snoc _ _ _ (WriteFile p)).
Qed.

Lemma adds_request q url strictSSL prox d :
  q (Request url strictSSL prox) = true →
  respects (adds q) (request url strictSSL prox d).
Proof. intros Hq w. by apply (adds_snoc _ _ _ (Request url strictSSL prox)). Qed.

Lemma adds_AdmZip q unzip p : respects (adds q) (AdmZip unzip p).
Proof.
  intros w. unfold AdmZip. destruct (readFile p w) as [bytes|];
    [destruct (unzip bytes)|]; by apply adds_same_trace.
Qed.

Lemma untouched_emit e : respects untouched (emit e).
Proof. by intros w. Qed.

Lemma untouched_throw {A} err : respects untouched (@throw A err).
Proof. by intros w. Qed.

Lemma untouched_process_exit {A} code : respects untouched (@process_exit A code).
Proof. by intros w. Qed.

Lemma untouched_existsSync p : respects untouched (existsSync p).
Proof. by intros w. Qed.

Lemma untouched_readdirSync : respects untouched readdirSync.
Proof. by intros w. Qed.

Lemma untouched_register : respects untouched register_start_handlers.
Proof. by intros w. Qed.

Lemma untouched_console_log msg : respects untouched (console_log msg).
Proof. by intros w. Qed.

Lemma untouched_console_error msg : respects untouched (console_error msg).
Proof. by intros w. Qed.

#[export] Hint Resolve adds_emit adds_console_log adds_console_error adds_throw
  adds_process_exit adds_existsSync adds_readdirSync adds_register adds_unlink
  adds_unlinkSync adds_createWriteStream adds_stream_write adds_chmodSync
  adds_writeFileTo adds_request adds_AdmZip untouched_emit untouched_throw
  untouched_process_exit untouched_existsSync untouched_readdirSync
  untouched_register untouched_console_log untouched_console_error : respects.

(** As [respects_steps], also through the local definitions of a body. *)
Ltac respects_walk :=
  repeat first
    [ apply respects_ret
    | apply respects_bind
    | apply respects_forEach
    | match goal with
      | |- Reflexive _ => apply _
      | |- Transitive _ => apply _
      | |- ∀ _, _ => intros ?
      | |- respects _ (let _ := _ in _) => cbv zeta
      | |- respects _ (if ?b then _ else _) => destruct b
      | |- respects _ (match ?x with _ => _ end) => destruct x
      end
    | solve [eauto with respects] ].

Section OtherCommands.

Variable versions : Versions.
Variable host : Host.
Variable argv : Argv.
Variable unzip : string → option (list (string * string)).

Lemma untouched_start b1 b2 b3 : respects untouched (start host argv b1 b2 b3).
Proof. unfold start, spawnCommand. respects_walk. Qed.

Lemma untouched_report bin : respects untouched (report bin).
Proof. unfold report. respects_walk. Qed.

Lemma untouched_scan files bin : respects untouched (scan argv files bin).
Proof. unfold scan. respects_walk. Qed.

Lemma adds_start b1 b2 b3 :
  respects (adds is_console_or_spawn) (start host argv b1 b2 b3).
Proof. unfold start, spawnCommand. respects_walk. Qed.

Lemma adds_report q bin :
  (∀ msg, q (ConsoleLog msg) = true) → respects (adds q) (report bin).
Proof. intros Hq. unfold report. respects_walk. Qed.

Lemma adds_scan q files bin : respects (adds q) (scan argv files bin).
Proof. unfold scan. respects_walk. Qed.

(** The script up to the events, for a command that is not update. *)
Lemma main_not_update w :
  arg_command argv ≠ "update" →
  untouched w (world_of (main versions host argv w)) ∧
  adds is_console_or_spawn w (world_of (main versions host argv w)).
Proof.
  intros Hcmd. apply String.eqb_neq in Hcmd. unfold main. rewrite Hcmd.
  pose proof untouched_start. pose proof untouched_report.
  pose proof untouched_scan. pose proof adds_start.
  pose proof (adds_scan is_console_or_spawn).
  assert (∀ bin, respects (adds is_console_or_spawn) (report bin))
    by (intros; by apply adds_report).
  split; revert w; respects_walk.
Qed.

(** With no request in flight, events change no file; what they add to the
    trace is console output and shutdown requests. *)
Lemma no_pending_run w evs :
  pending w = ∅ →
  let w' := run_events host argv unzip w evs in
  dir w' = dir w ∧ inodes w' = inodes w ∧ pending w' = ∅ ∧
  adds is_console_or_get w w'.
Proof.
  revert w. induction evs as [|ev evs IH]; intros w Hp; [by split_and!|].
  rewrite run_events_cons.
  assert (Hstep : let w1 := step host argv unzip w ev in
            dir w1 = dir w ∧ inodes w1 = inodes w ∧ pending w1 = ∅ ∧
            adds is_console_or_get w w1).
  { unfold step. destruct (status w); try (by split_and!).
    destruct ev as [id e|code|chunk|].
    - rewrite Hp, lookup_empty. by split_and!.
    - destruct (supervising w); [|by split_and!]. simpl. split_and!; try done.
      by apply (adds_snoc _ _ _ (ConsoleLog ("Selenium Standalone has exited with code " ++
                                             show_code code))).
    - destruct (supervising w); [|by split_and!]. simpl. split_and!; try done.
      etrans; [apply (adds_snoc _ w (add_effect (ConsoleLog "Attempting to shut down selenium nicely") w)
                        (ConsoleLog "Attempting to shut down selenium nicely")); done|].
      by eapply adds_snoc.
    - destruct (supervising w); simpl; split_and!; try done.
      + by eapply adds_snoc.
      + by apply adds_same_trace. }
  destruct Hstep as (Hd & Hi & Hp1 & Ha).
  destruct (IH _ Hp1) as (Hd' & Hi' & Hp' & Ha').
  split_and!; [congruence|congruence|done|]. by etrans.
Qed.

(** X8. Only the update command touches the files: under any other command
    (start, status, or a word that is no command) the directory and the
    contents of its files stay as they were through the whole run, and the
    trace holds console output, the spawning of the child and shutdown
    requests only: nothing is unlinked, created, written or downloaded. *)
Theorem other_commands_leave_files d i n evs :
  arg_command argv ≠ "update" →
  let w := run versions host argv unzip d i n evs in
  dir w = d ∧ inodes w = i ∧ pending w = ∅ ∧
  (∀ e, e ∈ trace w → is_console_or_get e = true).
Proof.
  intros Hcmd w. subst w. unfold run.
  destruct (main_not_update (boot d i n) Hcmd) as [(Hd & Hi & _ & Hp) Ha].
  set (w1 := world_of (main versions host argv (boot d i n))) in *.
  destruct (no_pending_run w1 evs Hp) as (Hd' & Hi' & Hp' & Ha').
  split_and!; [by rewrite Hd', Hd|by rewrite Hi', Hi|done|].
  intros e He. destruct (Ha' e He) as [He1|?]; [|done].
  destruct (Ha e He1) as [He0|Hq].
  - simpl in He0. by apply elem_of_nil in He0.
  - by destruct e.
Qed.

End OtherCommands.

(** ** The status and start commands *)

Section StatusAndStart.

Variable versions : Versions.
Variable host : Host.
Variable argv : Argv.
Variable unzip : string → option (list (string * string)).

Lemma report_line d b w :
  report (scanned versions host d b) w =
  Ret () (add_effect (ConsoleLog (status_line versions host d b)) w).
Proof.
  unfold report, status_line.
  destruct (bin_exists (scanned versions host d b));
    [|destruct (bin_outOfDateExists (scanned versions host d b))]; reflexivity.
Qed.

Lemma main_status d i n :
  arg_command argv = "status" →
  world_of (main versions host argv (boot d i n)) =
  add_effect (ConsoleLog (status_line versions host d ie))
    (add_effect (ConsoleLog (status_line versions host d chrome))
       (add_effect (ConsoleLog (status_line versions host d standalone))
          (boot d i n))).
Proof.
  intros H.
  assert (Hm : main versions host argv (boot d i n) =
               (report (scanned versions host d standalone);;
                report (scanned versions host d chrome);;
                report (scanned versions host d ie)) (boot d i n)).
  { unfold main. rewrite H. reflexivity. }
  rewrite Hm, bind_eq, report_line, bind_eq, report_line, report_line.
  reflexivity.
Qed.

(** What decides the line of the status command. *)
Lemma status_line_cases d b :
  let bin := binaries versions host b in
  (is_Some (d !! bin_filename bin) →
   status_line versions host d b = bin_name bin ++ " is up to date") ∧
  (d !! bin_filename bin = None →
   (∃ file, is_Some (d !! file) ∧ contains file (bin_prefix bin) = true) →
   status_line versions host d b = "**" ++ bin_name bin ++ " needs to be updated") ∧
  (d !! bin_filename bin = None →
   (∀ file, is_Some (d !! file) → contains file (bin_prefix bin) = false) →
   status_line versions host d b = bin_name bin ++ " is not present").
Proof.
  intros bin. unfold status_line.
  change (bin_exists (scanned versions host d b))
    with (bool_decide (is_Some (d !! bin_filename bin))).
  change (bin_outOfDateExists (scanned versions host d b))
    with (existsb (λ file, contains file (bin_prefix bin) &&
                           negb (String.eqb file (bin_filename bin)))
                  (elements (dom d))).
  change (bin_name (scanned versions host d b)) with (bin_name bin).
  split_and!.
  - intros H. by rewrite bool_decide_eq_true_2.
  - intros Habs (file & Hf & Hc).
    rewrite bool_decide_eq_false_2 by (rewrite Habs; by intros [? ?]).
    assert (He : existsb (λ file, contains file (bin_prefix bin) &&
                                  negb (String.eqb file (bin_filename bin)))
                         (elements (dom d)) = true).
    { apply List.existsb_exists. exists file. split.
      - by apply list_elem_of_In, elem_of_elements, elem_of_dom.
      - rewrite Hc. simpl. apply negb_true_iff, String.eqb_neq.
        intros ->. rewrite Habs in Hf. by destruct Hf. }
    by rewrite He.
  - intros Habs Hnone.
    rewrite bool_decide_eq_false_2 by (rewrite Habs; by intros [? ?]).
    assert (He : existsb (λ file, contains file (bin_prefix bin) &&
                                  negb (String.eqb file (bin_filename bin)))
                         (elements (dom d)) = false).
    { apply not_true_is_false. intros He.
      apply List.existsb_exists in He as (file & Hin & Hc).
      apply list_elem_of_In, elem_of_elements, elem_of_dom in Hin.
      rewrite (Hnone file Hin) in Hc. done. }
    by rewrite He.
Qed.

(** X9. The status command reads the directory and prints one line per binary,
    in the order of the registry: up to date when the expected file is there
    (whatever else is); needs to be updated when it is not but some file with
    the prefix is; not present when no file has the prefix.  It changes
    nothing, and no event adds to what it printed. *)
Theorem status_reports_the_scan d i n evs :
  arg_command argv = "status" →
  let w := run versions host argv unzip d i n evs in
  dir w = d ∧ inodes w = i ∧
  trace w = map (λ b, ConsoleLog (status_line versions host d b))
                [standalone; chrome; ie] ∧
  ∀ b, let bin := binaries versions host b in
    (is_Some (d !! bin_filename bin) →
     status_line versions host d b = bin_name bin ++ " is up to date") ∧
    (d !! bin_filename bin = None →
     (∃ file, is_Some (d !! file) ∧ contains file (bin_prefix bin) = true) →
     status_line versions host d b = "**" ++ bin_name bin ++ " needs to be updated") ∧
    (d !! bin_filename bin = None →
     (∀ file, is_Some (d !! file) → contains file (bin_prefix bin) = false) →
     status_line versions host d b = bin_name bin ++ " is not present").
Proof.
  intros Hcmd w. subst w. unfold run. rewrite main_status by done.
  set (w1 := add_effect _ _).
  destruct (idle_run host argv unzip w1 evs) as (Hd & Hi & Ht & _); [done..|].
  split_and!; [by rewrite Hd|by rewrite Hi|by rewrite Ht|].
  intros b. apply status_line_cases.
Qed.

Lemma path_str_ends a b : ends_with (path_str (path_join a b)) b.
Proof.
  exists (a ++ "/"). unfold path_str, path_join. simpl.
  induction a as [|x a IH]; [done|]. exact (f_equal (String x) IH).
Qed.

(** What [start] does when the server file is there. *)
Lemma start_found bs bc bi w :
  bin_exists bs = true →
  world_of (start host argv bs bc bi w) =
  set_supervising true
    (add_effect (ConsoleLog ("seleniumProcess.pid: " ++ pretty (child_pid host)))
       (add_effect
          (let args :=
             (["-jar"; path_str (path_join (out_dir argv) (bin_filename bs))] ++
              match seleniumPort argv with
              | Some p => if bool_decide (p ≠ 0%Z) then ["-port"; show_port p] else []
              | None => []
              end ++
              (if bin_exists bc
               then [("-Dwebdriver.chrome.driver=" ++
                      path_str (path_join (out_dir argv)
                                  (if String.eqb (os_type host) "Windows_NT"
                                   then "chromedriver.exe" else "chromedriver")))%string]
               else []) ++
              (if bin_exists bi
               then [("-Dwebdriver.ie.driver=" ++
                      path_str (path_join (out_dir argv)
                                  (if String.eqb (os_type host) "Windows_NT"
                                   then "IEDriverServer.exe" else "IEDriverServer")))%string]
               else []))%list in
           if String.eqb (process_platform host) "win32"
           then Spawn "cmd" ("/c" :: "java" :: args)
           else Spawn "java" args)
          w)).
Proof.
  intros H. unfold start. rewrite H.
  destruct (seleniumPort argv) as [p|]; [destruct (bool_decide (p ≠ 0%Z))|];
    destruct (bin_exists bc), (bin_exists bi);
    unfold spawnCommand, executableName;
    destruct (String.eqb (os_type host) "Windows_NT"),
             (String.eqb (process_platform host) "win32"); reflexivity.
Qed.

(** X10. The command line of the server.  When the server file is there, [start]
    spawns one child and prints its pid.  The arguments are [-jar] and a path
    that ends with the name of the server file; then [-port] and one more
    argument exactly when a port other than 0 is given; then one option for
    chromedriver and one for the IE driver, each exactly when the archive of
    that driver is in the directory (the driver's own file is not looked at),
    with a path that ends with the name of the driver, [.exe] added on
    Windows.  On win32 the whole goes through [cmd /c]. *)
Theorem start_command_line d i n :
  arg_command argv = "start" →
  is_Some (d !! bin_filename (binaries versions host standalone)) →
  let w := world_of (main versions host argv (boot d i n)) in
  ∃ jar port_args chrome_args ie_args,
    let args := (["-jar"; jar] ++ port_args ++ chrome_args ++ ie_args)%list in
    trace w =
      [if String.eqb (process_platform host) "win32"
       then Spawn "cmd" ("/c" :: "java" :: args) else Spawn "java" args;
       ConsoleLog ("seleniumProcess.pid: " ++ pretty (child_pid host))] ∧
    dir w = d ∧ status w = Running ∧
    ends_with jar (bin_filename (binaries versions host standalone)) ∧
    match seleniumPort argv with
    | Some p => if bool_decide (p ≠ 0%Z) then ∃ text, port_args = ["-port"; text]
                else port_args = []
    | None => port_args = []
    end ∧
    (if bool_decide (is_Some (d !! bin_filename (binaries versions host chrome)))
     then ∃ path, chrome_args = [("-Dwebdriver.chrome.driver=" ++ path)%string] ∧
                  ends_with path (if String.eqb (os_type host) "Windows_NT"
                                  then "chromedriver.exe" else "chromedriver")
     else chrome_args = []) ∧
    (if bool_decide (is_Some (d !! bin_filename (binaries versions host ie)))
     then ∃ path, ie_args = [("-Dwebdriver.ie.driver=" ++ path)%string] ∧
                  ends_with path (if String.eqb (os_type host) "Windows_NT"
                                  then "IEDriverServer.exe" else "IEDriverServer")
     else ie_args = []).
Proof.
  intros Hcmd Hjar w. subst w. rewrite main_start by done.
  rewrite (start_found (scanned versions host d standalone)
             (scanned versions host d chrome) (scanned versions host d ie)
             (boot d i n) (bool_decide_eq_true_2 _ Hjar)).
  change (bin_exists (scanned versions host d chrome))
    with (bool_decide (is_Some (d !! bin_filename (binaries versions host chrome)))).
  change (bin_exists (scanned versions host d ie))
    with (bool_decide (is_Some (d !! bin_filename (binaries versions host ie)))).
  change (bin_filename (scanned versions host d standalone))
    with (bin_filename (binaries versions host standalone)).
  eexists _, _, _, _. cbv zeta. split; [reflexivity|].
  split_and!; [done|done|apply path_str_ends| | |].
  - destruct (seleniumPort argv) as [p|]; [|done]. case_bool_decide; [eauto|done].
  - case_bool_decide; [|done]. eexists. split; [reflexivity|apply path_str_ends].
  - case_bool_decide; [|done]. eexists. split; [reflexivity|apply path_str_ends].
Qed.

(** X11. Data on standard input.  While the supervisor waits, every chunk,
    whatever it holds, prints a line and sends one GET to the shutdown address
    on port 4444 of localhost, also when the server was started on another
    port; as long as no error comes back the supervisor keeps running.  The
    request has no listener for its error: when one of these requests fails
    (nothing listens on that port, say) the supervisor ends on the error,
    though the child has not exited, and takes no further input. *)
Theorem stdin_asks_for_shutdown d i n chunks err rest :
  arg_command argv = "start" →
  is_Some (d !! bin_filename (binaries versions host standalone)) →
  let w1 := world_of (main versions host argv (boot d i n)) in
  let asked := map (λ c, Handled (StdinData c)) chunks in
  let w := session versions host argv unzip d i n asked in
  status w = Running ∧ supervising w = true ∧
  trace w = (trace w1 ++
             flat_map (λ _, [ConsoleLog "Attempting to shut down selenium nicely";
                             HttpGet shutdown_url]) chunks)%list ∧
  network (trace w) = map (λ _, HttpGet shutdown_url) chunks ∧
  (chunks ≠ [] →
   session versions host argv unzip d i n (asked ++ ShutdownError err :: rest) =
   set_status (Crashed err) w).
Proof.
  intros Hcmd Hjar w1 asked w. subst w asked. unfold session. fold w1.
  destruct (start_waits versions host argv d i n Hcmd Hjar) as [Hw Hsettle].
  destruct (start_spawns versions host argv d i n Hcmd Hjar)
    as (_ & _ & _ & cmd & args & Ht1).
  fold w1 in Hw, Hsettle, Ht1. rewrite Hsettle.
  assert (Hgen : ∀ w0, waiting w0 →
    let w' := session_from host argv unzip w0
                (map (λ c, Handled (StdinData c)) chunks) in
    waiting w' ∧
    trace w' = (trace w0 ++
                flat_map (λ _, [ConsoleLog "Attempting to shut down selenium nicely";
                                HttpGet shutdown_url]) chunks)%list).
  { induction chunks as [|c chunks IH]; intros w0 Hw0.
    - simpl. by rewrite app_nil_r.
    - simpl map. rewrite session_from_cons.
      assert (Hstep : deliver host argv unzip w0 (Handled (StdinData c)) =
                add_effect (HttpGet shutdown_url)
                  (add_effect (ConsoleLog "Attempting to shut down selenium nicely") w0)).
      { destruct Hw0 as (Hs0 & Hp0 & _). simpl. unfold step. by rewrite Hs0, Hp0. }
      rewrite Hstep, settle_supervising by (by destruct Hw0 as (_ & ? & _)).
      destruct (IH (add_effect (HttpGet shutdown_url)
                      (add_effect (ConsoleLog "Attempting to shut down selenium nicely") w0)))
        as (? & Ht); [done|].
      split; [done|]. rewrite Ht. simpl. by rewrite <- !app_assoc. }
  destruct (Hgen w1 Hw) as ((Hst & Hsup & Hp) & Ht).
  split_and!; [done|done|done| |].
  - rewrite Ht, Ht1. clear. induction chunks as [|c chunks IH]; [done|].
    simpl in *. by rewrite <- IH.
  - intros Hne. rewrite session_from_app, session_from_cons.
    set (w := session_from host argv unzip w1 _) in *.
    assert (Hget : existsb is_get (trace w) = true).
    { rewrite Ht, existsb_app. destruct chunks as [|c chunks]; [done|].
      simpl. by rewrite orb_true_r. }
    assert (Hd : deliver host argv unzip w (ShutdownError err) =
                 set_status (Crashed err) w)
      by (simpl; by rewrite Hst, Hget).
    rewrite Hd, settle_ended, session_ended by done. done.
Qed.

(** X12. A child ended by a signal.  The exit event then carries no code: the
    supervisor prints null and [process.exit] ends it with status 0. *)
Theorem signalled_child_exits_zero d i n evs evs' :
  arg_command argv = "start" →
  is_Some (d !! bin_filename (binaries versions host standalone)) →
  Forall (λ ev, ¬ is_child_exit ev) evs →
  let w := run versions host argv unzip d i n evs in
  let w' := run versions host argv unzip d i n (evs ++ ChildExit None :: evs') in
  status w' = Exited 0 ∧
  trace w' = (trace w ++
              [ConsoleLog "Selenium Standalone has exited with code null"])%list.
Proof.
  intros Hcmd Hjar Hevs w w'. subst w w'. unfold run.
  destruct (start_spawns versions host argv d i n Hcmd Hjar) as (Hst & Hsup & Hp & _).
  set (w1 := world_of (main versions host argv (boot d i n))) in *.
  destruct (supervisor_waits host argv unzip w1 evs Hst Hsup Hp Hevs) as (Hst' & Hsup' & _).
  rewrite run_events_app, run_events_cons, child_exit_step by done.
  rewrite (ended_run host argv unzip (set_status _ _)) by (simpl; congruence). done.
Qed.

End StatusAndStart.

(** ** The requests of a run *)

Section Requests.

Variable versions : Versions.
Variable host : Host.
Variable argv : Argv.
Variable unzip : string → option (list (string * string)).

Lemma adds_httpGetFile url name outputDir cb :
  Exists (λ b, selected argv b = true ∧
               bin_url (binaries versions host b) = Some url)
         [standalone; chrome; ie] →
  respects (adds (request_as_configured versions host argv))
           (httpGetFile host argv url name outputDir cb).
Proof.
  intros Hurl. unfold httpGetFile. respects_walk.
  all: apply adds_request; simpl; by rewrite bool_decide_eq_true_2.
Qed.

Lemma adds_downloadIfNew d b files cb :
  selected argv b = true →
  respects (adds (request_as_configured versions host argv))
    (downloadIfNew host argv (scanned versions host d b) (out_dir argv) files cb).
Proof.
  intros Hsel. unfold downloadIfNew.
  destruct (bin_url (scanned versions host d b)) as [url|] eqn:Hurl.
  - assert (Exists (λ b, selected argv b = true ∧
                         bin_url (binaries versions host b) = Some url)
                   [standalone; chrome; ie]) as Hex.
    { apply Exists_exists. exists b. split; [|done].
      destruct b; rewrite !elem_of_cons; tauto. }
    respects_walk.
    all: apply adds_request; simpl; by rewrite bool_decide_eq_true_2.
  - respects_walk.
Qed.

Lemma adds_installer q i p :
  (∀ p, q (WriteFile p) = true) → (∀ p m, q (Chmod p m) = true) →
  respects (adds q) (run_installer host argv unzip i p).
Proof.
  intros Hw Hc. unfold run_installer, extractAllTo. respects_walk.
Qed.

(** What a handler adds to the trace is no request. *)
Lemma step_sends_no_request w ev :
  adds no_request w (step host argv unzip w ev).
Proof.
  pose proof (λ i p, adds_installer no_request i p (λ _, eq_refl) (λ _ _, eq_refl))
    as Hinst.
  unfold step. destruct (status w); try reflexivity.
  destruct ev as [id e|code|chunk|].
  - destruct (pending w !! id) as [dl|]; [|reflexivity]. destruct e.
    + enough (respects (adds no_request) (on_response dl statusCode)) as Hr
        by apply Hr.
      unfold on_response. respects_walk.
    + enough (respects (adds no_request) (on_error dl err)) as Hr by apply Hr.
      unfold on_error. respects_walk.
    + enough (respects (adds no_request) (on_data dl chunk)) as Hr by apply Hr.
      unfold on_data. respects_walk.
    + enough (respects (adds no_request) (on_end host argv unzip dl)) as Hr.
      { etrans; [|apply Hr]. by apply adds_same_trace. }
      unfold on_end, run_callback. respects_walk.
  - destruct (supervising w); [|reflexivity].
    enough (respects (adds no_request) (on_child_exit code)) as Hr by apply Hr.
    unfold on_child_exit. respects_walk.
  - destruct (supervising w); [|reflexivity].
    enough (respects (adds no_request) (on_stdin_data chunk)) as Hr by apply Hr.
    unfold on_stdin_data. respects_walk.
  - destruct (supervising w).
    + enough (respects (adds no_request) on_SIGINT) as Hr by apply Hr.
      unfold on_SIGINT. respects_walk.
    + by apply adds_same_trace.
Qed.

Lemma run_sends_no_request w evs :
  adds no_request w (run_events host argv unzip w evs).
Proof.
  revert w. induction evs as [|ev evs IH]; intros w; [reflexivity|].
  rewrite run_events_cons. etrans; [apply step_sends_no_request|apply IH].
Qed.

(** What a handler adds is as the options ask. *)
Lemma adds_step w ev :
  adds (request_as_configured versions host argv) w (step host argv unzip w ev).
Proof.
  pose proof (λ i p, adds_installer (request_as_configured versions host argv) i p
                       (λ _, eq_refl) (λ _ _, eq_refl)) as Hinst.
  unfold step. destruct (status w); try reflexivity.
  destruct ev as [id e|code|chunk|].
  - destruct (pending w !! id) as [dl|]; [|reflexivity]. destruct e.
    + enough (respects (adds (request_as_configured versions host argv))
                (on_response dl statusCode)) as Hr by apply Hr.
      unfold on_response. respects_walk.
    + enough (respects (adds (request_as_configured versions host argv))
                (on_error dl err)) as Hr by apply Hr.
      unfold on_error. respects_walk.
    + enough (respects (adds (request_as_configured versions host argv))
                (on_data dl chunk)) as Hr by apply Hr.
      unfold on_data. respects_walk.
    + enough (respects (adds (request_as_configured versions host argv))
                (on_end host argv unzip dl)) as Hr.
      { etrans; [|apply Hr]. by apply adds_same_trace. }
      unfold on_end, run_callback. respects_walk.
  - destruct (supervising w); [|reflexivity].
    enough (respects (adds (request_as_configured versions host argv))
              (on_child_exit code)) as Hr by apply Hr.
    unfold on_child_exit. respects_walk.
  - destruct (supervising w); [|reflexivity].
    enough (respects (adds (request_as_configured versions host argv))
              (on_stdin_data chunk)) as Hr by apply Hr.
    unfold on_stdin_data. respects_walk.
  - destruct (supervising w).
    + enough (respects (adds (request_as_configured versions host argv))
                on_SIGINT) as Hr by apply Hr.
      unfold on_SIGINT. respects_walk.
    + by apply adds_same_trace.
Qed.

Lemma adds_run_events w evs :
  adds (request_as_configured versions host argv) w (run_events host argv unzip w evs).
Proof.
  revert w. induction evs as [|ev evs IH]; intros w; [reflexivity|].
  rewrite run_events_cons. etrans; [apply adds_step|apply IH].
Qed.

Lemma adds_main d i n :
  adds (request_as_configured versions host argv) (boot d i n)
       (world_of (main versions host argv (boot d i n))).
Proof.
  destruct (decide (arg_command argv = "update")) as [Hcmd|Hcmd].
  - rewrite (main_update versions host argv d i n Hcmd).
    unfold update.
    assert (∀ b files cb, selected argv b = true →
              respects (adds (request_as_configured versions host argv))
                (downloadIfNew host argv (scanned versions host d b)
                               (out_dir argv) files cb)) as Hdl
      by (intros; by apply adds_downloadIfNew).
    generalize (boot d i n).
    pose proof (Hdl standalone) as Hs. pose proof (Hdl chrome) as Hc.
    pose proof (Hdl ie) as Hi. simpl in Hs, Hc, Hi. clear Hdl.
    destruct (arg_standalone argv), (arg_chrome argv), (arg_ie argv);
      respects_walk.
  - destruct (main_not_update versions host argv (boot d i n) Hcmd) as [_ Ha].
    intros e He. destruct (Ha e He) as [?|Hq]; [by left|right].
    by destruct e.
Qed.

(** X7. The requests of a run.  Whatever the command, the directory and the
    events, every request the process sends is for the URL of a binary
    selected for update, checks the certificate unless [--ignore_ssl] is
    given, and goes through the proxy [resolveProxy] gives for that URL.  It
    was sent by the script itself, before any event: no handler sends a
    request. *)
Theorem requests_follow_the_options d i n evs url strictSSL prox :
  Request url strictSSL prox ∈ trace (run versions host argv unzip d i n evs) →
  strictSSL = negb (ignore_ssl argv) ∧
  prox = resolveProxy host argv url ∧
  (∃ b, selected argv b = true ∧ bin_url (binaries versions host b) = Some url) ∧
  Request url strictSSL prox ∈ trace (world_of (main versions host argv (boot d i n))) ∧
  (∀ w ev url' strictSSL' prox',
     Request url' strictSSL' prox' ∈ trace (step host argv unzip w ev) →
     Request url' strictSSL' prox' ∈ trace w).
Proof.
  intros He. unfold run in He.
  assert (Hq : request_as_configured versions host argv
                 (Request url strictSSL prox) = true).
  { destruct (adds_run_events _ evs _ He) as [He1|?]; [|done].
    destruct (adds_main d i n _ He1) as [He0|?]; [|done].
    simpl in He0. by apply elem_of_nil in He0. }
  simpl in Hq. apply bool_decide_eq_true_1 in Hq as (? & ? & Hex).
  apply Exists_exists in Hex as (b & _ & ? & ?).
  split_and!; [done|done|by eauto| |].
  - by destruct (run_sends_no_request _ evs _ He) as [?|Hn].
  - intros w ev url' strictSSL' prox' He'.
    by destruct (step_sends_no_request w ev _ He') as [?|Hn].
Qed.

(** X5. An explicit [--proxy] wins.  With a non-empty [--proxy], [resolveProxy]
    gives it for every URL, whatever the environment holds, and every request
    of every run goes through it. *)
Theorem explicit_proxy_wins d i n evs :
  truthy (proxy argv) = true →
  (∀ fileUrl, resolveProxy host argv fileUrl = proxy argv) ∧
  ∀ url strictSSL prox,
    Request url strictSSL prox ∈ trace (run versions host argv unzip d i n evs) →
    prox = proxy argv.
Proof.
  intros Hp.
  assert (Hr : ∀ fileUrl, resolveProxy host argv fileUrl = proxy argv)
    by (intros fileUrl; unfold resolveProxy; by rewrite Hp).
  split; [exact Hr|]. intros url strictSSL prox He. unfold run in He.
  assert (Hq : request_as_configured versions host argv
                 (Request url strictSSL prox) = true).
  { destruct (adds_run_events _ evs _ He) as [He1|?]; [|done].
    destruct (adds_main d i n _ He1) as [He0|?]; [|done].
    simpl in He0. by apply elem_of_nil in He0. }
  simpl in Hq. apply bool_decide_eq_true_1 in Hq as (_ & -> & _). apply Hr.
Qed.

End Requests.

(** ** More on runs and downloads *)

Section MoreRuns.

Variable versions : Versions.
Variable host : Host.
Variable argv : Argv.
Variable unzip : string → option (list (string * string)).

Lemma main_invalid w :
  arg_command argv ≠ "start" → arg_command argv ≠ "status" →
  arg_command argv ≠ "update" →
  world_of (main versions host argv w) =
  add_effect ShowHelp (add_effect (ConsoleError "Invalid command") w).
Proof.
  intros H1 H2 H3. apply String.eqb_neq in H1, H2, H3.
  unfold main. rewrite H1, H2, H3. reflexivity.
Qed.

(** X13. A word that is no command.  The script prints [Invalid command] and the
    usage text and does nothing else: no file is touched and nothing is sent.
    It sets no exit status of its own: nothing being left to wait for, the
    process ends by itself with status 0, and takes no input. *)
Theorem invalid_command_shows_help d i n inputs :
  arg_command argv ≠ "start" → arg_command argv ≠ "status" →
  arg_command argv ≠ "update" →
  let w := session versions host argv unzip d i n inputs in
  trace w = [ConsoleError "Invalid command"; ShowHelp] ∧
  dir w = d ∧ inodes w = i ∧ status w = Exited 0.
Proof.
  intros H1 H2 H3 w. subst w. unfold session. rewrite main_invalid by done.
  assert (Hs : settle (add_effect ShowHelp
                         (add_effect (ConsoleError "Invalid command") (boot d i n))) =
               set_status (Exited 0)
                 (add_effect ShowHelp
                    (add_effect (ConsoleError "Invalid command") (boot d i n))))
    by reflexivity.
  rewrite Hs, session_ended by done. done.
Qed.

(** X14. A transport error.  The handler unlinks the destination and prints the
    error with the URL; the request stays registered, and no later event of
    this request brings the file back or sends anything. *)
Theorem transport_error_removes_partial_file w id d err evs :
  status w = Running → pending w !! id = Some d →
  Forall (of_request id) evs →
  let w1 := step host argv unzip w (Net id (Error err)) in
  let w2 := run_events host argv unzip w1 evs in
  trace w1 = (trace w ++ [Unlink (d_filePath d);
                          ConsoleError ("Error: Got error " ++ err ++
                                        " from " ++ d_url d)])%list ∧
  pending w1 = pending w ∧ status w1 = Running ∧
  dir w1 = delete (d_filePath d).2 (dir w) ∧
  dir w2 !! (d_filePath d).2 = None ∧
  network (trace w2) = network (trace w).
Proof.
  intros Hst Hp Hevs w1 w2. subst w2 w1.
  rewrite (step_error host argv unzip w id d) by done.
  set (w1 := add_effect _ _).
  assert (Hd1 : dir w1 !! (d_filePath d).2 = None) by apply lookup_delete_eq.
  destruct (own_events_keep_absent host argv unzip w1 id d evs) as (Hd2 & Hn2);
    [|done..|].
  { subst w1. simpl. intros d'. rewrite Hp. congruence. }
  split_and!; try done.
  - subst w1. simpl. by rewrite <- app_assoc.
  - rewrite Hn2. subst w1. simpl. by rewrite !network_snoc.
Qed.

Lemma string_app_assoc (a b c : string) : (a ++ b) ++ c = a ++ b ++ c.
Proof. induction a as [|x a IH]; [done|]. exact (f_equal (String x) IH). Qed.

Lemma string_app_empty_r (a : string) : a ++ "" = a.
Proof. induction a as [|x a IH]; [done|]. exact (f_equal (String x) IH). Qed.

Lemma readFile_lookup p w i f :
  dir w !! p.2 = Some i → inodes w !! i = Some f → readFile p w = Some (data f).
Proof. intros Hd Hi. unfold readFile. rewrite Hd. simpl. by rewrite Hi. Qed.

(** Data events append to the inode of the stream. *)
Lemma data_fills w id dl f chunks :
  status w = Running → pending w !! id = Some dl →
  inodes w !! d_file dl = Some f →
  let w' := run_events host argv unzip w (map (λ c, Net id (Data c)) chunks) in
  inodes w' !! d_file dl = Some (mkFile (data f ++ joined chunks) (mode f)) ∧
  (∀ j, j ≠ d_file dl → inodes w' !! j = inodes w !! j).
Proof.
  revert w f. induction chunks as [|c chunks IH]; intros w f Hst Hp Hf.
  - simpl. rewrite string_app_empty_r. by destruct f.
  - simpl map. rewrite run_events_cons, (step_data host argv unzip w id dl) by done.
    destruct (IH (set_inodes (alter (λ f, mkFile (data f ++ c) (mode f)) (d_file dl)
                                    (inodes w)) w)
                 (mkFile (data f ++ c) (mode f))) as [Hi Ho]; [done..| |].
    { simpl. by rewrite lookup_alter_eq, Hf. }
    split.
    + rewrite Hi. simpl. by rewrite string_app_assoc.
    + intros j Hj. rewrite Ho by done. simpl. by apply lookup_alter_ne.
Qed.

(** X15. The body of a download.  [httpGetFile] opens the destination at once,
    under its final name: a file that was there is emptied, keeping its mode,
    a new one gets mode 0666 less the bits of the umask (0644 under the
    usual 022).  After a response with status 200, the file holds the chunks
    of the data events, in their order, and nothing of what it held before;
    the events print nothing. *)
Theorem download_holds_the_body w url name cb chunks :
  status w = Running →
  (∀ i, dir w !! name = Some i → is_Some (inodes w !! i)) →
  let w1 := world_of (httpGetFile host argv url name (out_dir argv) cb w) in
  let w2 := run_events host argv unzip w1
              (Net (next_req w) (Response 200) ::
               map (λ c, Net (next_req w) (Data c)) chunks) in
  readFile (out_dir argv, name) w1 = Some "" ∧
  readFile (out_dir argv, name) w2 = Some (joined chunks) ∧
  (∀ i f, dir w !! name = Some i → inodes w !! i = Some f →
          dir w2 !! name = Some i ∧
          inodes w2 !! i = Some (mkFile (joined chunks) (mode f))) ∧
  (dir w !! name = None →
   ∃ i, dir w2 !! name = Some i ∧
        inodes w2 !! i = Some (mkFile (joined chunks) (N.ldiff 438 (umask host)))) ∧
  trace w2 = trace w1.
Proof.
  intros Hst Hwf w1 w2.
  destruct (httpGetFile_returns host argv url name (out_dir argv) cb w)
    as (w1' & file & Hret & _ & Hp & _ & Hst1).
  assert (Hw1 : w1 = w1') by (subst w1; by rewrite Hret).
  assert (Hpid : pending w1 !! next_req w =
                 Some (mkDownload url name (path_join (out_dir argv) name) file cb)).
  { rewrite Hw1, Hp. apply lookup_insert_eq. }
  assert (Hst1' : status w1 = Running) by (rewrite Hw1; congruence).
  assert (Hfile : ∃ f0, dir w1' !! name = Some file ∧
                        inodes w1' !! file = Some (mkFile "" (mode f0)) ∧
                        (∀ i f, dir w !! name = Some i → inodes w !! i = Some f →
                                i = file ∧ mode f = mode f0) ∧
                        (dir w !! name = None →
                         mode f0 = N.ldiff 438 (umask host))).
  { clear w2 Hw1 Hpid Hst1' Hst1. revert Hret Hp.
    unfold httpGetFile.
    cbv [mbind M_bind mret M_ret console_log emit createWriteStream request].
    simpl. destruct (dir w !! name) as [i|] eqn:Hl.
    - destruct (Hwf i eq_refl) as [f Hf].
      destruct (ignore_ssl argv); simpl; intros [= <-] Hp; simpl in *;
        apply (f_equal (λ m, m !! next_req w)) in Hp;
        rewrite !lookup_insert_eq in Hp; injection Hp as <-;
        exists f; rewrite Hl, lookup_alter_eq, Hf; simpl;
        (split_and!; [done|done| |done]);
        intros i' f' [= <-]; rewrite Hf; by intros [= <-].
    - destruct (ignore_ssl argv); simpl; intros [= <-] Hp; simpl in *;
        apply (f_equal (λ m, m !! next_req w)) in Hp;
        rewrite !lookup_insert_eq in Hp; injection Hp as <-;
        exists (mkFile "" (N.ldiff 438 (umask host)));
        rewrite !lookup_insert_eq; simpl; by split_and!. }
  rewrite <- Hw1 in Hfile. destruct Hfile as (f0 & Hdir & Hino & Hold & Hnew).
  subst w2. rewrite run_events_cons.
  rewrite (step_response_ok host argv unzip w1 (next_req w) _ Hst1' Hpid).
  destruct (data_run host argv unzip w1 (next_req w) _ chunks Hst1' Hpid)
    as (_ & _ & Hd2 & Ht2).
  destruct (data_fills w1 (next_req w) _ (mkFile "" (mode f0)) chunks Hst1' Hpid Hino)
    as [Hi2 _].
  simpl in Hi2.
  set (w2 := run_events host argv unzip w1 _) in *.
  split_and!.
  - exact (readFile_lookup (out_dir argv, name) w1 file _ Hdir Hino).
  - apply (readFile_lookup (out_dir argv, name) w2 file
             (mkFile (joined chunks) (mode f0))); [|exact Hi2].
    simpl. by rewrite Hd2.
  - intros i f Hi Hf. destruct (Hold i f Hi Hf) as [-> Hm].
    rewrite Hd2, Hi2, Hm. done.
  - intros Hnone. exists file. rewrite Hd2, Hi2, (Hnew Hnone). done.
  - done.
Qed.

(** X16. An archive that cannot be decoded.  When the stream of a download with
    an installer ends and the file does not decode as an archive, the
    callback throws: the process is over, the file stays under its expected
    name with what was downloaded, nothing is extracted, and the other
    downloads in flight are never finished, whatever events follow. *)
Theorem undecodable_archive_ends_the_run w id dl f bytes evs :
  status w = Running → pending w !! id = Some dl →
  d_callback dl = Some (afterDownload (Some f)) →
  readFile (d_filePath dl) w = Some bytes → unzip bytes = None →
  let w' := run_events host argv unzip w (Net id End :: evs) in
  status w' = Crashed "Invalid or unsupported zip format" ∧
  dir w' = dir w ∧ inodes w' = inodes w ∧
  pending w' = delete id (pending w) ∧
  trace w' = (trace w ++ [ConsoleLog (d_fileName dl ++ " downloaded to " ++
                                      path_str (d_filePath dl))])%list.
Proof.
  intros Hst Hp Hcb Hread Hzip w'. subst w'.
  rewrite run_events_cons, (step_end host argv unzip w id dl) by done.
  unfold on_end. rewrite world_of_bind, Hcb. simpl.
  set (w1 := add_effect _ _).
  assert (Hr1 : readFile (d_filePath dl) w1 = Some bytes) by exact Hread.
  assert (Hcr : world_of (run_installer host argv unzip f (d_filePath dl) w1) =
                set_status (Crashed "Invalid or unsupported zip format") w1).
  { destruct f; unfold run_installer; rewrite world_of_bind; unfold AdmZip;
      by rewrite Hr1, Hzip. }
  rewrite Hcr, not_running_run by done. by split_and!.
Qed.

End MoreRuns.

(** ** The install callbacks *)

Section Install.

Variable host : Host.
Variable argv : Argv.
Variable unzip : string → option (list (string * string)).

(** One entry written by adm-zip. *)
Lemma writeFileTo_file_at targetPath n c overwrite w :
  fs_wf w →
  ∃ w', writeFileTo (path_join targetPath n) c overwrite w = Ret () w' ∧
        fs_wf w' ∧ status w' = status w ∧
        ∀ name, file_at w' name =
                if String.eqb n name
                then (if overwrite then Some (mkFile c 438)
                      else match file_at w name with
                           | Some f => Some f
                           | None => Some (mkFile c 438)
                           end)
                else file_at w name.
Proof.
  intros [Hb Hinj]. unfold writeFileTo. simpl.
  destruct (dir w !! n) as [i|] eqn:Hn; [destruct overwrite|].
  - eexists. split; [reflexivity|]. split; [split|]; [| |split; [done|]].
    + intros name j Hj. simpl in *. destruct (Hb name j Hj) as [? ?].
      split; [done|]. destruct (decide (j = i)) as [->|?].
      * rewrite lookup_insert_eq. eauto.
      * by rewrite lookup_insert_ne.
    + exact Hinj.
    + intros name. unfold file_at. simpl.
      destruct (String.eqb_spec n name) as [<-|Hne].
      * rewrite Hn. simpl. by rewrite lookup_insert_eq.
      * destruct (dir w !! name) as [j|] eqn:Hj; [|done]. simpl.
        apply lookup_insert_ne. intros ->. apply Hne. by eapply Hinj.
  - exists w. split; [done|]. split; [done|]. split; [done|].
    intros name. destruct (String.eqb_spec n name) as [<-|Hne]; [|done].
    unfold file_at. rewrite Hn. simpl.
    destruct (Hb n i Hn) as [_ [f Hf]]. by rewrite Hf.
  - eexists. split; [reflexivity|]. split; [split|]; [| |split; [done|]].
    + intros name j. simpl.
      destruct (decide (name = n)) as [->|Hne].
      * rewrite lookup_insert_eq. intros [= <-]. rewrite lookup_insert_eq.
        split; [lia|eauto].
      * rewrite lookup_insert_ne by done. intros Hj.
        destruct (Hb name j Hj) as [? ?]. split; [lia|].
        rewrite lookup_insert_ne by lia. done.
    + intros name name' j. simpl.
      destruct (decide (name = n)) as [->|Hne];
        destruct (decide (name' = n)) as [->|Hne']; [done| | |].
      * rewrite lookup_insert_eq, lookup_insert_ne by done.
        intros [= <-] Hj. destruct (Hb _ _ Hj). lia.
      * rewrite lookup_insert_eq, lookup_insert_ne by done.
        intros Hj [= <-]. destruct (Hb _ _ Hj). lia.
      * rewrite !lookup_insert_ne by done. apply Hinj.
    + intros name. unfold file_at. simpl.
      destruct (String.eqb_spec n name) as [<-|Hne].
      * rewrite lookup_insert_eq. simpl. rewrite lookup_insert_eq.
        rewrite Hn. simpl. by destruct overwrite.
      * rewrite lookup_insert_ne by done.
        destruct (dir w !! name) as [j|] eqn:Hj; [|done]. simpl.
        apply lookup_insert_ne. destruct (Hb _ _ Hj). lia.
Qed.

(** Extraction with the overwrite flag: the last entry of a name wins. *)
Lemma extract_overwrite zip targetPath w :
  fs_wf w →
  ∃ w', extractAllTo zip targetPath true w = Ret () w' ∧
        fs_wf w' ∧ status w' = status w ∧
        ∀ name, file_at w' name =
                match last_entry zip name with
                | Some c => Some (mkFile c 438)
                | None => file_at w name
                end.
Proof.
  unfold extractAllTo. revert w. induction zip as [|entry zip IH]; intros w Hwf.
  - exists w. split; [done|]. split; [done|]. split; done.
  - simpl forEach. rewrite bind_eq.
    destruct (writeFileTo_file_at targetPath entry.1 entry.2 true w Hwf)
      as (w1 & -> & Hwf1 & Hst1 & Hf1).
    destruct (IH w1 Hwf1) as (w' & -> & Hwf' & Hst' & Hf').
    exists w'. split; [done|]. split; [done|]. split; [congruence|].
    intros name. rewrite Hf'. simpl.
    destruct (last_entry zip name); [done|]. rewrite Hf1.
    by destruct (String.eqb entry.1 name).
Qed.

(** Extraction without the flag: a file that is there stays, and among the
    entries of a new name the first one wins. *)
Lemma extract_no_overwrite zip targetPath w :
  fs_wf w →
  ∃ w', extractAllTo zip targetPath false w = Ret () w' ∧
        fs_wf w' ∧ status w' = status w ∧
        ∀ name, file_at w' name =
                match file_at w name with
                | Some f => Some f
                | None => (λ c, mkFile c 438) <$> first_entry zip name
                end.
Proof.
  unfold extractAllTo. revert w. induction zip as [|entry zip IH]; intros w Hwf.
  - exists w. split; [done|]. split; [done|]. split; [done|].
    intros name. by destruct (file_at w name).
  - simpl forEach. rewrite bind_eq.
    destruct (writeFileTo_file_at targetPath entry.1 entry.2 false w Hwf)
      as (w1 & -> & Hwf1 & Hst1 & Hf1).
    destruct (IH w1 Hwf1) as (w' & -> & Hwf' & Hst' & Hf').
    exists w'. split; [done|]. split; [done|]. split; [congruence|].
    intros name. rewrite Hf', Hf1. simpl.
    destruct (String.eqb entry.1 name); destruct (file_at w name); done.
Qed.

Lemma AdmZip_opens filename w bytes zip :
  readFile filename w = Some bytes → unzip bytes = Some zip →
  AdmZip unzip filename w = Ret zip w.
Proof. intros Hr Hz. unfold AdmZip. by rewrite Hr, Hz. Qed.

(** X17. The callback of chromedriver, in full.  From an archive that decodes, it
    leaves every file as the last entry of its name has it, also a file that
    was there before, and files without an entry as they were; off Windows it
    then makes [chromedriver] executable (mode 0755), and throws when
    there is no such file, after everything was extracted. *)
Theorem chrome_install_files filename w bytes zip :
  fs_wf w → readFile filename w = Some bytes → unzip bytes = Some zip →
  let w' := world_of (run_installer host argv unzip chromeInstall filename w) in
  let unpacked name :=
    match last_entry zip name with
    | Some c => Some (mkFile c 438)
    | None => file_at w name
    end in
  (∀ name, file_at w' name =
           if bool_decide (name = "chromedriver" ∧ os_type host ≠ "Windows_NT")
           then (λ f, mkFile (data f) 493) <$> unpacked name
           else unpacked name) ∧
  status w' =
    (if bool_decide (os_type host ≠ "Windows_NT" ∧ unpacked "chromedriver" = None)
     then Crashed ("ENOENT: " ++ out_dir argv ++ "/chromedriver")
     else status w).
Proof.
  intros Hwf Hread Hzip w' unpacked. subst w' unpacked. cbv beta.
  unfold run_installer. rewrite world_of_bind, (AdmZip_opens _ _ _ _ Hread Hzip).
  simpl world_of. rewrite world_of_bind.
  destruct (extract_overwrite zip (out_dir argv) w Hwf)
    as (w1 & -> & [Hb1 Hinj1] & Hst1 & Hf1).
  simpl world_of.
  match goal with |- context [world_of ?o] => set (w2 := world_of o) end.
  enough ((∀ name, file_at w2 name =
             if bool_decide (name = "chromedriver" ∧ os_type host ≠ "Windows_NT")
             then (λ f, mkFile (data f) 493) <$> file_at w1 name
             else file_at w1 name) ∧
          status w2 =
            (if bool_decide (os_type host ≠ "Windows_NT" ∧
                             file_at w1 "chromedriver" = None)
             then Crashed ("ENOENT: " ++ out_dir argv ++ "/chromedriver")
             else status w1)) as [Hfiles Hstatus].
  { split.
    - intros name. by rewrite Hfiles, Hf1.
    - by rewrite Hstatus, Hf1, Hst1. }
  subst w2. clear Hf1 Hst1.
  destruct (String.eqb_spec (os_type host) "Windows_NT") as [Hos|Hos].
  - simpl. split.
    + intros name. by rewrite bool_decide_eq_false_2 by tauto.
    + by rewrite bool_decide_eq_false_2 by tauto.
  - change (negb false) with true. cbv iota.
    destruct (dir w1 !! "chromedriver") as [i|] eqn:Hi.
    + assert (Hch : chmodSync (path_join (out_dir argv) "chromedriver") 493 w1 =
                Ret () (add_effect (Chmod (path_join (out_dir argv) "chromedriver") 493)
                          (set_inodes (alter (λ f, mkFile (data f) 493) i (inodes w1)) w1)))
        by (unfold chmodSync; simpl; by rewrite Hi).
      rewrite Hch. simpl world_of.
      destruct (Hb1 _ _ Hi) as [_ [f Hf]].
      assert (Hcd : file_at w1 "chromedriver" = Some f)
        by (unfold file_at; rewrite Hi; exact Hf).
      split.
      * intros name. case_bool_decide as Hn.
        -- destruct Hn as [-> _]. rewrite Hcd. unfold file_at. simpl.
           rewrite Hi. simpl. by rewrite lookup_alter_eq, Hf.
        -- unfold file_at. simpl.
           destruct (dir w1 !! name) as [j|] eqn:Hj; [|done]. simpl.
           apply lookup_alter_ne. intros ->. apply Hn. split; [|done].
           by eapply Hinj1.
      * rewrite bool_decide_eq_false_2; [done|]. intros [_ Hnone]. congruence.
    + assert (Hch : chmodSync (path_join (out_dir argv) "chromedriver") 493 w1 =
                Stop (set_status (Crashed ("ENOENT: " ++ out_dir argv ++ "/chromedriver")) w1))
        by (unfold chmodSync; simpl; by rewrite Hi).
      rewrite Hch. simpl world_of.
      assert (Hcd : file_at w1 "chromedriver" = None)
        by (unfold file_at; by rewrite Hi).
      split.
      * intros name. case_bool_decide as Hn; [|done].
        destruct Hn as [-> _]. by rewrite Hcd.
      * by rewrite bool_decide_eq_true_2.
Qed.

(** X18. The callback of the IE driver, in full.  From an archive that decodes,
    it changes no file that is there, whatever the archive holds under that
    name; a name that is new gets the first entry of that name; the callback
    returns. *)
Theorem ie_install_files filename w bytes zip :
  fs_wf w → readFile filename w = Some bytes → unzip bytes = Some zip →
  let w' := world_of (run_installer host argv unzip ieInstall filename w) in
  (∀ name, file_at w' name =
           match file_at w name with
           | Some f => Some f
           | None => (λ c, mkFile c 438) <$> first_entry zip name
           end) ∧
  status w' = status w ∧ fs_wf w'.
Proof.
  intros Hwf Hread Hzip w'. subst w'.
  unfold run_installer. rewrite world_of_bind, (AdmZip_opens _ _ _ _ Hread Hzip).
  simpl world_of.
  destruct (extract_no_overwrite zip (out_dir argv) w Hwf)
    as (w1 & -> & Hwf1 & Hst1 & Hf1).
  split; [done|]. split; done.
Qed.

End Install.

(** ** Files that update leaves alone *)

Section Spared.

Variable versions : Versions.
Variable host : Host.
Variable argv : Argv.
Variable unzip : string → option (list (string * string)).

Variable name : string.
Variable j : nat.
Variable f0 : option File.

Global Instance sparing_refl : Reflexive (sparing name j f0).
Proof. by intros w H. Qed.

Global Instance sparing_trans : Transitive (sparing name j f0).
Proof. intros w1 w2 w3 H12 H23 H. by apply H23, H12. Qed.

Lemma touched_app t t' n : touched t n → touched (t ++ t') n.
Proof.
  intros (p & Hp & [H|[m H]]); exists p; (split; [done|]).
  - left. apply elem_of_app. by left.
  - right. exists m. apply elem_of_app. by left.
Qed.

(** A step that leaves the files and the requests alone. *)
Lemma sparing_same_files w w' :
  dir w' = dir w → inodes w' = inodes w → next_ino w' = next_ino w →
  pending w' = pending w → (∃ t, trace w' = (trace w ++ t)%list) →
  sparing name j f0 w w'.
Proof.
  intros Hd Hi Hn Hp [t Ht] (Ha & Hb & Hc & He). unfold spared.
  rewrite Hd, Hi, Hn, Hp, Ht. split_and!; [done..|].
  destruct He as [?|?]; [by left|right; by apply touched_app].
Qed.

Lemma sparing_emit e : respects (sparing name j f0) (emit e).
Proof. intros w. apply sparing_same_files; try done. by exists [e]. Qed.

Lemma sparing_console_log msg : respects (sparing name j f0) (console_log msg).
Proof. apply sparing_emit. Qed.

Lemma sparing_console_error msg : respects (sparing name j f0) (console_error msg).
Proof. apply sparing_emit. Qed.

Lemma sparing_throw {A} err : respects (sparing name j f0) (@throw A err).
Proof.
  intros w. apply sparing_same_files; try done. exists []. by rewrite app_nil_r.
Qed.

Lemma sparing_process_exit {A} code :
  respects (sparing name j f0) (@process_exit A code).
Proof.
  intros w. apply sparing_same_files; try done. exists []. by rewrite app_nil_r.
Qed.

Lemma sparing_existsSync p : respects (sparing name j f0) (existsSync p).
Proof. intros w. reflexivity. Qed.

Lemma sparing_readdirSync : respects (sparing name j f0) readdirSync.
Proof. intros w. reflexivity. Qed.

Lemma sparing_register : respects (sparing name j f0) register_start_handlers.
Proof.
  intros w. apply sparing_same_files; try done. exists []. by rewrite app_nil_r.
Qed.

Lemma sparing_AdmZip p : respects (sparing name j f0) (AdmZip unzip p).
Proof.
  intros w. unfold AdmZip.
  destruct (readFile p w) as [bytes|]; [destruct (unzip bytes)|];
    simpl; try reflexivity;
    (apply sparing_same_files; try done; exists []; by rewrite app_nil_r).
Qed.

Lemma sparing_unlink p : p.2 ≠ name → respects (sparing name j f0) (unlink p).
Proof.
  intros Hne w (Ha & Hb & Hc & He). unfold spared. simpl.
  split_and!.
  - by rewrite lookup_delete_ne.
  - intros name' j' Hl. apply lookup_delete_Some in Hl as [_ Hl]. by apply Hb.
  - done.
  - destruct He as [?|?]; [by left|right; by apply touched_app].
Qed.

Lemma sparing_unlinkSync p :
  p.2 ≠ name → respects (sparing name j f0) (unlinkSync p).
Proof.
  intros Hne w. unfold unlinkSync. destruct (dir w !! p.2) eqn:Hl.
  - apply (sparing_unlink p Hne w).
  - simpl. apply sparing_same_files; try done. exists []. by rewrite app_nil_r.
Qed.

Lemma sparing_stream_write i chunk w :
  i ≠ j → sparing name j f0 w (world_of (stream_write i chunk w)).
Proof.
  intros Hne (Ha & Hb & Hc & He). unfold spared. simpl.
  split_and!; [done..|].
  destruct He as [?|?]; [left|by right]. by rewrite lookup_alter_ne.
Qed.

Lemma touched_write t p : p.2 = name → touched (t ++ [WriteFile p]) name.
Proof.
  intros Hp. exists p. split; [done|]. left. apply elem_of_app. right.
  by apply list_elem_of_singleton.
Qed.

Lemma touched_chmod t p m : p.2 = name → touched (t ++ [Chmod p m]) name.
Proof.
  intros Hp. exists p. split; [done|]. right. exists m. apply elem_of_app. right.
  by apply list_elem_of_singleton.
Qed.

Lemma sparing_writeFileTo p content overwrite :
  respects (sparing name j f0) (writeFileTo p content overwrite).
Proof.
  intros w (Ha & Hb & Hc & He). unfold writeFileTo.
  destruct (dir w !! p.2) as [i|] eqn:Hl; [destruct overwrite|]; simpl.
  - unfold spared. simpl. split_and!; [done..|].
    destruct (decide (p.2 = name)) as [Hp|Hp].
    + right. by apply touched_write.
    + destruct He as [?|?]; [left|right; by apply touched_app].
      rewrite lookup_insert_ne; [done|]. intros ->.
      by destruct (Hb _ _ Hl) as [_ ?]; auto.
  - by split_and!.
  - assert (p.2 ≠ name) as Hp by congruence.
    destruct (Hb _ _ Ha) as [Hj _].
    unfold spared. simpl. split_and!.
    + by rewrite lookup_insert_ne.
    + intros name' j'. destruct (decide (name' = p.2)) as [->|Hn'].
      * rewrite lookup_insert_eq. intros [= <-]. split; [lia|]. lia.
      * rewrite lookup_insert_ne by done. intros Hl'.
        destruct (Hb _ _ Hl') as [? ?]. split; [lia|done].
    + done.
    + destruct He as [?|?]; [left|right; by apply touched_app].
      rewrite lookup_insert_ne; [done|]. lia.
Qed.

Lemma sparing_chmodSync p m : respects (sparing name j f0) (chmodSync p m).
Proof.
  intros w (Ha & Hb & Hc & He). unfold chmodSync.
  destruct (dir w !! p.2) as [i|] eqn:Hl; simpl.
  - unfold spared. simpl. split_and!; [done..|].
    destruct (decide (p.2 = name)) as [Hp|Hp].
    + right. by apply touched_chmod.
    + destruct He as [?|?]; [left|right; by apply touched_app].
      rewrite lookup_alter_ne; [done|]. intros ->.
      by destruct (Hb _ _ Hl) as [_ ?]; auto.
  - by split_and!.
Qed.

Lemma sparing_installer f p :
  respects (sparing name j f0) (run_installer host argv unzip f p).
Proof.
  pose proof sparing_writeFileTo. pose proof sparing_chmodSync.
  pose proof sparing_AdmZip.
  unfold run_installer, extractAllTo. respects_walk.
Qed.

(** The request for a file of another name. *)
Lemma sparing_httpGetFile url fileName outputDir cb :
  fileName ≠ name →
  respects (sparing name j f0) (httpGetFile host argv url fileName outputDir cb).
Proof.
  intros Hne w (Ha & Hb & Hc & He). unfold httpGetFile.
  cbv [mbind M_bind mret M_ret console_log emit createWriteStream request].
  simpl.
  assert (Hta : ∀ t i g, i ≠ j →
               alter g i (inodes w) !! j = f0 ∨ touched (trace w ++ t) name).
  { intros t i g Hi. destruct He as [?|?]; [left|right; by apply touched_app].
    by rewrite lookup_alter_ne. }
  assert (Hti : ∀ t i x, i ≠ j →
               <[i := x]> (inodes w) !! j = f0 ∨ touched (trace w ++ t) name).
  { intros t i x Hi. destruct He as [?|?]; [left|right; by apply touched_app].
    by rewrite lookup_insert_ne. }
  destruct (Hb _ _ Ha) as [Hj _].
  destruct (dir w !! fileName) as [i|] eqn:Hl.
  - assert (i ≠ j) as Hi.
    { intros ->. by destruct (Hb _ _ Hl) as [_ ?]; auto. }
    assert (Hpend : ∀ id dl,
              <[next_req w := mkDownload url fileName (path_join outputDir fileName) i cb]>
                (pending w) !! id = Some dl →
              d_file dl ≠ j ∧ (d_filePath dl).2 ≠ name).
    { intros id dl. destruct (decide (id = next_req w)) as [->|Hid].
      - rewrite lookup_insert_eq. by intros [= <-].
      - rewrite lookup_insert_ne by done. apply Hc. }
    destruct (ignore_ssl argv); simpl; unfold spared; simpl;
      rewrite <- ?app_assoc;
      (split_and!; [done|done|exact Hpend|by apply Hta]).
  - assert (Hpend : ∀ id dl,
              <[next_req w := mkDownload url fileName (path_join outputDir fileName)
                                (next_ino w) cb]>
                (pending w) !! id = Some dl →
              d_file dl ≠ j ∧ (d_filePath dl).2 ≠ name).
    { intros id dl. destruct (decide (id = next_req w)) as [->|Hid].
      - rewrite lookup_insert_eq. intros [= <-]. simpl. split; [lia|done].
      - rewrite lookup_insert_ne by done. apply Hc. }
    assert (Hdir : ∀ name' j', <[fileName := next_ino w]> (dir w) !! name' = Some j' →
                     j' < S (next_ino w) ∧ (j' = j → name' = name)).
    { intros name' j'. destruct (decide (name' = fileName)) as [->|Hn'].
      - rewrite lookup_insert_eq. intros [= <-]. split; lia.
      - rewrite lookup_insert_ne by done. intros Hl'.
        destruct (Hb _ _ Hl') as [? ?]. split; [lia|done]. }
    assert (next_ino w ≠ j) as Hi by lia.
    destruct (ignore_ssl argv); simpl; unfold spared; simpl;
      rewrite <- ?app_assoc;
      (split_and!; [by rewrite lookup_insert_ne|exact Hdir|exact Hpend|by apply Hti]).
Qed.

Lemma filename_has_prefix b :
  contains (bin_filename (binaries versions host b))
           (bin_prefix (binaries versions host b)) = true.
Proof.
  apply contains_spec. exists "". destruct b; eexists; simpl; reflexivity.
Qed.

Hypothesis unrelated :
  ∀ b, contains name (bin_prefix (binaries versions host b)) = false.

Lemma sparing_downloadIfNew d b files cb :
  respects (sparing name j f0)
    (downloadIfNew host argv (scanned versions host d b) (out_dir argv) files cb).
Proof.
  unfold downloadIfNew.
  assert (Hsweep : ∀ file, respects (sparing name j f0)
            (if contains file (bin_prefix (scanned versions host d b))
             then unlinkSync (path_join (out_dir argv) file) else mret ())).
  { intros file. destruct (contains file _) eqn:Hc; [|apply respects_ret, _].
    apply sparing_unlinkSync. simpl. intros ->.
    change (bin_prefix (scanned versions host d b))
      with (bin_prefix (binaries versions host b)) in Hc.
    by rewrite unrelated in Hc. }
  assert (Hget : ∀ url, respects (sparing name j f0)
            (httpGetFile host argv url (bin_filename (scanned versions host d b))
                         (out_dir argv) (Some (afterDownload cb)))).
  { intros url. apply sparing_httpGetFile. intros Heq.
    pose proof (filename_has_prefix b) as Hc.
    change (bin_filename (scanned versions host d b))
      with (bin_filename (binaries versions host b)) in Heq.
    rewrite Heq, unrelated in Hc. done. }
  pose proof sparing_console_log. pose proof sparing_console_error.
  destruct (negb (bin_exists (scanned versions host d b))); [|by auto].
  apply respects_bind; [apply _..| |intros _].
  { apply respects_forEach; [apply _..|]. exact Hsweep. }
  apply respects_bind; [apply _..|by auto|intros _].
  destruct (bin_url (scanned versions host d b)); auto.
Qed.

Lemma sparing_main d i n :
  arg_command argv = "update" →
  sparing name j f0 (boot d i n) (world_of (main versions host argv (boot d i n))).
Proof.
  intros Hcmd. rewrite (main_update versions host argv d i n Hcmd).
  generalize (boot d i n). unfold update.
  pose proof (sparing_downloadIfNew d). respects_walk.
Qed.

Lemma sparing_step w ev :
  sparing name j f0 w (step host argv unzip w ev).
Proof.
  intros Hs. pose proof Hs as (Ha & Hb & Hc & He). revert Hs.
  change (sparing name j f0 w (step host argv unzip w ev)).
  pose proof sparing_console_log. pose proof sparing_console_error.
  pose proof sparing_emit. pose proof sparing_installer.
  pose proof (@sparing_process_exit unit).
  unfold step. destruct (status w); try reflexivity.
  destruct ev as [id e|code|chunk|].
  - destruct (pending w !! id) as [dl|] eqn:Hdl; [|reflexivity].
    destruct (Hc _ _ Hdl) as [Hfile Hpath]. destruct e.
    + enough (respects (sparing name j f0) (on_response dl statusCode)) as Hr
        by apply Hr.
      pose proof (sparing_unlink _ Hpath). unfold on_response. respects_walk.
    + enough (respects (sparing name j f0) (on_error dl err)) as Hr by apply Hr.
      pose proof (sparing_unlink _ Hpath). unfold on_error. respects_walk.
    + by apply sparing_stream_write.
    + enough (respects (sparing name j f0) (on_end host argv unzip dl)) as Hr.
      { etrans; [|apply Hr]. intros (_ & _ & _ & _). unfold spared. simpl.
        split_and!; [done..| |done].
        intros id' dl' Hl. apply lookup_delete_Some in Hl as [_ Hl]. by apply (Hc id'). }
      unfold on_end, run_callback. respects_walk.
  - destruct (supervising w); [|reflexivity].
    enough (respects (sparing name j f0) (on_child_exit code)) as Hr by apply Hr.
    unfold on_child_exit. respects_walk.
  - destruct (supervising w); [|reflexivity].
    enough (respects (sparing name j f0) (on_stdin_data chunk)) as Hr by apply Hr.
    unfold on_stdin_data. respects_walk.
  - destruct (supervising w).
    + enough (respects (sparing name j f0) on_SIGINT) as Hr by apply Hr.
      unfold on_SIGINT. respects_walk.
    + apply sparing_same_files; try done. exists []. by rewrite app_nil_r.
Qed.

Lemma sparing_run_events w evs :
  sparing name j f0 w (run_events host argv unzip w evs).
Proof.
  revert w. induction evs as [|ev evs IH]; intros w; [reflexivity|].
  rewrite run_events_cons. etrans; [apply sparing_step|apply IH].
Qed.

End Spared.

(** X19. The files update leaves alone.  A file whose name contains the prefix of
    no binary keeps its name through the whole run of the update command,
    whatever the events, and holds what it held unless an archive was
    extracted over it or its mode was changed by the chrome callback.  (Files
    are numbered below the next free number, and this one has one name.) *)
Theorem update_spares_other_files versions host argv unzip d i n evs name j :
  arg_command argv = "update" →
  (∀ name' j', d !! name' = Some j' → j' < n) →
  d !! name = Some j →
  (∀ name', d !! name' = Some j → name' = name) →
  (∀ b, contains name (bin_prefix (binaries versions host b)) = false) →
  let w := run versions host argv unzip d i n evs in
  dir w !! name = Some j ∧
  (inodes w !! j = i !! j ∨ touched (trace w) name).
Proof.
  intros Hcmd Hfresh Hname Hone Hun w. subst w. unfold run.
  assert (H0 : spared name j (i !! j) (boot d i n)).
  { unfold spared. simpl. split_and!; [done| | |by left].
    - intros name' j' Hl. split; [by eapply Hfresh|]. intros ->. by apply Hone.
    - intros id dl. by rewrite lookup_empty. }
  apply (sparing_main versions host argv name j (i !! j) Hun d i n Hcmd) in H0.
  apply (sparing_run_events host argv unzip name j (i !! j) _ evs) in H0.
  by destruct H0 as (Ha & _ & _ & He).
Qed.

(** ** Files that went missing, and SIGINT *)

Section Interrupt.

Variable versions : Versions.
Variable host : Host.
Variable argv : Argv.
Variable unzip : string → option (list (string * string)).

Lemma sweep_app prefix outputDir files files' w :
  sweep prefix outputDir (files ++ files') w =
  (sweep prefix outputDir files;; sweep prefix outputDir files') w.
Proof.
  revert w. induction files as [|a files IH]; intros w; [reflexivity|].
  simpl app. rewrite (sweep_cons prefix outputDir a (files ++ files')), bind_eq.
  rewrite (bind_eq (sweep prefix outputDir (a :: files))), sweep_cons, bind_eq.
  destruct ((if contains a prefix then unlinkSync (path_join outputDir a)
             else mret ()) w) as [u w1|w1]; [|done].
  by rewrite IH, bind_eq.
Qed.

(** X20. A listed file that is gone.  The loop of [downloadIfNew] works from the
    listing taken before the command ran.  It unlinks the listed files with
    the prefix one after the other and throws on the first of them that is no
    longer there (another loop unlinked it, or someone else did): exactly the
    files with the prefix that are listed before it are unlinked, the error
    names it, and the process is over before the update is announced or a
    request is sent. *)
Theorem listed_file_gone_stops_update bin outputDir cb w before file after :
  bin_exists bin = false →
  NoDup before →
  (∀ f, f ∈ before → contains f (bin_prefix bin) = true → present w f) →
  contains file (bin_prefix bin) = true → dir w !! file = None →
  let w' := world_of (downloadIfNew host argv bin outputDir
                                    (before ++ file :: after) cb w) in
  status w' = Crashed ("ENOENT: " ++ path_str (path_join outputDir file)) ∧
  trace w' = (trace w ++ map (λ f, Unlink (path_join outputDir f))
                             (stale (bin_prefix bin) before))%list ∧
  (∀ f, dir w' !! f = if decide (f ∈ stale (bin_prefix bin) before) then None
                      else dir w !! f) ∧
  inodes w' = inodes w ∧ pending w' = pending w.
Proof.
  intros Hex Hnd Hall Hc Hd w'. subst w'.
  rewrite (downloadIfNew_absent host argv) by done.
  fold (sweep (bin_prefix bin) outputDir (before ++ file :: after)).
  rewrite world_of_bind, sweep_app, bind_eq.
  destruct (sweep_ok (bin_prefix bin) outputDir before w Hnd Hall)
    as (w1 & -> & Hdir & Hino & _ & Hpend & _ & _ & Hst & Ht).
  rewrite sweep_cons, bind_eq, Hc.
  assert (Hgone : dir w1 !! file = None).
  { rewrite Hdir. by case_decide. }
  unfold unlinkSync. simpl. rewrite Hgone. simpl.
  by split_and!.
Qed.

Global Instance same_handlers_refl : Reflexive same_handlers.
Proof. by intros w. Qed.

Global Instance same_handlers_trans : Transitive same_handlers.
Proof. intros w1 w2 w3 H12 H23. unfold same_handlers in *. congruence. Qed.

Lemma same_handlers_emit e : respects same_handlers (emit e).
Proof. by intros w. Qed.

Lemma same_handlers_console_log msg : respects same_handlers (console_log msg).
Proof. by intros w. Qed.

Lemma same_handlers_console_error msg : respects same_handlers (console_error msg).
Proof. by intros w. Qed.

Lemma same_handlers_throw {A} err : respects same_handlers (@throw A err).
Proof. by intros w. Qed.

Lemma same_handlers_process_exit {A} code :
  respects same_handlers (@process_exit A code).
Proof. by intros w. Qed.

Lemma same_handlers_existsSync p : respects same_handlers (existsSync p).
Proof. by intros w. Qed.

Lemma same_handlers_readdirSync : respects same_handlers readdirSync.
Proof. by intros w. Qed.

Lemma same_handlers_unlink p : respects same_handlers (unlink p).
Proof. by intros w. Qed.

Lemma same_handlers_unlinkSync p : respects same_handlers (unlinkSync p).
Proof. intros w. unfold unlinkSync. by destruct (dir w !! p.2). Qed.

Lemma same_handlers_createWriteStream p : respects same_handlers (createWriteStream host p).
Proof. intros w. unfold createWriteStream. by destruct (dir w !! p.2). Qed.

Lemma same_handlers_stream_write i chunk : respects same_handlers (stream_write i chunk).
Proof. by intros w. Qed.

Lemma same_handlers_chmodSync p m : respects same_handlers (chmodSync p m).
Proof. intros w. unfold chmodSync. by destruct (dir w !! p.2). Qed.

Lemma same_handlers_writeFileTo p content overwrite :
  respects same_handlers (writeFileTo p content overwrite).
Proof.
  intros w. unfold writeFileTo. by destruct (dir w !! p.2); [destruct overwrite|].
Qed.

Lemma same_handlers_request url strictSSL prox d :
  respects same_handlers (request url strictSSL prox d).
Proof. by intros w. Qed.

Lemma same_handlers_AdmZip p : respects same_handlers (AdmZip unzip p).
Proof.
  intros w. unfold AdmZip.
  by destruct (readFile p w) as [bytes|]; [destruct (unzip bytes)|].
Qed.

Lemma same_handlers_main w :
  arg_command argv ≠ "start" →
  same_handlers w (world_of (main versions host argv w)).
Proof.
  intros Hcmd. apply String.eqb_neq in Hcmd. unfold main. rewrite Hcmd.
  pose proof same_handlers_emit. pose proof same_handlers_console_log.
  pose proof same_handlers_console_error. pose proof same_handlers_existsSync.
  pose proof same_handlers_readdirSync. pose proof same_handlers_unlinkSync.
  pose proof same_handlers_createWriteStream. pose proof same_handlers_request.
  revert w. unfold scan, report, update, downloadIfNew, httpGetFile.
  respects_walk.
Qed.

Lemma same_handlers_step w ev :
  supervising w = false → supervising (step host argv unzip w ev) = false.
Proof.
  intros Hs.
  pose proof same_handlers_emit. pose proof same_handlers_console_log.
  pose proof same_handlers_console_error. pose proof same_handlers_unlink.
  pose proof same_handlers_stream_write. pose proof same_handlers_chmodSync.
  pose proof same_handlers_writeFileTo. pose proof same_handlers_AdmZip.
  unfold step. rewrite Hs. destruct (status w); try done.
  destruct ev as [id e|code|chunk|]; try done.
  destruct (pending w !! id) as [dl|]; [|done]. destruct e.
  - enough (respects same_handlers (on_response dl statusCode)) as Hr
      by (rewrite Hr; exact Hs).
    unfold on_response. respects_walk.
  - enough (respects same_handlers (on_error dl err)) as Hr
      by (rewrite Hr; exact Hs).
    unfold on_error. respects_walk.
  - done.
  - enough (respects same_handlers (on_end host argv unzip dl)) as Hr
      by (rewrite Hr; exact Hs).
    unfold on_end, run_callback, run_installer, extractAllTo. respects_walk.
Qed.

Lemma same_handlers_run_events w evs :
  supervising w = false → supervising (run_events host argv unzip w evs) = false.
Proof.
  revert w. induction evs as [|ev evs IH]; intros w Hs; [done|].
  rewrite run_events_cons. by apply IH, same_handlers_step.
Qed.

(** X21. SIGINT outside the start command.  Only [start] registers a handler for
    SIGINT.  Under every other command the signal ends the process where it
    stands: nothing more is written or printed, the requests in flight are
    left as they are, and a file that was being downloaded stays, with what
    had arrived, under its final name. *)
Theorem sigint_ends_other_commands d i n evs evs' :
  arg_command argv ≠ "start" →
  let w := run versions host argv unzip d i n evs in
  status w = Running →
  run versions host argv unzip d i n (evs ++ SIGINT :: evs') =
  set_status (Killed "SIGINT") w.
Proof.
  intros Hcmd w Hst. subst w. unfold run in *.
  rewrite run_events_app, run_events_cons.
  set (w := run_events host argv unzip _ evs) in *.
  assert (Hs : supervising w = false).
  { apply same_handlers_run_events.
    by rewrite (same_handlers_main (boot d i n) Hcmd). }
  assert (Hstep : step host argv unzip w SIGINT = set_status (Killed "SIGINT") w)
    by (unfold step; by rewrite Hst, Hs).
  rewrite Hstep. by apply not_running_run.
Qed.

End Interrupt.

(** ** The further properties on sample runs *)

Lemma NoDup_fmap_inj {A B} (f : A → B) (l : list A) x y :
  NoDup (f <$> l) → x ∈ l → y ∈ l → f x = f y → x = y.
Proof.
  induction l as [|a l IH]; intros Hnd Hx Hy Hf.
  { by apply elem_of_nil in Hx. }
  rewrite fmap_cons in Hnd. apply NoDup_cons in Hnd as [Hna Hnd].
  apply elem_of_cons in Hx as [->|Hx]; apply elem_of_cons in Hy as [->|Hy].
  - done.
  - destruct Hna. rewrite Hf. by apply list_elem_of_fmap_2.
  - destruct Hna. rewrite <- Hf. by apply list_elem_of_fmap_2.
  - by apply IH.
Qed.

Lemma fs_wf_intro w :
  map_Forall (λ _ i, i < next_ino w ∧ is_Some (inodes w !! i)) (dir w) →
  NoDup (map_to_list (dir w)).*2 → fs_wf w.
Proof.
  intros Hall Hnd. split.
  - intros name i Hl. exact (Hall name i Hl).
  - intros n1 n2 i H1 H2. apply elem_of_map_to_list in H1, H2.
    by injection (NoDup_fmap_inj snd _ _ _ Hnd H1 H2 eq_refl).
Qed.

Lemma fs_wf_chrome_installed : fs_wf world_chrome_installed.
Proof.
  apply fs_wf_intro.
  - apply (bool_decide_unpack _). vm_compute. exact I.
  - apply (bool_decide_unpack _). vm_compute. exact I.
Qed.

Lemma shortVersion_cuts_at_last_dot_witness :
  contains "0" "." = false ∧ shortVersion ("2.45" ++ "." ++ "0") = "2.45".
Proof.
  split; [reflexivity|].
  exact (shortVersion_cuts_at_last_dot "2.45" "0" eq_refl).
Defined.

Lemma shortVersion_without_dot_witness :
  contains ("21" ++ String "4" "") "." = false ∧
  shortVersion ("21" ++ String "4" "") = "21".
Proof.
  split; [reflexivity|].
  exact (shortVersion_without_dot "21" "4"%char eq_refl).
Defined.

Lemma explicit_proxy_wins_witness :
  truthy (proxy update_via_proxy) = true ∧
  resolveProxy linux64_proxied update_via_proxy
    "https://selenium-release.storage.googleapis.com/2.45/selenium-server-standalone-2.45.0.jar"
  = Some "http://proxy.example:3128".
Proof.
  split; [reflexivity|].
  exact (proj1 (explicit_proxy_wins v245 linux64_proxied update_via_proxy sample_unzip
                  ∅ ∅ 0 [] eq_refl) _).
Defined.

Lemma registry_proxy_from_environment_witness :
  truthy (proxy update_chrome) = false ∧
  bin_url (binaries v245 linux64_proxied chrome) =
    Some "https://chromedriver.storage.googleapis.com/2.14/chromedriver_linux64.zip" ∧
  resolveProxy linux64_proxied update_chrome
    "https://chromedriver.storage.googleapis.com/2.14/chromedriver_linux64.zip"
  = first_truthy [None; Some "http://env.example:3128"; None; None].
Proof.
  assert (H1 : bin_url (binaries v245 linux64_proxied chrome) =
    Some "https://chromedriver.storage.googleapis.com/2.14/chromedriver_linux64.zip")
    by (vm_compute; reflexivity).
  split_and!; [reflexivity|exact H1|].
  exact (proj1 (registry_proxy_from_environment v245 linux64_proxied update_chrome
                  chrome _ eq_refl H1)).
Defined.

Lemma requests_follow_the_options_witness :
  Request "https://chromedriver.storage.googleapis.com/2.14/chromedriver_linux64.zip"
          true None
    ∈ trace (run v245 linux64 update_chrome sample_unzip ∅ ∅ 0 []) ∧
  true = negb (ignore_ssl update_chrome) ∧
  None = resolveProxy linux64 update_chrome
           "https://chromedriver.storage.googleapis.com/2.14/chromedriver_linux64.zip".
Proof.
  assert (H1 : Request
      "https://chromedriver.storage.googleapis.com/2.14/chromedriver_linux64.zip"
      true None ∈ trace (run v245 linux64 update_chrome sample_unzip ∅ ∅ 0 [])).
  { apply list_elem_of_In. vm_compute. right. right. right. left. reflexivity. }
  split; [exact H1|].
  destruct (requests_follow_the_options v245 linux64 update_chrome sample_unzip
              ∅ ∅ 0 [] _ _ _ H1) as (H2 & H3 & _).
  split; [exact H2|exact H3].
Defined.

Lemma other_commands_leave_files_witness :
  arg_command start_default ≠ "update" ∧
  dir (run v245 linux64 start_default sample_unzip dir_current inodes_current 4
           [StdinData "q"; SIGINT]) = dir_current.
Proof.
  assert (H1 : arg_command start_default ≠ "update")
    by (intros H; discriminate H).
  split; [exact H1|].
  exact (proj1 (other_commands_leave_files v245 linux64 start_default sample_unzip
                  dir_current inodes_current 4 [StdinData "q"; SIGINT] H1)).
Defined.

Lemma status_reports_the_scan_witness :
  arg_command status_default = "status" ∧
  trace (run v245 linux64 status_default sample_unzip dir_chrome_old
             inodes_chrome_old 2 [SIGINT]) =
  map (λ b, ConsoleLog (status_line v245 linux64 dir_chrome_old b))
      [standalone; chrome; ie].
Proof.
  split; [reflexivity|].
  exact (proj1 (proj2 (proj2 (status_reports_the_scan v245 linux64 status_default
                  sample_unzip dir_chrome_old inodes_chrome_old 2 [SIGINT] eq_refl)))).
Defined.

Lemma start_command_line_witness :
  arg_command start_on_port = "start" ∧
  is_Some (dir_current !! bin_filename (binaries v245 linux64 standalone)) ∧
  ∃ jar port_args chrome_args ie_args,
    trace (world_of (main v245 linux64 start_on_port
                          (boot dir_current inodes_current 4))) =
      [Spawn "java" (["-jar"; jar] ++ port_args ++ chrome_args ++ ie_args);
       ConsoleLog ("seleniumProcess.pid: " ++ pretty (child_pid linux64))] ∧
    ends_with jar "selenium-server-standalone-2.45.0.jar".
Proof.
  assert (H1 : is_Some (dir_current !! bin_filename (binaries v245 linux64 standalone)))
    by (vm_compute; eexists; reflexivity).
  split_and!; [reflexivity|exact H1|].
  destruct (start_command_line v245 linux64 start_on_port dir_current
              inodes_current 4 eq_refl H1)
    as (jar & port_args & chrome_args & ie_args & Ht & _ & _ & Hjar & _).
  exists jar, port_args, chrome_args, ie_args. split; [exact Ht|exact Hjar].
Defined.

Lemma stdin_asks_for_shutdown_witness :
  arg_command start_on_port = "start" ∧
  is_Some (dir_current !! bin_filename (binaries v245 linux64 standalone)) ∧
  ["q"; "quit"] ≠ [] ∧
  network (trace (session v245 linux64 start_on_port sample_unzip dir_current
                          inodes_current 4
                          (map (λ c, Handled (StdinData c)) ["q"; "quit"]))) =
    map (λ _, HttpGet shutdown_url) ["q"; "quit"] ∧
  status (session v245 linux64 start_on_port sample_unzip dir_current
                  inodes_current 4
                  (map (λ c, Handled (StdinData c)) ["q"; "quit"] ++
                   ShutdownError "connect ECONNREFUSED" :: [Handled (ChildExit (Some 0%Z))]))
  = Crashed "connect ECONNREFUSED".
Proof.
  assert (H1 : is_Some (dir_current !! bin_filename (binaries v245 linux64 standalone)))
    by (vm_compute; eexists; reflexivity).
  assert (H2 : ["q"; "quit"] ≠ @nil string) by (intros H; discriminate H).
  split_and!; [reflexivity|exact H1|exact H2| |].
  - exact (proj1 (proj2 (proj2 (proj2 (stdin_asks_for_shutdown v245 linux64
             start_on_port sample_unzip dir_current inodes_current 4 ["q"; "quit"]
             "connect ECONNREFUSED" [] eq_refl H1))))).
  - rewrite (proj2 (proj2 (proj2 (proj2 (stdin_asks_for_shutdown v245 linux64
               start_on_port sample_unzip dir_current inodes_current 4 ["q"; "quit"]
               "connect ECONNREFUSED" [Handled (ChildExit (Some 0%Z))] eq_refl H1)))) H2).
    reflexivity.
Defined.

Lemma signalled_child_exits_zero_witness :
  arg_command start_default = "start" ∧
  is_Some (dir_current !! bin_filename (binaries v245 linux64 standalone)) ∧
  Forall (λ ev, ¬ is_child_exit ev) [SIGINT] ∧
  status (run v245 linux64 start_default sample_unzip dir_current inodes_current 4
              ([SIGINT] ++ ChildExit None :: [])) = Exited 0.
Proof.
  assert (H1 : is_Some (dir_current !! bin_filename (binaries v245 linux64 standalone)))
    by (vm_compute; eexists; reflexivity).
  assert (H2 : Forall (λ ev, ¬ is_child_exit ev) [SIGINT])
    by (repeat constructor; simpl; tauto).
  split_and!; [reflexivity|exact H1|exact H2|].
  exact (proj1 (signalled_child_exits_zero v245 linux64 start_default sample_unzip
                  dir_current inodes_current 4 [SIGINT] [] eq_refl H1 H2)).
Defined.

Lemma invalid_command_shows_help_witness :
  arg_command no_command ≠ "start" ∧ arg_command no_command ≠ "status" ∧
  arg_command no_command ≠ "update" ∧
  status (session v245 linux64 no_command sample_unzip dir_current inodes_current 4
                  [Handled SIGINT]) = Exited 0.
Proof.
  assert (H1 : arg_command no_command ≠ "start") by (intros H; discriminate H).
  assert (H2 : arg_command no_command ≠ "status") by (intros H; discriminate H).
  assert (H3 : arg_command no_command ≠ "update") by (intros H; discriminate H).
  split_and!; [exact H1|exact H2|exact H3|].
  exact (proj2 (proj2 (proj2 (invalid_command_shows_help v245 linux64 no_command
                  sample_unzip dir_current inodes_current 4 [Handled SIGINT]
                  H1 H2 H3)))).
Defined.

Lemma transport_error_removes_partial_file_witness :
  let w := world_of (main v245 linux64 update_chrome (boot ∅ ∅ 0)) in
  let evs := [Net 0 (Data "late"); Net 0 End] in
  status w = Running ∧ pending w !! 0 = Some chrome_download ∧
  Forall (of_request 0) evs ∧
  dir (run_events linux64 update_chrome sample_unzip
         (step linux64 update_chrome sample_unzip w (Net 0 (Error "ECONNRESET"))) evs)
    !! "chromedriver_2.14.zip" = None.
Proof.
  cbv zeta.
  set (w := world_of (main v245 linux64 update_chrome (boot ∅ ∅ 0))).
  assert (H1 : status w = Running) by (vm_compute; reflexivity).
  assert (H2 : pending w !! 0 = Some chrome_download) by (vm_compute; reflexivity).
  assert (H3 : Forall (of_request 0) [Net 0 (Data "late"); Net 0 End])
    by (repeat constructor; eexists; reflexivity).
  split_and!; [exact H1|exact H2|exact H3|].
  exact (proj1 (proj2 (proj2 (proj2 (proj2
           (transport_error_removes_partial_file linux64 update_chrome sample_unzip
              w 0 chrome_download "ECONNRESET" _ H1 H2 H3)))))).
Defined.

Lemma download_holds_the_body_witness :
  let w := boot dir_chrome_old inodes_chrome_old 2 in
  status w = Running ∧
  (∀ i, dir w !! "chromedriver_2.13.zip" = Some i → is_Some (inodes w !! i)) ∧
  readFile ("selenium", "chromedriver_2.13.zip")
    (run_events linux64 update_chrome sample_unzip
       (world_of (httpGetFile linux64 update_chrome "https://example.org/a.zip"
                    "chromedriver_2.13.zip" "selenium" None w))
       (Net 0 (Response 200) :: map (λ c, Net 0 (Data c)) ["PK-"; "new"]))
  = Some (joined ["PK-"; "new"]).
Proof.
  cbv zeta.
  assert (H1 : ∀ i, dir (boot dir_chrome_old inodes_chrome_old 2)
                      !! "chromedriver_2.13.zip" = Some i →
                    is_Some (inodes (boot dir_chrome_old inodes_chrome_old 2) !! i)).
  { intros i H. vm_compute in H. injection H as <-. vm_compute.
    eexists; reflexivity. }
  split_and!; [reflexivity|exact H1|].
  exact (proj1 (proj2 (download_holds_the_body linux64 update_chrome sample_unzip
                  (boot dir_chrome_old inodes_chrome_old 2)
                  "https://example.org/a.zip" "chromedriver_2.13.zip" None
                  ["PK-"; "new"] eq_refl H1))).
Defined.

Lemma undecodable_archive_ends_the_run_witness :
  let w := run v245 linux64 update_chrome sample_unzip ∅ ∅ 0
               [Net 0 (Response 200); Net 0 (Data "<html>")] in
  status w = Running ∧ pending w !! 0 = Some chrome_download ∧
  d_callback chrome_download = Some (afterDownload (Some chromeInstall)) ∧
  readFile (d_filePath chrome_download) w = Some "<html>" ∧
  sample_unzip "<html>" = None ∧
  status (run_events linux64 update_chrome sample_unzip w [Net 0 End; SIGINT]) =
    Crashed "Invalid or unsupported zip format".
Proof.
  cbv zeta.
  set (w := run v245 linux64 update_chrome sample_unzip ∅ ∅ 0
                [Net 0 (Response 200); Net 0 (Data "<html>")]).
  assert (H1 : status w = Running) by (vm_compute; reflexivity).
  assert (H2 : pending w !! 0 = Some chrome_download) by (vm_compute; reflexivity).
  assert (H3 : readFile (d_filePath chrome_download) w = Some "<html>")
    by (vm_compute; reflexivity).
  assert (H4 : sample_unzip "<html>" = None) by (vm_compute; reflexivity).
  split_and!; [exact H1|exact H2|reflexivity|exact H3|exact H4|].
  exact (proj1 (undecodable_archive_ends_the_run linux64 update_chrome sample_unzip
                  w 0 chrome_download chromeInstall "<html>" [SIGINT]
                  H1 H2 eq_refl H3 H4)).
Defined.

Lemma fs_wf_ie_installed : fs_wf world_ie_installed.
Proof.
  apply fs_wf_intro.
  - apply (bool_decide_unpack _). vm_compute. exact I.
  - apply (bool_decide_unpack _). vm_compute. exact I.
Qed.

Lemma chrome_install_files_witness :
  let filename := path_join "selenium" "chromedriver_2.14.zip" in
  fs_wf world_chrome_installed ∧
  readFile filename world_chrome_installed = Some "PK-chromedriver" ∧
  sample_unzip "PK-chromedriver" = Some [("chromedriver", "ELF")] ∧
  file_at (world_of (run_installer linux64 update_chrome sample_unzip chromeInstall
                                   filename world_chrome_installed))
          "chromedriver" = Some (mkFile "ELF" 493).
Proof.
  cbv zeta.
  assert (H1 : readFile (path_join "selenium" "chromedriver_2.14.zip")
                        world_chrome_installed = Some "PK-chromedriver")
    by (vm_compute; reflexivity).
  assert (H2 : sample_unzip "PK-chromedriver" = Some [("chromedriver", "ELF")])
    by (vm_compute; reflexivity).
  split_and!; [exact fs_wf_chrome_installed|exact H1|exact H2|].
  exact (proj1 (chrome_install_files linux64 update_chrome sample_unzip
                  (path_join "selenium" "chromedriver_2.14.zip")
                  world_chrome_installed "PK-chromedriver" [("chromedriver", "ELF")]
                  fs_wf_chrome_installed H1 H2) "chromedriver").
Defined.

Lemma ie_install_files_witness :
  let filename := path_join "selenium" "IEDriverServer_2.45.0.zip" in
  fs_wf world_ie_installed ∧
  readFile filename world_ie_installed = Some "PK-IEDriverServer" ∧
  sample_unzip "PK-IEDriverServer" = Some [("IEDriverServer.exe", "MZ")] ∧
  file_at (world_of (run_installer win64 update_ie sample_unzip ieInstall
                                   filename world_ie_installed))
          "IEDriverServer.exe" = Some (mkFile "MZ-old" 438).
Proof.
  cbv zeta.
  assert (H1 : readFile (path_join "selenium" "IEDriverServer_2.45.0.zip")
                        world_ie_installed = Some "PK-IEDriverServer")
    by (vm_compute; reflexivity).
  assert (H2 : sample_unzip "PK-IEDriverServer" = Some [("IEDriverServer.exe", "MZ")])
    by (vm_compute; reflexivity).
  split_and!; [exact fs_wf_ie_installed|exact H1|exact H2|].
  exact (proj1 (ie_install_files win64 update_ie sample_unzip
                  (path_join "selenium" "IEDriverServer_2.45.0.zip")
                  world_ie_installed "PK-IEDriverServer" [("IEDriverServer.exe", "MZ")]
                  fs_wf_ie_installed H1 H2) "IEDriverServer.exe").
Defined.

Lemma update_spares_other_files_witness :
  arg_command update_chrome = "update" ∧
  (∀ name' j', dir_notes !! name' = Some j' → j' < 1) ∧
  dir_notes !! "README.txt" = Some 0 ∧
  (∀ name', dir_notes !! name' = Some 0 → name' = "README.txt") ∧
  (∀ b, contains "README.txt" (bin_prefix (binaries v245 linux64 b)) = false) ∧
  dir (run v245 linux64 update_chrome sample_unzip dir_notes inodes_notes 1
           (fetched 0 "PK-chromedriver")) !! "README.txt" = Some 0.
Proof.
  assert (H1 : ∀ name' j', dir_notes !! name' = Some j' → j' < 1).
  { intros name' j' H. unfold dir_notes in H.
    apply lookup_singleton_Some in H as [_ <-]. lia. }
  assert (H2 : dir_notes !! "README.txt" = Some 0) by (vm_compute; reflexivity).
  assert (H3 : ∀ name', dir_notes !! name' = Some 0 → name' = "README.txt").
  { intros name' H. unfold dir_notes in H.
    by apply lookup_singleton_Some in H as [<- _]. }
  assert (H4 : ∀ b, contains "README.txt" (bin_prefix (binaries v245 linux64 b)) = false)
    by (intros []; vm_compute; reflexivity).
  split_and!; [reflexivity|exact H1|exact H2|exact H3|exact H4|].
  exact (proj1 (update_spares_other_files v245 linux64 update_chrome sample_unzip
                  dir_notes inodes_notes 1 (fetched 0 "PK-chromedriver")
                  "README.txt" 0 eq_refl H1 H2 H3 H4)).
Defined.

Lemma listed_file_gone_stops_update_witness :
  let bin := scanned v245 linux64 dir_ie_old ie in
  let w := boot dir_ie_old inodes_ie_old 1 in
  let before := ["IEDriverServer_2.44.0.zip"] in
  bin_exists bin = false ∧ NoDup before ∧
  (∀ f, f ∈ before → contains f (bin_prefix bin) = true → present w f) ∧
  contains "IEDriverServer.exe" (bin_prefix bin) = true ∧
  dir w !! "IEDriverServer.exe" = None ∧
  status (world_of (downloadIfNew linux64 update_ie bin "selenium"
                      (before ++ "IEDriverServer.exe" :: ["README.txt"])
                      (Some ieInstall) w))
  = Crashed ("ENOENT: " ++ path_str (path_join "selenium" "IEDriverServer.exe")).
Proof.
  cbv zeta.
  assert (H1 : bin_exists (scanned v245 linux64 dir_ie_old ie) = false)
    by (vm_compute; reflexivity).
  assert (H2 : NoDup ["IEDriverServer_2.44.0.zip"]).
  { apply NoDup_cons. split; [apply not_elem_of_nil|apply NoDup_nil_2]. }
  assert (H3 : ∀ f, f ∈ ["IEDriverServer_2.44.0.zip"] →
                 contains f (bin_prefix (scanned v245 linux64 dir_ie_old ie)) = true →
                 present (boot dir_ie_old inodes_ie_old 1) f).
  { intros f Hf _. apply list_elem_of_singleton in Hf as ->.
    vm_compute. eexists. reflexivity. }
  assert (H4 : contains "IEDriverServer.exe"
                 (bin_prefix (scanned v245 linux64 dir_ie_old ie)) = true)
    by (vm_compute; reflexivity).
  assert (H5 : dir (boot dir_ie_old inodes_ie_old 1) !! "IEDriverServer.exe" = None)
    by (vm_compute; reflexivity).
  split_and!; [exact H1|exact H2|exact H3|exact H4|exact H5|].
  exact (proj1 (listed_file_gone_stops_update linux64 update_ie
                  (scanned v245 linux64 dir_ie_old ie) "selenium" (Some ieInstall)
                  (boot dir_ie_old inodes_ie_old 1) ["IEDriverServer_2.44.0.zip"]
                  "IEDriverServer.exe" ["README.txt"] H1 H2 H3 H4 H5)).
Defined.

Lemma sigint_ends_other_commands_witness :
  arg_command update_chrome ≠ "start" ∧
  status (run v245 linux64 update_chrome sample_unzip ∅ ∅ 0
              [Net 0 (Response 200); Net 0 (Data "PK-")]) = Running ∧
  run v245 linux64 update_chrome sample_unzip ∅ ∅ 0
      ([Net 0 (Response 200); Net 0 (Data "PK-")] ++ SIGINT :: [Net 0 End]) =
  set_status (Killed "SIGINT")
    (run v245 linux64 update_chrome sample_unzip ∅ ∅ 0
         [Net 0 (Response 200); Net 0 (Data "PK-")]).
Proof.
  assert (H1 : arg_command update_chrome ≠ "start") by (intros H; discriminate H).
  assert (H2 : status (run v245 linux64 update_chrome sample_unzip ∅ ∅ 0
                           [Net 0 (Response 200); Net 0 (Data "PK-")]) = Running)
    by (vm_compute; reflexivity).
  split_and!; [exact H1|exact H2|].
  exact (sigint_ends_other_commands v245 linux64 update_chrome sample_unzip ∅ ∅ 0
           [Net 0 (Response 200); Net 0 (Data "PK-")] [Net 0 End] H1 H2).
Defined.
